(** * Trip builder: examples/trips/generate_data.py

    A shallow embedding of the script that converts SUMO floating-car data
    (one row per vehicle and timestep) into the nested-list table read by the
    deck.gl trips layer, followed by the properties of that conversion.

    Conventions of the embedding.
    - A pandas [DataFrame] is its list of column labels and its rows in index
      order; a row's cell of an optional column is only read when the label
      is in [columns].
    - The script is embedded on two kinds of frames.  In [pd] the
      [vehicle_id] column holds a string in every row, as SUMO writes it, so
      that [str(x)] is [x]: the sort, the sampling, the time window and the
      defaults of absent columns are studied there.  In [raw] the column is
      what [read_parquet] may return from any file: a cell may be missing
      and an identifier may be an integer; the sort and [groupby] work on
      the raw values, [groupby] leaves out the rows whose identifier is
      missing, and [str] is applied where the script emits an identifier.
      The offsets, the alignment of the columns, the assembled table and
      the order of the trips are studied there.  On a frame of strings the
      two embeddings agree ([raw_flatten_of_frame], [raw_main_of_frame]).
    - Edge identifiers are strings, compared as Python compares [str]
      (lexicographic on code points).
    - float64 cells are rationals: NaN and the infinities are left out (in
      [timestep_time] the window test rejects them, the other columns are
      only copied).  The cast performed by a store into a float32 array is
      the parameter [f32] of the script.
    - Python integers ([len], loop counters, [current_offset]) are naturals;
      a store of a Python integer into the int32 array [offsets] raises
      [OverflowError] outside the int32 range, as NumPy 2 does.
    - The outcome of the random generator is the parameter [permutation]:
      what [RandomState.permutation n] returns.
    - pandas and pyarrow calls follow the library defaults: [sort_values]
      on several keys is a stable lexicographic sort with missing keys
      last, [groupby] iterates its groups in sorted key order, keeps the
      row order inside a group and drops missing keys.
    - The console output, the feather serialisation and the gzip compression
      are not part of the embedding: [main] ends with the table handed to
      the feather writer. *)

From Stdlib Require Import String Ascii ZArith QArith Qminmax Lia Bool.
From Stdlib Require Import DecimalString.
From Stdlib Require Import OrdersEx RelationClasses Morphisms.
From Stdlib Require Import List Permutation Sorted.
Import ListNotations.

Close Scope Q_scope.
Open Scope string_scope.
Open Scope list_scope.

(** ** Exceptions *)

Inductive PyErr : Type :=
| ValueError (msg : string)
| IndexError (msg : string)
| OverflowError (msg : string)
| TypeError (msg : string)
| ArrowInvalid (msg : string).

Inductive result (A : Type) : Type :=
| Ok (a : A)
| Raise (e : PyErr).

Arguments Ok {A} a.
Arguments Raise {A} e.

Definition bind {A B} (m : result A) (k : A -> result B) : result B :=
  match m with
  | Ok a => k a
  | Raise e => Raise e
  end.

Notation "x <- m ;; k" := (bind m (fun x => k))
  (at level 61, m at next level, right associativity).

(** ** NumPy *)

Module np.

(** Range of the dtype int32. *)
Definition INT32_MIN : Z := (- 2147483648)%Z.
Definition INT32_MAX : Z := 2147483647%Z.
Definition int32_fits (v : Z) : bool :=
  (INT32_MIN <=? v)%Z && (v <=? INT32_MAX)%Z.

(** [np.zeros(n)] *)
Definition zeros {A} (zero : A) (n : nat) : list A := repeat zero n.

(** Bounds of [a[lo:hi]] after clipping to the array. *)
Definition clip_lo {A} (a : list A) (lo : nat) : nat := Nat.min lo (length a).
Definition slice_len {A} (a : list A) (lo hi : nat) : nat :=
  Nat.min hi (length a) - clip_lo a lo.

(** Broadcasting of the right-hand side to a slice of [n] elements. *)
Definition broadcast {B} (vals : list B) (n : nat) : result (list B) :=
  match vals with
  | [v] => Ok (repeat v n)
  | _ => if (length vals =? n)%nat then Ok vals
         else Raise (ValueError "could not broadcast input array")
  end.

(** [a[lo:hi] = vals], each element written through [store]
    (the cast, or the choice of a column of a 2-d array). *)
Definition set_slice {A B} (store : A -> B -> A)
           (a : list A) (lo hi : nat) (vals : list B) : result (list A) :=
  let l := clip_lo a lo in
  let n := slice_len a lo hi in
  vs <- broadcast vals n ;;
  Ok (firstn l a
      ++ map (fun p => store (fst p) (snd p)) (combine (firstn n (skipn l a)) vs)
      ++ skipn (l + n) a).

(** [a[lo:hi] = v] for a scalar [v]. *)
Definition fill_slice {A B} (store : A -> B -> A)
           (a : list A) (lo hi : nat) (v : B) : list A :=
  let l := clip_lo a lo in
  let n := slice_len a lo hi in
  firstn l a ++ map (fun x => store x v) (firstn n (skipn l a)) ++ skipn (l + n) a.

(** [a[i] = v] for a Python integer [v] and an int32 array [a]. *)
Fixpoint set_nth (a : list Z) (i : nat) (v : Z) : result (list Z) :=
  match a, i with
  | [], _ => Raise (IndexError "index is out of bounds")
  | _ :: a', O => Ok (v :: a')
  | x :: a', S i' => a'' <- set_nth a' i' v ;; Ok (x :: a'')
  end.

Definition set_item (a : list Z) (i : nat) (v : Z) : result (list Z) :=
  if int32_fits v then set_nth a i v
  else Raise (OverflowError "Python integer out of bounds for int32").

(** [a.min()], [a.max()] *)
Definition amin (a : list Q) : result Q :=
  match a with
  | [] => Raise (ValueError
      "zero-size array to reduction operation minimum which has no identity")
  | x :: a' => Ok (fold_left Qmin a' x)
  end.

Definition amax (a : list Q) : result Q :=
  match a with
  | [] => Raise (ValueError
      "zero-size array to reduction operation maximum which has no identity")
  | x :: a' => Ok (fold_left Qmax a' x)
  end.

(** [a.flatten("C")] of an (n, 2) array. *)
Definition flatten_C (a : list (Q * Q)) : list Q :=
  flat_map (fun p => [fst p; snd p]) a.

(** [np.random.choice(a, size=size, replace=False)]: the first [size]
    entries of a random permutation of the indices of [a]. *)
Definition random_choice (permutation : nat -> list nat)
           (a : list string) (size : Z) : result (list string) :=
  if (length a =? 0)%nat && negb (size =? 0)%Z then
    Raise (ValueError "'a' cannot be empty unless no samples are taken")
  else if (Z.of_nat (length a) <? size)%Z then
    Raise (ValueError
      "Cannot take a larger sample than population when 'replace=False'")
  else if (size <? 0)%Z then
    Raise (ValueError "negative dimensions are not allowed")
  else
    Ok (map (fun i => nth i a "")
            (firstn (Z.to_nat size) (permutation (length a)))).

End np.

(** ** pandas

    Frames whose [vehicle_id] column holds a string in every row. *)

Module pd.

Record Row : Type := mkRow {
  vehicle_id : string;
  timestep_time : Q;
  vehicle_x : Q;
  vehicle_y : Q;
  vehicle_speed : Q;
  vehicle_edge : string;
  vehicle_pos : Q;
  vehicle_speedRelative : Q;
  vehicle_angle : Q
}.

Record DataFrame : Type := mkDataFrame {
  columns : list string;
  rows : list Row
}.

(** [len(df)] *)
Definition len (df : DataFrame) : nat := length (rows df).

(** ['name' in df.columns] *)
Definition has_column (name : string) (df : DataFrame) : bool :=
  existsb (String.eqb name) (columns df).

(** [df.loc[mask]] and [df[mask]] for a boolean mask computed row by row. *)
Definition loc (mask : Row -> bool) (df : DataFrame) : DataFrame :=
  mkDataFrame (columns df) (filter mask (rows df)).

(** Order of the sort key [(vehicle_id, timestep_time)]. *)
Definition key_leb (r1 r2 : Row) : bool :=
  match String_as_OT.compare (vehicle_id r1) (vehicle_id r2) with
  | Lt => true
  | Eq => Qle_bool (timestep_time r1) (timestep_time r2)
  | Gt => false
  end.

(** [df.sort_values(['vehicle_id', 'timestep_time'])]: for several keys
    pandas sorts with a stable lexicographic sort. *)
Fixpoint insert_row (r : Row) (l : list Row) : list Row :=
  match l with
  | [] => [r]
  | x :: l' => if key_leb r x then r :: l else x :: insert_row r l'
  end.

Definition stable_sort (l : list Row) : list Row :=
  fold_right insert_row [] l.

Definition sort_values (df : DataFrame) : DataFrame :=
  mkDataFrame (columns df) (stable_sort (rows df)).

(** [series.unique()]: distinct values in order of first appearance. *)
Fixpoint unique (l : list string) : list string :=
  match l with
  | [] => []
  | x :: l' => x :: filter (fun y => negb (String.eqb x y)) (unique l')
  end.

(** [series.nunique()] *)
Definition nunique (l : list string) : nat := length (unique l).

(** [df['vehicle_id'].isin(values)] *)
Definition isin (values : list string) (r : Row) : bool :=
  existsb (String.eqb (vehicle_id r)) values.

(** [df.groupby('vehicle_id')]: the group keys in sorted order, each with
    the rows of that key in the order of [df]. *)
Fixpoint insert_key (k : string) (l : list string) : list string :=
  match l with
  | [] => [k]
  | x :: l' =>
      match String_as_OT.compare k x with
      | Lt => k :: l
      | Eq => l
      | Gt => x :: insert_key k l'
      end
  end.

Definition group_keys (df : DataFrame) : list string :=
  fold_right insert_key [] (map vehicle_id (rows df)).

Definition get_group (df : DataFrame) (k : string) : DataFrame :=
  loc (fun r => String.eqb (vehicle_id r) k) df.

Definition groupby (df : DataFrame) : list (string * DataFrame) :=
  map (fun k => (k, get_group df k)) (group_keys df).

End pd.

(** ** pyarrow *)

Module pa.

Inductive DataType : Type :=
| float32
| int32
| utf8
| null
| fixed_size_list (value_type : DataType) (list_size : nat)
| list_ (value_type : DataType).

Inductive Array : Type :=
| FloatArray (values : list Q)
| Int32Array (values : list Z)
| StringArray (values : list string)
| NullArray (n : nat)
| FixedSizeListArray (values : Array) (list_size : nat)
| ListArray (offsets : list Z) (values : Array).

Fixpoint type (a : Array) : DataType :=
  match a with
  | FloatArray _ => float32
  | Int32Array _ => int32
  | StringArray _ => utf8
  | NullArray _ => null
  | FixedSizeListArray v n => fixed_size_list (type v) n
  | ListArray _ v => list_ (type v)
  end.

(** [len(a)] *)
Fixpoint len (a : Array) : nat :=
  match a with
  | FloatArray v => length v
  | Int32Array v => length v
  | StringArray v => length v
  | NullArray n => n
  | FixedSizeListArray v n => Nat.div (len v) n
  | ListArray o _ => length o - 1
  end.

(** [pa.array(a)] for a NumPy array of dtype float32 or int32 (also the
    conversion applied to a NumPy array passed where an Arrow array is
    expected). *)
Definition array_float32 (a : list Q) : Array := FloatArray a.
Definition array_int32 (a : list Z) : Array := Int32Array a.

(** [pa.array(l)] for a Python list of [str]: the type is inferred from
    the elements, and an empty list has the null type. *)
Definition array_of_strs (l : list string) : Array :=
  match l with
  | [] => NullArray 0
  | _ => StringArray l
  end.

(** [pa.FixedSizeListArray.from_arrays(values, list_size)] *)
Definition FixedSizeListArray_from_arrays (values : Array) (list_size : nat)
  : result Array :=
  if (Nat.modulo (len values) list_size =? 0)%nat
  then Ok (FixedSizeListArray values list_size)
  else Raise (ArrowInvalid
    "The length of the values Array needs to be a multiple of the list size").

(** [pa.ListArray.from_arrays(offsets, values)] *)
Definition ListArray_from_arrays (offsets values : Array) : result Array :=
  match offsets with
  | Int32Array [] =>
      Raise (ArrowInvalid "List offsets must have non-zero length")
  | Int32Array o => Ok (ListArray o values)
  | _ => Raise (TypeError "List offsets must be int32")
  end.

(** The [i]-th list of a list array over the flat values [values]:
    [values[offsets[i] : offsets[i+1]]]. *)
Definition list_value {A} (offsets : list Z) (values : list A) (i : nat)
  : list A :=
  let lo := Z.to_nat (nth i offsets 0%Z) in
  let hi := Z.to_nat (nth (S i) offsets 0%Z) in
  firstn (hi - lo) (skipn lo values).

Definition Table : Type := list (string * Array).

(** [pa.table({name: array, ...})]: the columns in the order of the
    dictionary; all columns must have the same length. *)
Definition table (cols : list (string * Array)) : result Table :=
  match cols with
  | [] => Ok []
  | (_, a) :: rest =>
      if forallb (fun c => (len (snd c) =? len a)%nat) rest then Ok cols
      else Raise (ArrowInvalid "Column length mismatch")
  end.

Definition column_names (t : Table) : list string := map fst t.
Definition schema (t : Table) : list (string * DataType) :=
  map (fun c => (fst c, type (snd c))) t.

End pa.

(** ** The script *)

Import pd.

(** Python's [x < y] on floats. *)
Definition Qlt_bool (x y : Q) : bool :=
  (Qnum x * QDen y <? Qnum y * QDen x)%Z.

(** The value configured in the source; [None] disables sampling. *)
Definition SAMPLE_VEHICLES_configured : option Z := Some 100%Z.

(** The buffers filled by the main loop, with the loop's running offset. *)
Record Buffers : Type := mkBuffers {
  offsets : list Z;
  coords : list (Q * Q);
  timestamps : list Q;
  speeds : list Q;
  edges : list string;
  positions : list Q;
  relative_speeds : list Q;
  angles : list Q;
  vehicle_ids : list string;
  current_offset : nat
}.

(** What the script reports and the table it serialises. *)
Record Output : Type := mkOutput {
  table : pa.Table;
  geoms_num : nat;
  coord_num : nat;
  min_timestamp : Q;
  max_timestamp : Q
}.

Section Script.

Variable f32 : Q -> Q.
Variable permutation : nat -> list nat.
Variable SAMPLE_VEHICLES : option Z.

(** [(df['timestep_time'] < 7.25*3600) & (df['timestep_time'] > 7*3600)] *)
Definition time_window (r : Row) : bool :=
  Qlt_bool (timestep_time r) (7.25 * 3600)%Q
  && Qlt_bool (7 * 3600)%Q (timestep_time r).

Definition filter_rows (df : DataFrame) : DataFrame := loc time_window df.

(** Optional sampling of whole vehicles. *)
Definition sample (df : DataFrame) : result DataFrame :=
  match SAMPLE_VEHICLES with
  | None => Ok df
  | Some n =>
      let unique_vehicles := unique (map vehicle_id (rows df)) in
      sampled_vehicles <-
        np.random_choice permutation unique_vehicles
          (Z.min n (Z.of_nat (length unique_vehicles))) ;;
      Ok (loc (isin sampled_vehicles) df)
  end.

(** Stores into the float32 arrays: a 1-d array, and the two columns of
    the (n, 2) array [coords]. *)
Definition store (_ v : Q) : Q := f32 v.
Definition store_x (p : Q * Q) (v : Q) : Q * Q := (f32 v, snd p).
Definition store_y (p : Q * Q) (v : Q) : Q * Q := (fst p, f32 v).

(** A float column of the group when the frame has it, else the default. *)
Definition store_column (name : string) (get : Row -> Q) (default : Q)
           (group : DataFrame) (a : list Q) (lo hi : nat) : result (list Q) :=
  if has_column name group
  then np.set_slice store a lo hi (map get (rows group))
  else Ok (np.fill_slice store a lo hi default).

(** One iteration of [for i, (vehicle_id, group) in enumerate(grouped)]. *)
Definition body (i : nat) (vid : string) (group : DataFrame) (b : Buffers)
  : result Buffers :=
  let num_positions := len group in
  let lo := current_offset b in
  let hi := lo + num_positions in
  coords_x <- np.set_slice store_x (coords b) lo hi
                (map vehicle_x (rows group)) ;;
  coords_xy <- np.set_slice store_y coords_x lo hi
                 (map vehicle_y (rows group)) ;;
  timestamps' <- np.set_slice store (timestamps b) lo hi
                   (map timestep_time (rows group)) ;;
  speeds' <- store_column "vehicle_speed" vehicle_speed 0%Q
               group (speeds b) lo hi ;;
  let edges' :=
    if has_column "vehicle_edge" group
    then edges b ++ map vehicle_edge (rows group)
    else edges b ++ repeat "" num_positions in
  positions' <- store_column "vehicle_pos" vehicle_pos 0%Q
                  group (positions b) lo hi ;;
  relative_speeds' <- store_column "vehicle_speedRelative"
                        vehicle_speedRelative 1%Q
                        group (relative_speeds b) lo hi ;;
  angles' <- store_column "vehicle_angle" vehicle_angle 0%Q
               group (angles b) lo hi ;;
  let vehicle_ids' := vehicle_ids b ++ [vid] in
  let current_offset' := lo + num_positions in
  offsets' <- np.set_item (offsets b) (i + 1) (Z.of_nat current_offset') ;;
  Ok (mkBuffers offsets' coords_xy timestamps' speeds' edges' positions'
                relative_speeds' angles' vehicle_ids' current_offset').

Fixpoint loop (i : nat) (grouped : list (string * DataFrame)) (b : Buffers)
  : result Buffers :=
  match grouped with
  | [] => Ok b
  | (vid, group) :: rest => b' <- body i vid group b ;; loop (S i) rest b'
  end.

(** The arrays before the loop. *)
Definition init (geoms_num coord_num : nat) : Buffers :=
  mkBuffers (np.zeros 0%Z (geoms_num + 1))
            (np.zeros (0, 0)%Q coord_num)
            (np.zeros 0%Q coord_num)
            (np.zeros 0%Q coord_num)
            []
            (np.zeros 0%Q coord_num)
            (np.zeros 0%Q coord_num)
            (np.zeros 0%Q coord_num)
            []
            0.

(** Grouping and the flattening loop. *)
Definition flatten (df : DataFrame) : result Buffers :=
  let grouped := groupby df in
  let geoms_num := length grouped in
  let coord_num := len df in
  loop 0 grouped (init geoms_num coord_num).

(** The Arrow arrays and the table. *)
Definition assemble (b : Buffers) : result pa.Table :=
  coords_fixed_size_list <-
    pa.FixedSizeListArray_from_arrays
      (pa.array_float32 (np.flatten_C (coords b))) 2 ;;
  linestrings_arr <-
    pa.ListArray_from_arrays (pa.array_int32 (offsets b))
      coords_fixed_size_list ;;
  timestamp_arr <-
    pa.ListArray_from_arrays (pa.array_int32 (offsets b))
      (pa.array_float32 (timestamps b)) ;;
  speeds_arr <-
    pa.ListArray_from_arrays (pa.array_int32 (offsets b))
      (pa.array_float32 (speeds b)) ;;
  edges_arr <-
    pa.ListArray_from_arrays (pa.array_int32 (offsets b))
      (pa.array_of_strs (edges b)) ;;
  positions_arr <-
    pa.ListArray_from_arrays (pa.array_int32 (offsets b))
      (pa.array_float32 (positions b)) ;;
  relative_speeds_arr <-
    pa.ListArray_from_arrays (pa.array_int32 (offsets b))
      (pa.array_float32 (relative_speeds b)) ;;
  angles_arr <-
    pa.ListArray_from_arrays (pa.array_int32 (offsets b))
      (pa.array_float32 (angles b)) ;;
  pa.table [ ("geometry", linestrings_arr);
             ("timestamps", timestamp_arr);
             ("speeds", speeds_arr);
             ("edges", edges_arr);
             ("positions", positions_arr);
             ("relative_speeds", relative_speeds_arr);
             ("angles", angles_arr);
             ("vehicle_id", pa.array_of_strs (vehicle_ids b)) ].

(** The rows the loop works on: filtered, sorted and sampled. *)
Definition retained (df : DataFrame) : result DataFrame :=
  sample (sort_values (filter_rows df)).

(** The whole script, from the frame read from the parquet file to the
    table handed to the feather writer. *)
Definition main (df : DataFrame) : result Output :=
  df' <- retained df ;;
  b <- flatten df' ;;
  min_timestamp <- np.amin (timestamps b) ;;
  max_timestamp <- np.amax (timestamps b) ;;
  t <- assemble b ;;
  Ok (mkOutput t (length (groupby df')) (len df') min_timestamp max_timestamp).

(** *** Vocabulary of the properties *)

(** What a retained row contributes to each output column. *)
Definition coord_cell (r : Row) : Q * Q := (f32 (vehicle_x r), f32 (vehicle_y r)).
Definition time_cell (r : Row) : Q := f32 (timestep_time r).
Definition cell (name : string) (get : Row -> Q) (default : Q)
           (df : DataFrame) (r : Row) : Q :=
  f32 (if has_column name df then get r else default).
Definition edge_cell (df : DataFrame) (r : Row) : string :=
  if has_column "vehicle_edge" df then vehicle_edge r else "".

(** The loop seen on the filled prefix of every array: [step] is the
    effect of one iteration on that prefix. *)
Definition step (d : Buffers) (kg : string * DataFrame) : Buffers :=
  let g := snd kg in
  mkBuffers
    (offsets d ++ [Z.of_nat (current_offset d + len g)])
    (coords d ++ map coord_cell (rows g))
    (timestamps d ++ map time_cell (rows g))
    (speeds d ++ map (cell "vehicle_speed" vehicle_speed 0%Q g) (rows g))
    (edges d ++ map (edge_cell g) (rows g))
    (positions d ++ map (cell "vehicle_pos" vehicle_pos 0%Q g) (rows g))
    (relative_speeds d
       ++ map (cell "vehicle_speedRelative" vehicle_speedRelative 1%Q g) (rows g))
    (angles d ++ map (cell "vehicle_angle" vehicle_angle 0%Q g) (rows g))
    (vehicle_ids d ++ [fst kg])
    (current_offset d + len g).

(** The arrays of the script when [d] is the filled prefix, [k] offsets
    and [m] positions are still zero. *)
Definition pad (d : Buffers) (k m : nat) : Buffers :=
  mkBuffers
    (offsets d ++ repeat 0%Z k)
    (coords d ++ repeat (0, 0)%Q m)
    (timestamps d ++ repeat 0%Q m)
    (speeds d ++ repeat 0%Q m)
    (edges d)
    (positions d ++ repeat 0%Q m)
    (relative_speeds d ++ repeat 0%Q m)
    (angles d ++ repeat 0%Q m)
    (vehicle_ids d)
    (current_offset d).

Definition start : Buffers := mkBuffers [0%Z] [] [] [] [] [] [] [] [] 0.

(** Every float buffer is filled up to the running offset. *)
Definition filled (d : Buffers) : Prop :=
  length (coords d) = current_offset d
  /\ length (timestamps d) = current_offset d
  /\ length (speeds d) = current_offset d
  /\ length (positions d) = current_offset d
  /\ length (relative_speeds d) = current_offset d
  /\ length (angles d) = current_offset d.

End Script.

(** Number of rows in a list of groups. *)
Definition total_len (grouped : list (string * DataFrame)) : nat :=
  list_sum (map (fun kg => len (snd kg)) grouped).

(** The rows of a list of groups, group after group. *)
Definition group_rows (grouped : list (string * DataFrame)) : list Row :=
  flat_map (fun kg => rows (snd kg)) grouped.

(** The values of [current_offset] the loop stores, from [cur] on. *)
Fixpoint boundaries (cur : nat) (grouped : list (string * DataFrame))
  : list nat :=
  match grouped with
  | [] => []
  | kg :: rest => (cur + len (snd kg)) :: boundaries (cur + len (snd kg)) rest
  end.

(** A column of cells over the rows of a list of groups, each cell computed
    with the columns of its own group. *)
Definition group_cells {B} (c : DataFrame -> Row -> B)
           (grouped : list (string * DataFrame)) : list B :=
  flat_map (fun kg => map (c (snd kg)) (rows (snd kg))) grouped.

(** The [i]-th trip of an output column, and the rows it comes from. *)
Definition trip {A} (b : Buffers) (column : Buffers -> list A) (i : nat)
  : list A :=
  pa.list_value (offsets b) (column b) i.

Definition trip_rows (df : DataFrame) (vid : string) : list Row :=
  filter (fun r => String.eqb (vehicle_id r) vid) (rows df).

(** The buffers after the loop, as the iteration of [step]. *)
Definition flattened (f32 : Q -> Q) (df : DataFrame) : Buffers :=
  fold_left (step f32) (groupby df) start.

(** The row count of the frame can be stored in the offsets array. *)
Definition fits_int32 (df : DataFrame) : Prop :=
  (Z.of_nat (len df) <= np.INT32_MAX)%Z.

(** The order of the sort key as a relation. *)
Definition key_le (r1 r2 : Row) : Prop := key_leb r1 r2 = true.

(** Two rows carry the same sort key. *)
Definition same_key (r1 r2 : Row) : bool :=
  String.eqb (vehicle_id r1) (vehicle_id r2)
  && Qeq_bool (timestep_time r1) (timestep_time r2).

(** The table [assemble] builds, when it builds one. *)
Definition columns_of (b : Buffers) : pa.Table :=
  [ ("geometry",
     pa.ListArray (offsets b)
       (pa.FixedSizeListArray (pa.FloatArray (np.flatten_C (coords b))) 2));
    ("timestamps", pa.ListArray (offsets b) (pa.FloatArray (timestamps b)));
    ("speeds", pa.ListArray (offsets b) (pa.FloatArray (speeds b)));
    ("edges", pa.ListArray (offsets b) (pa.array_of_strs (edges b)));
    ("positions", pa.ListArray (offsets b) (pa.FloatArray (positions b)));
    ("relative_speeds",
     pa.ListArray (offsets b) (pa.FloatArray (relative_speeds b)));
    ("angles", pa.ListArray (offsets b) (pa.FloatArray (angles b)));
    ("vehicle_id", pa.array_of_strs (vehicle_ids b)) ].

(** The schema the trips layer reads. *)
Definition trips_schema : list (string * pa.DataType) :=
  [ ("geometry", pa.list_ (pa.fixed_size_list pa.float32 2));
    ("timestamps", pa.list_ pa.float32);
    ("speeds", pa.list_ pa.float32);
    ("edges", pa.list_ pa.utf8);
    ("positions", pa.list_ pa.float32);
    ("relative_speeds", pa.list_ pa.float32);
    ("angles", pa.list_ pa.float32);
    ("vehicle_id", pa.utf8) ].



(** The identifiers a permutation [p] of the indices of [a] draws: those at
    its first [n] entries. *)
Definition drawn (a : list string) (n : nat) (p : list nat) : list string :=
  map (fun i => nth i a "") (firstn n p).



(** ** A small data set

    Three vehicles with 2, 3 and 1 samples inside the time window and two
    samples on or outside its bounds; the frame has no [vehicle_speed] and
    no [vehicle_speedRelative] column. *)

Definition fcd_row (vid : string) (t x y : Q) (edge : string) : Row :=
  mkRow vid t x y 0%Q edge (25 # 2)%Q 0%Q 90%Q.

Definition fcd_small : DataFrame :=
  mkDataFrame
    ["timestep_time"; "vehicle_id"; "vehicle_x"; "vehicle_y";
     "vehicle_angle"; "vehicle_edge"; "vehicle_pos"]
    [ fcd_row "veh1" 25200%Q 1%Q 1%Q "e0";
      fcd_row "veh1" 25201%Q 2%Q 1%Q "e0";
      fcd_row "veh0" 25201%Q 5%Q 5%Q "e1";
      fcd_row "veh2" 25201%Q 7%Q 7%Q "e2";
      fcd_row "veh0" (50405 # 2)%Q 5%Q 6%Q "e1";
      fcd_row "veh1" 25202%Q 3%Q 1%Q "e0";
      fcd_row "veh1" 25203%Q 4%Q 1%Q "e3";
      fcd_row "veh2" 26100%Q 8%Q 7%Q "e2" ].

(** A frame whose samples all lie on or outside the bounds of the window. *)
Definition fcd_outside : DataFrame :=
  mkDataFrame (columns fcd_small)
    [ fcd_row "veh0" 25200%Q 1%Q 1%Q "e0";
      fcd_row "veh1" 26100%Q 2%Q 1%Q "e0";
      fcd_row "veh1" 30000%Q 3%Q 1%Q "e1" ].

(** A cast that leaves every value unchanged (all values of [fcd_small]
    are float32 numbers), and a draw that reverses the indices. *)
Definition f32_exact (q : Q) : Q := q.
Definition reversed_draw (n : nat) : list nat := rev (seq 0 n).

(** ** Frames with raw identifiers

    The [vehicle_id] column as [read_parquet] returns it from a file of any
    producer: a cell may be missing, and an identifier is an integer or a
    string.  [pd] above is the case of a column of strings with no missing
    cell; here the script is embedded again on the raw column, the loop
    body being the one above, applied to [str(vehicle_id)] and to the
    columns of the group.

    A parquet column has one type: a frame read from a file holds integers
    only (and then no missing cell, which would make the column float64) or
    strings and missing cells only, so the order between an integer and a
    string is never consulted on such a frame. *)

Module raw.

(** A value of the [vehicle_id] column that is not missing. *)
Inductive Id : Type :=
| Int (z : Z)
| Str (s : string).

(** Order of the raw values, as pandas sorts them: integers numerically,
    strings as Python compares [str]. *)
Definition compare (a b : Id) : comparison :=
  match a, b with
  | Int x, Int y => Z.compare x y
  | Str x, Str y => String_as_OT.compare x y
  | Int _, Str _ => Lt
  | Str _, Int _ => Gt
  end.

Definition eqb (a b : Id) : bool :=
  match a, b with
  | Int x, Int y => Z.eqb x y
  | Str x, Str y => String.eqb x y
  | _, _ => false
  end.

(** Equality of cells; two missing cells are equal for [unique] and
    [isin]. *)
Definition cell_eqb (a b : option Id) : bool :=
  match a, b with
  | Some x, Some y => eqb x y
  | None, None => true
  | _, _ => false
  end.

(** [str(vehicle_id)] *)
Definition str (k : Id) : string :=
  match k with
  | Int z => NilZero.string_of_int (Z.to_int z)
  | Str s => s
  end.

Record Row : Type := mkRow {
  vehicle_id : option Id;
  timestep_time : Q;
  vehicle_x : Q;
  vehicle_y : Q;
  vehicle_speed : Q;
  vehicle_edge : string;
  vehicle_pos : Q;
  vehicle_speedRelative : Q;
  vehicle_angle : Q
}.

Record DataFrame : Type := mkDataFrame {
  columns : list string;
  rows : list Row
}.

(** [len(df)] *)
Definition len (df : DataFrame) : nat := length (rows df).

(** [df.loc[mask]] *)
Definition loc (mask : Row -> bool) (df : DataFrame) : DataFrame :=
  mkDataFrame (columns df) (filter mask (rows df)).

(** Order of the sort key [(vehicle_id, timestep_time)]; rows with a
    missing identifier are placed last ([na_position='last']), ordered by
    time among themselves. *)
Definition key_leb (r1 r2 : Row) : bool :=
  match vehicle_id r1, vehicle_id r2 with
  | Some a, Some b =>
      match compare a b with
      | Lt => true
      | Eq => Qle_bool (timestep_time r1) (timestep_time r2)
      | Gt => false
      end
  | Some _, None => true
  | None, Some _ => false
  | None, None => Qle_bool (timestep_time r1) (timestep_time r2)
  end.

(** [df.sort_values(['vehicle_id', 'timestep_time'])] *)
Fixpoint insert_row (r : Row) (l : list Row) : list Row :=
  match l with
  | [] => [r]
  | x :: l' => if key_leb r x then r :: l else x :: insert_row r l'
  end.

Definition stable_sort (l : list Row) : list Row :=
  fold_right insert_row [] l.

Definition sort_values (df : DataFrame) : DataFrame :=
  mkDataFrame (columns df) (stable_sort (rows df)).

(** [series.unique()]: distinct values in order of first appearance; a
    missing value is one of them. *)
Fixpoint unique (l : list (option Id)) : list (option Id) :=
  match l with
  | [] => []
  | x :: l' => x :: filter (fun y => negb (cell_eqb x y)) (unique l')
  end.

(** [series.dropna()] on the identifiers. *)
Definition dropna (l : list (option Id)) : list Id :=
  flat_map (fun c => match c with Some k => [k] | None => [] end) l.

(** [series.nunique()]: missing values are not counted. *)
Definition nunique (l : list (option Id)) : nat :=
  length (dropna (unique l)).

(** [df['vehicle_id'].isin(values)] *)
Definition isin (values : list (option Id)) (r : Row) : bool :=
  existsb (cell_eqb (vehicle_id r)) values.

(** [np.random.choice(a, size=size, replace=False)] on an array of
    identifiers. *)
Definition random_choice (permutation : nat -> list nat)
           (a : list (option Id)) (size : Z) : result (list (option Id)) :=
  if (length a =? 0)%nat && negb (size =? 0)%Z then
    Raise (ValueError "'a' cannot be empty unless no samples are taken")
  else if (Z.of_nat (length a) <? size)%Z then
    Raise (ValueError
      "Cannot take a larger sample than population when 'replace=False'")
  else if (size <? 0)%Z then
    Raise (ValueError "negative dimensions are not allowed")
  else
    Ok (map (fun i => nth i a None)
            (firstn (Z.to_nat size) (permutation (length a)))).

(** [df.groupby('vehicle_id')]: the keys in sorted order, each with the
    rows of that key in the order of [df]; rows whose key is missing belong
    to no group ([dropna=True]). *)
Fixpoint insert_key (k : Id) (l : list Id) : list Id :=
  match l with
  | [] => [k]
  | x :: l' =>
      match compare k x with
      | Lt => k :: l
      | Eq => l
      | Gt => x :: insert_key k l'
      end
  end.

Definition group_keys (df : DataFrame) : list Id :=
  fold_right insert_key [] (dropna (map vehicle_id (rows df))).

Definition get_group (df : DataFrame) (k : Id) : DataFrame :=
  loc (fun r => cell_eqb (vehicle_id r) (Some k)) df.

Definition groupby (df : DataFrame) : list (Id * DataFrame) :=
  map (fun k => (k, get_group df k)) (group_keys df).

(** The cells of a row the loop body reads: all columns but [vehicle_id],
    which the body takes from the group key, converted by [str]. *)
Definition values (r : Row) : pd.Row :=
  pd.mkRow (match vehicle_id r with Some k => str k | None => "None" end)
           (timestep_time r) (vehicle_x r) (vehicle_y r) (vehicle_speed r)
           (vehicle_edge r) (vehicle_pos r) (vehicle_speedRelative r)
           (vehicle_angle r).

Definition frame (df : DataFrame) : pd.DataFrame :=
  pd.mkDataFrame (columns df) (map values (rows df)).

Section Script.

Variable f32 : Q -> Q.
Variable permutation : nat -> list nat.
Variable SAMPLE_VEHICLES : option Z.

(** [(df['timestep_time'] < 7.25*3600) & (df['timestep_time'] > 7*3600)] *)
Definition time_window (r : Row) : bool :=
  Qlt_bool (timestep_time r) (7.25 * 3600)%Q
  && Qlt_bool (7 * 3600)%Q (timestep_time r).

Definition filter_rows (df : DataFrame) : DataFrame := loc time_window df.

(** Optional sampling of whole vehicles; a missing identifier is one of
    the values that can be drawn. *)
Definition sample (df : DataFrame) : result DataFrame :=
  match SAMPLE_VEHICLES with
  | None => Ok df
  | Some n =>
      let unique_vehicles := unique (map vehicle_id (rows df)) in
      sampled_vehicles <-
        random_choice permutation unique_vehicles
          (Z.min n (Z.of_nat (length unique_vehicles))) ;;
      Ok (loc (isin sampled_vehicles) df)
  end.

(** One iteration of [for i, (vehicle_id, group) in enumerate(grouped)]:
    [vehicle_ids.append(str(vehicle_id))] and the slice stores of the
    group's columns. *)
Definition body (i : nat) (vehicle_id : Id) (group : DataFrame) (b : Buffers)
  : result Buffers :=
  body f32 i (str vehicle_id) (frame group) b.

Fixpoint loop (i : nat) (grouped : list (Id * DataFrame)) (b : Buffers)
  : result Buffers :=
  match grouped with
  | [] => Ok b
  | (vehicle_id, group) :: rest =>
      b' <- body i vehicle_id group b ;; loop (S i) rest b'
  end.

(** Grouping and the flattening loop: [geoms_num = len(grouped)] counts
    the groups, [coord_num = len(df)] counts every row, also those that
    belong to no group. *)
Definition flatten (df : DataFrame) : result Buffers :=
  let grouped := groupby df in
  let geoms_num := length grouped in
  let coord_num := len df in
  loop 0 grouped (init geoms_num coord_num).

(** The rows the loop works on: filtered, sorted and sampled. *)
Definition retained (df : DataFrame) : result DataFrame :=
  sample (sort_values (filter_rows df)).

(** The whole script. *)
Definition main (df : DataFrame) : result Output :=
  df' <- retained df ;;
  b <- flatten df' ;;
  min_timestamp <- np.amin (timestamps b) ;;
  max_timestamp <- np.amax (timestamps b) ;;
  t <- assemble b ;;
  Ok (mkOutput t (length (groupby df')) (len df') min_timestamp max_timestamp).

End Script.

(** *** Vocabulary of the properties *)

(** A frame of [pd], whose identifiers are strings and never missing, as
    a frame of raw identifiers. *)
Definition of_row (r : pd.Row) : Row :=
  mkRow (Some (Str (pd.vehicle_id r))) (pd.timestep_time r) (pd.vehicle_x r)
        (pd.vehicle_y r) (pd.vehicle_speed r) (pd.vehicle_edge r)
        (pd.vehicle_pos r) (pd.vehicle_speedRelative r) (pd.vehicle_angle r).

Definition of_frame (df : pd.DataFrame) : DataFrame :=
  mkDataFrame (pd.columns df) (map of_row (pd.rows df)).

(** A row carries an identifier. *)
Definition has_id (r : Row) : bool :=
  match vehicle_id r with Some _ => true | None => false end.

(** The rows of a frame that carry an identifier, in frame order, and the
    number of those that carry none. *)
Definition identified (df : DataFrame) : list Row := filter has_id (rows df).
Definition missing (df : DataFrame) : nat :=
  length (filter (fun r => negb (has_id r)) (rows df)).

(** The groups as the loop body reads them. *)
Definition groups (df : DataFrame) : list (string * pd.DataFrame) :=
  map (fun kg => (str (fst kg), frame (snd kg))) (groupby df).

(** The rows of the vehicle [k], in frame order. *)
Definition trip_rows (df : DataFrame) (k : Id) : list Row :=
  filter (fun r => cell_eqb (vehicle_id r) (Some k)) (rows df).

(** The buffers after the loop: the iteration of [step] over the groups,
    followed in every float array by one untouched zero for each row
    without identifier. *)
Definition flattened (f32 : Q -> Q) (df : DataFrame) : Buffers :=
  pad (fold_left (step f32) (groups df) start) 0 (missing df).

(** The number of rows in groups can be stored in the offsets array. *)
Definition fits_int32 (df : DataFrame) : Prop :=
  (Z.of_nat (length (identified df)) <= np.INT32_MAX)%Z.

Definition lt (a b : Id) : Prop := compare a b = Lt.
Definition key_le (r1 r2 : Row) : Prop := key_leb r1 r2 = true.

(** The schema of a table without trips: the two arrays built from empty
    Python lists have Arrow's null type. *)
Definition no_trip_schema : list (string * pa.DataType) :=
  [ ("geometry", pa.list_ (pa.fixed_size_list pa.float32 2));
    ("timestamps", pa.list_ pa.float32);
    ("speeds", pa.list_ pa.float32);
    ("edges", pa.list_ pa.null);
    ("positions", pa.list_ pa.float32);
    ("relative_speeds", pa.list_ pa.float32);
    ("angles", pa.list_ pa.float32);
    ("vehicle_id", pa.null) ].

End raw.

(** ** Small data sets with raw identifiers *)

Definition raw_row (vid : option raw.Id) (t x y : Q) (edge : string)
  : raw.Row :=
  raw.mkRow vid t x y 0%Q edge (25 # 2)%Q 0%Q 90%Q.

(** One vehicle with two samples in the window, and between them a sample
    whose identifier is missing. *)
Definition fcd_missing_id : raw.DataFrame :=
  raw.mkDataFrame (columns fcd_small)
    [ raw_row (Some (raw.Str "veh0")) 25201%Q 1%Q 1%Q "e0";
      raw_row None (50403 # 2)%Q 2%Q 2%Q "e0";
      raw_row (Some (raw.Str "veh0")) 25202%Q 3%Q 3%Q "e1" ].

(** Two samples in the window, both without identifier. *)
Definition fcd_no_id : raw.DataFrame :=
  raw.mkDataFrame (columns fcd_small)
    [ raw_row None 25201%Q 1%Q 1%Q "e0";
      raw_row None 25202%Q 2%Q 2%Q "e0" ].

(** Two vehicles with the integer identifiers 10 and 2. *)
Definition fcd_int_ids : raw.DataFrame :=
  raw.mkDataFrame (columns fcd_small)
    [ raw_row (Some (raw.Int 10)) 25201%Q 1%Q 1%Q "e0";
      raw_row (Some (raw.Int 2)) 25201%Q 5%Q 5%Q "e1";
      raw_row (Some (raw.Int 10)) 25202%Q 2%Q 1%Q "e0" ].

(** * Properties *)

(** ** Orders on identifiers, times and sort keys *)

Lemma Qlt_bool_iff (x y : Q) : Qlt_bool x y = true <-> (x < y)%Q.
Proof. unfold Qlt_bool, Qlt. apply Z.ltb_lt. Qed.

Lemma str_compare_refl (s : string) : String_as_OT.compare s s = Eq.
Proof.
  destruct (String_as_OT.compare_spec s s) as [_ | H | H]; trivial;
    exfalso; exact (irreflexivity H).
Qed.

Lemma str_compare_eq (a b : string) : String_as_OT.compare a b = Eq -> a = b.
Proof.
  destruct (String_as_OT.compare_spec a b) as [H | _ | _];
    [ intros _; exact H | discriminate | discriminate ].
Qed.

Lemma str_compare_lt (a b : string) :
  String_as_OT.compare a b = Lt <-> String_as_OT.lt a b.
Proof. reflexivity. Qed.

Lemma str_compare_gt (a b : string) :
  String_as_OT.compare a b = Gt <-> String_as_OT.lt b a.
Proof.
  split.
  - destruct (String_as_OT.compare_spec a b) as [_ | _ | H];
      [ discriminate | discriminate | intros _; exact H ].
  - intros Hlt.
    destruct (String_as_OT.compare_spec a b) as [H | H | _]; trivial; exfalso.
    + unfold String_as_OT.eq in H. subst b. exact (irreflexivity Hlt).
    + exact (irreflexivity (transitivity H Hlt)).
Qed.

Lemma str_eqb_compare (a b : string) :
  String.eqb a b = true <-> String_as_OT.compare a b = Eq.
Proof.
  rewrite String.eqb_eq. split.
  - intros ->. apply str_compare_refl.
  - apply str_compare_eq.
Qed.

Lemma key_le_refl (r : Row) : key_le r r.
Proof.
  unfold key_le, key_leb. rewrite str_compare_refl.
  apply Qle_bool_iff, Qle_refl.
Qed.

Lemma key_le_trans (a b c : Row) : key_le a b -> key_le b c -> key_le a c.
Proof.
  unfold key_le, key_leb.
  destruct (String_as_OT.compare (vehicle_id a) (vehicle_id b)) eqn:Hab;
    try discriminate;
    destruct (String_as_OT.compare (vehicle_id b) (vehicle_id c)) eqn:Hbc;
    try discriminate; intros H1 H2.
  - apply str_compare_eq in Hab, Hbc. rewrite Hab, Hbc, str_compare_refl.
    apply Qle_bool_iff. apply Qle_bool_iff in H1, H2.
    exact (Qle_trans _ _ _ H1 H2).
  - apply str_compare_eq in Hab. rewrite Hab, Hbc. reflexivity.
  - apply str_compare_eq in Hbc. rewrite <- Hbc, Hab. reflexivity.
  - assert (H : String_as_OT.lt (vehicle_id a) (vehicle_id c))
      by exact (transitivity Hab Hbc).
    apply str_compare_lt in H. rewrite H. reflexivity.
Qed.

Lemma key_leb_total (a b : Row) : key_leb a b = false -> key_le b a.
Proof.
  unfold key_le, key_leb.
  destruct (String_as_OT.compare (vehicle_id a) (vehicle_id b)) eqn:Hab;
    try discriminate; intros H.
  - apply str_compare_eq in Hab. rewrite Hab, str_compare_refl.
    apply Qle_bool_iff.
    destruct (Qlt_le_dec (timestep_time a) (timestep_time b)) as [Hlt | Hle];
      trivial.
    apply Qlt_le_weak in Hlt. apply Qle_bool_iff in Hlt. congruence.
  - apply str_compare_gt in Hab. apply str_compare_lt in Hab.
    rewrite Hab. reflexivity.
Qed.

Lemma same_key_le (a b : Row) : same_key a b = true -> key_le a b.
Proof.
  unfold same_key, key_le, key_leb. intros H.
  apply andb_true_iff in H. destruct H as [Hid Ht].
  apply str_eqb_compare in Hid. rewrite Hid.
  apply Qle_bool_iff. apply Qeq_bool_iff in Ht. rewrite Ht. apply Qle_refl.
Qed.

Lemma key_le_same_vehicle (a b : Row) :
  vehicle_id a = vehicle_id b -> key_le a b ->
  (timestep_time a <= timestep_time b)%Q.
Proof.
  unfold key_le, key_leb. intros ->. rewrite str_compare_refl.
  apply Qle_bool_iff.
Qed.

(** ** The stable sort *)

Lemma insert_row_perm (r : Row) (l : list Row) :
  Permutation (r :: l) (insert_row r l).
Proof.
  induction l as [| x l IH]; simpl; [ reflexivity |].
  destruct (key_leb r x); [ reflexivity |].
  rewrite perm_swap. now constructor.
Qed.

Lemma stable_sort_perm (l : list Row) : Permutation l (stable_sort l).
Proof.
  induction l as [| x l IH]; simpl; [ constructor |].
  rewrite <- insert_row_perm. now constructor.
Qed.

Lemma insert_row_sorted (r : Row) (l : list Row) :
  StronglySorted key_le l -> StronglySorted key_le (insert_row r l).
Proof.
  induction 1 as [| x l Hs IH Hx]; simpl.
  - repeat constructor.
  - destruct (key_leb r x) eqn:E.
    + constructor; [ now constructor |].
      constructor; [ exact E |].
      eapply Forall_impl; [| exact Hx ].
      intros y Hy. exact (key_le_trans _ _ _ E Hy).
    + constructor; [ exact IH |].
      apply (Permutation_Forall (insert_row_perm r l)).
      constructor; [ now apply key_leb_total | exact Hx ].
Qed.

Lemma stable_sort_sorted (l : list Row) : StronglySorted key_le (stable_sort l).
Proof.
  induction l as [| x l IH]; simpl; [ constructor |].
  now apply insert_row_sorted.
Qed.

(** Rows selected by a predicate under which any two rows are ordered both
    ways keep their relative order through the sort. *)
Lemma insert_row_filter (p : Row -> bool) (r : Row) (l : list Row) :
  (forall x y, p x = true -> p y = true -> key_le x y) ->
  filter p (insert_row r l) = filter p (r :: l).
Proof.
  intros Hp. induction l as [| x l IH]; [ reflexivity |].
  simpl insert_row. destruct (key_leb r x) eqn:E; [ reflexivity |].
  simpl. simpl in IH. rewrite IH.
  destruct (p r) eqn:Hr, (p x) eqn:Hx; trivial.
  specialize (Hp r x Hr Hx). unfold key_le in Hp. congruence.
Qed.

Lemma stable_sort_filter (p : Row -> bool) (l : list Row) :
  (forall x y, p x = true -> p y = true -> key_le x y) ->
  filter p (stable_sort l) = filter p l.
Proof.
  intros Hp. induction l as [| x l IH]; [ reflexivity |].
  simpl stable_sort. rewrite insert_row_filter by exact Hp.
  simpl. now rewrite IH.
Qed.

Lemma same_key_class (r x y : Row) :
  same_key r x = true -> same_key r y = true -> key_le x y.
Proof.
  unfold same_key. intros Hx Hy.
  apply andb_true_iff in Hx, Hy. destruct Hx as [Hx1 Hx2], Hy as [Hy1 Hy2].
  apply same_key_le. unfold same_key.
  apply String.eqb_eq in Hx1, Hy1. apply Qeq_bool_iff in Hx2, Hy2.
  apply andb_true_iff. split.
  - apply String.eqb_eq. congruence.
  - apply Qeq_bool_iff. now rewrite <- Hx2, <- Hy2.
Qed.

Lemma StronglySorted_filter {A} (R : A -> A -> Prop) (p : A -> bool) (l : list A) :
  StronglySorted R l -> StronglySorted R (filter p l).
Proof.
  induction 1 as [| x l Hs IH Hx]; simpl; [ constructor |].
  destruct (p x); trivial.
  constructor; trivial.
  apply Forall_forall. intros y Hy. apply filter_In in Hy.
  rewrite Forall_forall in Hx. now apply Hx.
Qed.

Lemma StronglySorted_map {A B} (R : A -> A -> Prop) (S : B -> B -> Prop)
      (f : A -> B) (l : list A) :
  (forall x y, In x l -> In y l -> R x y -> S (f x) (f y)) ->
  StronglySorted R l -> StronglySorted S (map f l).
Proof.
  intros Hf Hs. induction Hs as [| x l Hs IH Hx]; simpl; [ constructor |].
  constructor.
  - apply IH. intros a b Ha Hb. apply Hf; now right.
  - apply Forall_forall. intros y Hy. apply in_map_iff in Hy.
    destruct Hy as [z [<- Hz]]. rewrite Forall_forall in Hx.
    apply Hf; [ now left | now right | now apply Hx ].
Qed.

(** ** Slice assignment *)

Lemma broadcast_exact {B} (vals : list B) :
  np.broadcast vals (length vals) = Ok vals.
Proof.
  unfold np.broadcast. destruct vals as [| v [| w vals]]; trivial.
  now rewrite Nat.eqb_refl.
Qed.

Lemma slice_bounds {A} (pre mid post : list A) :
  np.clip_lo (pre ++ mid ++ post) (length pre) = length pre
  /\ np.slice_len (pre ++ mid ++ post) (length pre) (length pre + length mid)
     = length mid.
Proof.
  unfold np.slice_len, np.clip_lo. rewrite !length_app. lia.
Qed.

Lemma slice_parts {A} (pre mid post : list A) :
  firstn (length pre) (pre ++ mid ++ post) = pre
  /\ firstn (length mid) (skipn (length pre) (pre ++ mid ++ post)) = mid
  /\ skipn (length pre + length mid) (pre ++ mid ++ post) = post.
Proof.
  repeat split.
  - rewrite firstn_app, Nat.sub_diag, firstn_all. simpl. apply app_nil_r.
  - rewrite skipn_app, Nat.sub_diag, skipn_all. simpl.
    rewrite firstn_app, Nat.sub_diag, firstn_all. simpl. apply app_nil_r.
  - rewrite app_assoc, <- length_app, skipn_app, Nat.sub_diag, skipn_all.
    reflexivity.
Qed.

Lemma set_slice_mid {A B} (store : A -> B -> A)
      (pre mid post : list A) (vals : list B) (n : nat) :
  length mid = n -> length vals = n ->
  np.set_slice store (pre ++ mid ++ post) (length pre) (length pre + n) vals
  = Ok (pre ++ map (fun p => store (fst p) (snd p)) (combine mid vals) ++ post).
Proof.
  intros Hmid Hvals. unfold np.set_slice. subst n.
  destruct (slice_bounds pre mid post) as [-> ->].
  rewrite <- Hvals, broadcast_exact. simpl. rewrite Hvals.
  destruct (slice_parts pre mid post) as [-> [-> ->]]. reflexivity.
Qed.

Lemma fill_slice_mid {A B} (store : A -> B -> A)
      (pre mid post : list A) (v : B) (n : nat) :
  length mid = n ->
  np.fill_slice store (pre ++ mid ++ post) (length pre) (length pre + n) v
  = pre ++ map (fun x => store x v) mid ++ post.
Proof.
  intros Hmid. unfold np.fill_slice. subst n.
  destruct (slice_bounds pre mid post) as [-> ->].
  destruct (slice_parts pre mid post) as [-> [-> ->]]. reflexivity.
Qed.

Lemma set_nth_app (od rest : list Z) (x v : Z) :
  np.set_nth (od ++ x :: rest) (length od) v = Ok (od ++ v :: rest).
Proof.
  induction od as [| y od IH]; simpl; [ reflexivity |].
  now rewrite IH.
Qed.

Lemma int32_fits_nat (n : nat) :
  np.int32_fits (Z.of_nat n) = true <-> (Z.of_nat n <= np.INT32_MAX)%Z.
Proof.
  unfold np.int32_fits, np.INT32_MIN, np.INT32_MAX.
  rewrite andb_true_iff, !Z.leb_le. lia.
Qed.

Lemma set_item_app (od rest : list Z) (x : Z) (n : nat) :
  (Z.of_nat n <= np.INT32_MAX)%Z ->
  np.set_item (od ++ x :: rest) (length od) (Z.of_nat n)
  = Ok (od ++ Z.of_nat n :: rest).
Proof.
  intros H. unfold np.set_item.
  apply int32_fits_nat in H. rewrite H. apply set_nth_app.
Qed.

Lemma set_item_overflow (a : list Z) (i n : nat) :
  (np.INT32_MAX < Z.of_nat n)%Z ->
  np.set_item a i (Z.of_nat n)
  = Raise (OverflowError "Python integer out of bounds for int32").
Proof.
  intros H. unfold np.set_item.
  destruct (np.int32_fits (Z.of_nat n)) eqn:E; trivial.
  apply int32_fits_nat in E. lia.
Qed.

Lemma repeat_split {A} (z : A) (n m : nat) :
  n <= m -> repeat z m = repeat z n ++ repeat z (m - n).
Proof.
  intros H. rewrite <- repeat_app. f_equal. lia.
Qed.

Lemma combine_repeat_map {A B C} (z : A) (f : A -> B -> C) (vals : list B) :
  map (fun p => f (fst p) (snd p)) (combine (repeat z (length vals)) vals)
  = map (f z) vals.
Proof.
  induction vals as [| v vals IH]; simpl; [ reflexivity |].
  now rewrite IH.
Qed.

Lemma combine_map_map {A B C D} (f : A -> B) (g : A -> C) (h : B -> C -> D)
      (l : list A) :
  map (fun p => h (fst p) (snd p)) (combine (map f l) (map g l))
  = map (fun a => h (f a) (g a)) l.
Proof.
  induction l as [| a l IH]; simpl; [ reflexivity |].
  now rewrite IH.
Qed.

Lemma map_const_repeat {A B} (c : B) (l : list A) :
  map (fun _ => c) l = repeat c (length l).
Proof.
  induction l as [| a l IH]; simpl; [ reflexivity |].
  now rewrite IH.
Qed.

(** ** One iteration and the whole loop *)

Lemma total_len_cons (k : string) (g : DataFrame) (gs : list (string * DataFrame)) :
  total_len ((k, g) :: gs) = len g + total_len gs.
Proof. reflexivity. Qed.

Section Loop.

Variable f32 : Q -> Q.

(** A 1-d float store of group values into a padded array. *)
Lemma store_values (done : list Q) (lo m : nat) (g : DataFrame) (get : Row -> Q) :
  length done = lo -> len g <= m ->
  np.set_slice (store f32) (done ++ repeat 0%Q m) lo (lo + len g)
               (map get (rows g))
  = Ok ((done ++ map (fun r => f32 (get r)) (rows g))
          ++ repeat 0%Q (m - len g)).
Proof.
  intros <- Hm. rewrite (repeat_split 0%Q (len g) m Hm).
  rewrite (set_slice_mid (store f32) done (repeat 0%Q (len g)))
    by (apply repeat_length || apply length_map).
  unfold len. rewrite <- (length_map get (rows g)), combine_repeat_map.
  rewrite map_map, length_map, <- app_assoc. reflexivity.
Qed.

Lemma store_column_spec (name : string) (get : Row -> Q) (default : Q)
      (done : list Q) (lo m : nat) (g : DataFrame) :
  length done = lo -> len g <= m ->
  store_column f32 name get default g (done ++ repeat 0%Q m) lo (lo + len g)
  = Ok ((done ++ map (cell f32 name get default g) (rows g))
          ++ repeat 0%Q (m - len g)).
Proof.
  intros Hlo Hm. unfold store_column, cell.
  destruct (has_column name g).
  - now apply store_values.
  - subst lo. rewrite (repeat_split 0%Q (len g) m Hm).
    rewrite (fill_slice_mid (store f32) done (repeat 0%Q (len g)))
      by apply repeat_length.
    unfold store, len.
    rewrite map_const_repeat, repeat_length, map_const_repeat.
    now rewrite <- app_assoc.
Qed.

Lemma store_x_spec (done : list (Q * Q)) (lo m : nat) (g : DataFrame) :
  length done = lo -> len g <= m ->
  np.set_slice (store_x f32) (done ++ repeat (0, 0)%Q m) lo (lo + len g)
               (map vehicle_x (rows g))
  = Ok (done ++ map (fun r => (f32 (vehicle_x r), 0%Q)) (rows g)
             ++ repeat (0, 0)%Q (m - len g)).
Proof.
  intros <- Hm. rewrite (repeat_split (0, 0)%Q (len g) m Hm).
  rewrite (set_slice_mid (store_x f32) done (repeat (0, 0)%Q (len g)))
    by (apply repeat_length || apply length_map).
  unfold len. rewrite <- (length_map vehicle_x (rows g)) at 1.
  rewrite combine_repeat_map, map_map. reflexivity.
Qed.

Lemma store_y_spec (done post : list (Q * Q)) (lo : nat) (g : DataFrame) :
  length done = lo ->
  np.set_slice (store_y f32)
               (done ++ map (fun r => (f32 (vehicle_x r), 0%Q)) (rows g) ++ post)
               lo (lo + len g) (map vehicle_y (rows g))
  = Ok ((done ++ map (coord_cell f32) (rows g)) ++ post).
Proof.
  intros <-. rewrite set_slice_mid by apply length_map.
  rewrite (combine_map_map
             (fun r => (f32 (vehicle_x r), 0%Q)) vehicle_y (store_y f32)).
  rewrite <- app_assoc. reflexivity.
Qed.

Lemma edges_spec (g : DataFrame) (done : list string) :
  (if has_column "vehicle_edge" g
   then done ++ map vehicle_edge (rows g)
   else done ++ repeat "" (len g))
  = done ++ map (edge_cell g) (rows g).
Proof.
  unfold edge_cell, len. destruct (has_column "vehicle_edge" g).
  - reflexivity.
  - now rewrite map_const_repeat.
Qed.

(** The stores of one iteration before the store into [offsets]. *)
Lemma body_pad_offsets (i k m : nat) (vid : string) (g : DataFrame)
      (d : Buffers) :
  filled d -> len g <= m -> length (offsets d) = S i ->
  body f32 i vid g (pad d (S k) m)
  = (offsets' <- np.set_item (offsets d ++ 0%Z :: repeat 0%Z k)
                   (length (offsets d))
                   (Z.of_nat (current_offset d + len g)) ;;
     Ok (mkBuffers offsets'
           (coords (pad (step f32 d (vid, g)) k (m - len g)))
           (timestamps (pad (step f32 d (vid, g)) k (m - len g)))
           (speeds (pad (step f32 d (vid, g)) k (m - len g)))
           (edges (pad (step f32 d (vid, g)) k (m - len g)))
           (positions (pad (step f32 d (vid, g)) k (m - len g)))
           (relative_speeds (pad (step f32 d (vid, g)) k (m - len g)))
           (angles (pad (step f32 d (vid, g)) k (m - len g)))
           (vehicle_ids (pad (step f32 d (vid, g)) k (m - len g)))
           (current_offset (pad (step f32 d (vid, g)) k (m - len g))))).
Proof.
  intros (Hc & Ht & Hs & Hp & Hr & Ha) Hm Ho.
  unfold body, pad, step.
  cbn [offsets coords timestamps speeds edges positions relative_speeds
       angles vehicle_ids current_offset fst snd].
  rewrite (store_x_spec _ _ _ _ Hc Hm). cbn [bind].
  rewrite (store_y_spec _ _ _ _ Hc). cbn [bind].
  rewrite (store_values _ _ _ _ _ Ht Hm). cbn [bind].
  rewrite (store_column_spec _ _ _ _ _ _ _ Hs Hm). cbn [bind].
  rewrite (store_column_spec _ _ _ _ _ _ _ Hp Hm). cbn [bind].
  rewrite (store_column_spec _ _ _ _ _ _ _ Hr Hm). cbn [bind].
  rewrite (store_column_spec _ _ _ _ _ _ _ Ha Hm). cbn [bind].
  rewrite edges_spec.
  rewrite Nat.add_1_r, <- Ho. cbn [repeat]. reflexivity.
Qed.

(** One iteration on padded arrays is [step] on the filled prefix. *)
Lemma body_pad (i k m : nat) (vid : string) (g : DataFrame) (d : Buffers) :
  filled d -> len g <= m -> length (offsets d) = S i ->
  (Z.of_nat (current_offset d + len g) <= np.INT32_MAX)%Z ->
  body f32 i vid g (pad d (S k) m)
  = Ok (pad (step f32 d (vid, g)) k (m - len g)).
Proof.
  intros Hd Hm Ho Hfit. rewrite body_pad_offsets by trivial.
  rewrite set_item_app by trivial. cbn [bind].
  unfold pad, step.
  cbn [offsets coords timestamps speeds edges positions relative_speeds
       angles vehicle_ids current_offset fst snd].
  rewrite <- (app_assoc (offsets d)). reflexivity.
Qed.

(** It raises when the new offset does not fit the offsets array. *)
Lemma body_overflow (i k m : nat) (vid : string) (g : DataFrame) (d : Buffers) :
  filled d -> len g <= m -> length (offsets d) = S i ->
  (np.INT32_MAX < Z.of_nat (current_offset d + len g))%Z ->
  body f32 i vid g (pad d (S k) m)
  = Raise (OverflowError "Python integer out of bounds for int32").
Proof.
  intros Hd Hm Ho Hfit. rewrite body_pad_offsets by trivial.
  now rewrite set_item_overflow.
Qed.

Lemma step_filled (d : Buffers) (kg : string * DataFrame) :
  filled d -> filled (step f32 d kg).
Proof.
  unfold filled, step, len. intros (Hc & Ht & Hs & Hp & Hr & Ha).
  cbn [coords timestamps speeds positions relative_speeds angles
       current_offset].
  rewrite !length_app, !length_map. lia.
Qed.

Lemma step_offsets_length (d : Buffers) (kg : string * DataFrame) :
  length (offsets (step f32 d kg)) = S (length (offsets d)).
Proof. unfold step. cbn [offsets]. rewrite length_app. simpl. lia. Qed.

Lemma step_current_offset (d : Buffers) (k : string) (g : DataFrame) :
  current_offset (step f32 d (k, g)) = current_offset d + len g.
Proof. reflexivity. Qed.

(** The loop on padded arrays is the iteration of [step], as long as the
    final offset fits the offsets array. *)
Lemma loop_pad (gs : list (string * DataFrame)) :
  forall (i m : nat) (d : Buffers),
    filled d -> total_len gs <= m -> length (offsets d) = S i ->
    (Z.of_nat (current_offset d + total_len gs) <= np.INT32_MAX)%Z ->
    loop f32 i gs (pad d (length gs) m)
    = Ok (pad (fold_left (step f32) gs d) 0 (m - total_len gs)).
Proof.
  induction gs as [| [vid g] gs IH]; intros i m d Hd Hm Ho Hfit.
  - simpl. now rewrite Nat.sub_0_r.
  - rewrite total_len_cons in Hm, Hfit. cbn [loop length].
    rewrite body_pad by (trivial; lia). cbn [bind].
    rewrite IH.
    + rewrite total_len_cons. cbn [fold_left].
      now replace (m - len g - total_len gs) with (m - (len g + total_len gs))
        by lia.
    + now apply step_filled.
    + lia.
    + rewrite step_offsets_length. now rewrite Ho.
    + rewrite step_current_offset. now rewrite <- Nat.add_assoc.
Qed.

(** Otherwise the loop raises. *)
Lemma loop_overflow (gs : list (string * DataFrame)) :
  forall (i m : nat) (d : Buffers),
    filled d -> total_len gs <= m -> length (offsets d) = S i ->
    (Z.of_nat (current_offset d) <= np.INT32_MAX)%Z ->
    (np.INT32_MAX < Z.of_nat (current_offset d + total_len gs))%Z ->
    loop f32 i gs (pad d (length gs) m)
    = Raise (OverflowError "Python integer out of bounds for int32").
Proof.
  induction gs as [| [vid g] gs IH]; intros i m d Hd Hm Ho Hcur Hover.
  - unfold total_len in Hover. simpl in Hover. lia.
  - rewrite total_len_cons in Hm, Hover. cbn [loop length].
    destruct (Z_le_gt_dec (Z.of_nat (current_offset d + len g)) np.INT32_MAX)
      as [Hfit | Hbig].
    + rewrite body_pad by (trivial; lia). cbn [bind].
      apply IH.
      * now apply step_filled.
      * lia.
      * rewrite step_offsets_length. now rewrite Ho.
      * now rewrite step_current_offset.
      * rewrite step_current_offset. now rewrite <- Nat.add_assoc.
    + rewrite body_overflow by (trivial; lia). reflexivity.
Qed.

End Loop.

(** ** Group keys and the partition into groups *)

Lemma insert_key_In (k x : string) (l : list string) :
  In x (insert_key k l) <-> x = k \/ In x l.
Proof.
  induction l as [| y l IH]; simpl.
  - intuition.
  - destruct (String_as_OT.compare k y) eqn:E; simpl.
    + apply str_compare_eq in E. subst y. intuition.
    + intuition.
    + rewrite IH. intuition.
Qed.

Lemma insert_key_sorted (k : string) (l : list string) :
  StronglySorted String_as_OT.lt l ->
  StronglySorted String_as_OT.lt (insert_key k l).
Proof.
  induction 1 as [| y l Hs IH Hy]; simpl.
  - repeat constructor.
  - destruct (String_as_OT.compare k y) eqn:E.
    + now constructor.
    + constructor; [ now constructor |].
      constructor; [ exact E |].
      eapply Forall_impl; [| exact Hy ].
      intros z Hz. exact (transitivity (R := String_as_OT.lt) E Hz).
    + constructor; [ exact IH |].
      apply Forall_forall. intros z Hz. apply insert_key_In in Hz.
      destruct Hz as [-> | Hz].
      * now apply str_compare_gt.
      * rewrite Forall_forall in Hy. now apply Hy.
Qed.

Lemma group_keys_sorted (df : DataFrame) :
  StronglySorted String_as_OT.lt (group_keys df).
Proof.
  unfold group_keys. induction (map vehicle_id (rows df)) as [| k l IH]; simpl.
  - constructor.
  - now apply insert_key_sorted.
Qed.

Lemma group_keys_In (df : DataFrame) (k : string) :
  In k (group_keys df) <-> In k (map vehicle_id (rows df)).
Proof.
  unfold group_keys. induction (map vehicle_id (rows df)) as [| x l IH]; simpl.
  - reflexivity.
  - rewrite insert_key_In, IH. intuition.
Qed.

Lemma strictly_sorted_NoDup (l : list string) :
  StronglySorted String_as_OT.lt l -> NoDup l.
Proof.
  induction 1 as [| x l Hs IH Hx]; constructor; trivial.
  intros Hin. rewrite Forall_forall in Hx.
  exact (irreflexivity (Hx x Hin)).
Qed.

Lemma group_keys_NoDup (df : DataFrame) : NoDup (group_keys df).
Proof. apply strictly_sorted_NoDup, group_keys_sorted. Qed.

Lemma list_sum_map_add {A} (f g : A -> nat) (l : list A) :
  list_sum (map (fun a => f a + g a) l) = list_sum (map f l) + list_sum (map g l).
Proof.
  induction l as [| a l IH]; simpl; [ reflexivity |].
  rewrite IH. lia.
Qed.

Lemma indicator_sum (x : string) (keys : list string) :
  NoDup keys -> In x keys ->
  list_sum (map (fun k => if String.eqb x k then 1 else 0) keys) = 1.
Proof.
  induction 1 as [| k keys Hk Hnd IH]; simpl; [ tauto |].
  intros [-> | Hin].
  - rewrite String.eqb_refl.
    assert (H0 : list_sum (map (fun k => if String.eqb x k then 1 else 0) keys) = 0).
    { clear IH Hnd. induction keys as [| y keys IH]; simpl; [ reflexivity |].
      destruct (String.eqb_spec x y) as [-> | _].
      - exfalso. apply Hk. now left.
      - apply IH. intros H. apply Hk. now right. }
    now rewrite H0.
  - destruct (String.eqb_spec x k) as [-> | _]; [ contradiction |].
    now apply IH.
Qed.

(** The groups of distinct keys covering every row partition the rows. *)
Lemma groups_partition (keys : list string) (l : list Row) :
  NoDup keys -> (forall r, In r l -> In (vehicle_id r) keys) ->
  list_sum (map (fun k => length (filter (fun r => String.eqb (vehicle_id r) k) l))
                keys)
  = length l.
Proof.
  intros Hnd. induction l as [| x l IH]; intros Hin.
  - simpl. clear Hnd Hin.
    induction keys as [| k keys IHk]; simpl; [ reflexivity | exact IHk ].
  - rewrite (map_ext _
      (fun k => (if String.eqb (vehicle_id x) k then 1 else 0)
                + length (filter (fun r => String.eqb (vehicle_id r) k) l))).
    + rewrite list_sum_map_add, indicator_sum, IH; trivial.
      * intros r Hr. apply Hin. now right.
      * apply Hin. now left.
    + intros k. simpl. now destruct (String.eqb (vehicle_id x) k).
Qed.

Lemma total_len_groupby (df : DataFrame) : total_len (groupby df) = len df.
Proof.
  unfold total_len, groupby. rewrite map_map. cbn [snd].
  unfold get_group, loc, len. cbn [rows].
  apply groups_partition.
  - apply group_keys_NoDup.
  - intros r Hr. apply group_keys_In. now apply in_map.
Qed.

(** ** The result of the flattening loop *)

Lemma pad_0_0 (d : Buffers) : pad d 0 0 = d.
Proof.
  destruct d. unfold pad. cbn [offsets coords timestamps speeds edges positions
    relative_speeds angles vehicle_ids current_offset repeat].
  now rewrite !app_nil_r.
Qed.

Lemma init_pad (geoms_num coord_num : nat) :
  init geoms_num coord_num = pad start geoms_num coord_num.
Proof.
  unfold init, pad, start, np.zeros. rewrite Nat.add_1_r. reflexivity.
Qed.

Lemma start_filled : filled start.
Proof. unfold filled, start. simpl. tauto. Qed.

(** With a row count in the int32 range the loop computes [flattened]. *)
Lemma flatten_flattened (f32 : Q -> Q) (df : DataFrame) :
  fits_int32 df -> flatten f32 df = Ok (flattened f32 df).
Proof.
  intros Hfit. unfold flatten, flattened. rewrite init_pad.
  rewrite (loop_pad f32 (groupby df) 0 (len df) start start_filled).
  - now rewrite total_len_groupby, Nat.sub_diag, pad_0_0.
  - now rewrite total_len_groupby.
  - reflexivity.
  - now rewrite total_len_groupby.
Qed.

(** With a larger row count it raises. *)
Lemma flatten_overflow (f32 : Q -> Q) (df : DataFrame) :
  ~ fits_int32 df ->
  flatten f32 df = Raise (OverflowError "Python integer out of bounds for int32").
Proof.
  intros Hbig. unfold flatten. rewrite init_pad.
  apply (loop_overflow f32 (groupby df) 0 (len df) start start_filled).
  - now rewrite total_len_groupby.
  - reflexivity.
  - unfold np.INT32_MAX. simpl. lia.
  - rewrite total_len_groupby. unfold fits_int32 in Hbig. simpl. lia.
Qed.

Lemma flatten_Ok (f32 : Q -> Q) (df : DataFrame) (b : Buffers) :
  flatten f32 df = Ok b -> fits_int32 df /\ b = flattened f32 df.
Proof.
  intros H.
  destruct (Z_le_gt_dec (Z.of_nat (len df)) np.INT32_MAX) as [Hfit | Hbig].
  - split; [ exact Hfit |].
    rewrite (flatten_flattened f32 df Hfit) in H. now injection H.
  - rewrite flatten_overflow in H; [ discriminate |].
    unfold fits_int32. lia.
Qed.

Section Fields.

Variable f32 : Q -> Q.

Lemma fold_step_fields (gs : list (string * DataFrame)) :
  forall d : Buffers,
    let d' := fold_left (step f32) gs d in
    offsets d' = offsets d ++ map Z.of_nat (boundaries (current_offset d) gs)
    /\ coords d' = coords d ++ group_cells (fun _ => coord_cell f32) gs
    /\ timestamps d' = timestamps d ++ group_cells (fun _ => time_cell f32) gs
    /\ speeds d'
       = speeds d ++ group_cells (cell f32 "vehicle_speed" vehicle_speed 0%Q) gs
    /\ edges d' = edges d ++ group_cells edge_cell gs
    /\ positions d'
       = positions d ++ group_cells (cell f32 "vehicle_pos" vehicle_pos 0%Q) gs
    /\ relative_speeds d'
       = relative_speeds d
         ++ group_cells (cell f32 "vehicle_speedRelative" vehicle_speedRelative 1%Q) gs
    /\ angles d'
       = angles d ++ group_cells (cell f32 "vehicle_angle" vehicle_angle 0%Q) gs
    /\ vehicle_ids d' = vehicle_ids d ++ map fst gs
    /\ current_offset d' = current_offset d + total_len gs.
Proof.
  induction gs as [| [k g] gs IH]; intros d; cbn zeta.
  - unfold group_cells, total_len. simpl.
    rewrite !app_nil_r, Nat.add_0_r. tauto.
  - cbn [fold_left]. specialize (IH (step f32 d (k, g))). cbn zeta in IH.
    destruct IH as (Ho & Hc & Ht & Hs & He & Hp & Hr & Ha & Hv & Hn).
    rewrite Ho, Hc, Ht, Hs, He, Hp, Hr, Ha, Hv, Hn.
    unfold step, group_cells.
    cbn [offsets coords timestamps speeds edges positions relative_speeds
         angles vehicle_ids current_offset fst snd flat_map map
         boundaries].
    rewrite total_len_cons, <- !app_assoc, Nat.add_assoc.
    repeat split; reflexivity.
Qed.

End Fields.

(** Cells of the groups of a frame are computed with the frame's columns. *)
Lemma group_cells_groupby {B} (c : DataFrame -> Row -> B) (df : DataFrame) :
  (forall k r, c (get_group df k) r = c df r) ->
  group_cells c (groupby df) = map (c df) (group_rows (groupby df)).
Proof.
  intros Hc. unfold group_cells, group_rows, groupby.
  induction (group_keys df) as [| k keys IH]; [ reflexivity |].
  cbn [map flat_map snd]. rewrite map_app, IH. f_equal.
  apply map_ext. apply Hc.
Qed.

(** ** Group boundaries *)

Lemma boundaries_length (gs : list (string * DataFrame)) (cur : nat) :
  length (boundaries cur gs) = length gs.
Proof.
  revert cur. induction gs as [| kg gs IH]; intros cur; simpl; [ reflexivity |].
  now rewrite IH.
Qed.

(** Boundaries are non-decreasing and end at the total. *)
Lemma boundaries_sorted (gs : list (string * DataFrame)) (cur : nat) :
  StronglySorted le (cur :: boundaries cur gs).
Proof.
  revert cur. induction gs as [| kg gs IH]; intros cur.
  - repeat constructor.
  - cbn [boundaries]. specialize (IH (cur + len (snd kg))).
    constructor; [ exact IH |].
    apply StronglySorted_inv in IH. destruct IH as [_ IH].
    constructor; [ lia |].
    eapply Forall_impl; [| exact IH ]. intros x Hx. simpl in Hx. lia.
Qed.

Lemma boundaries_last (gs : list (string * DataFrame)) (cur : nat) :
  last (cur :: boundaries cur gs) 0 = cur + total_len gs.
Proof.
  revert cur. induction gs as [| [k g] gs IH]; intros cur.
  - unfold total_len. simpl. lia.
  - rewrite total_len_cons. cbn [boundaries snd].
    change (last (cur :: ?x :: ?l) 0) with (last (x :: l) 0).
    rewrite IH. lia.
Qed.

(** The [i]-th list of a list array whose offsets are the boundaries of the
    groups is what the [i]-th group contributed. *)
Lemma list_value_group {A} (f : string * DataFrame -> list A)
      (gs : list (string * DataFrame)) (kg0 : string * DataFrame) :
  (forall kg, length (f kg) = len (snd kg)) ->
  forall (i : nat) (pre : list A),
    i < length gs ->
    pa.list_value (map Z.of_nat (length pre :: boundaries (length pre) gs))
                  (pre ++ flat_map f gs) i
    = f (nth i gs kg0).
Proof.
  intros Hf. induction gs as [| kg gs IH]; intros i pre Hi; [ simpl in Hi; lia |].
  destruct i as [| i].
  - unfold pa.list_value. cbn [boundaries map nth flat_map].
    rewrite !Nat2Z.id, Nat.add_comm, Nat.add_sub, <- (Hf kg).
    rewrite skipn_app, Nat.sub_diag, skipn_all. cbn [skipn app].
    rewrite firstn_app, Nat.sub_diag, firstn_all. cbn [firstn]. apply app_nil_r.
  - cbn [boundaries flat_map nth]. simpl in Hi.
    specialize (IH i (pre ++ f kg)). rewrite length_app, Hf in IH.
    rewrite <- app_assoc in IH. rewrite <- IH by lia.
    reflexivity.
Qed.

(** ** The buffers in closed form *)

Lemma groupby_keys (df : DataFrame) : map fst (groupby df) = group_keys df.
Proof.
  unfold groupby. rewrite map_map. cbn [fst]. apply map_id.
Qed.

Lemma groupby_length (df : DataFrame) :
  length (groupby df) = length (group_keys df).
Proof. unfold groupby. apply length_map. Qed.

Lemma groupby_nth (df : DataFrame) (i : nat) (kg0 : string * DataFrame) :
  i < length (group_keys df) ->
  nth i (groupby df) kg0
  = (nth i (group_keys df) "", get_group df (nth i (group_keys df) "")).
Proof.
  intros Hi. unfold groupby.
  rewrite (nth_indep _ kg0 ((fun k => (k, get_group df k)) "")).
  - apply (map_nth (fun k => (k, get_group df k))).
  - now rewrite length_map.
Qed.

Lemma group_rows_length (gs : list (string * DataFrame)) :
  length (group_rows gs) = total_len gs.
Proof.
  unfold group_rows, total_len.
  induction gs as [| kg gs IH]; simpl; [ reflexivity |].
  rewrite length_app, IH. reflexivity.
Qed.

Lemma map_group_rows {B} (c : Row -> B) (gs : list (string * DataFrame)) :
  map c (group_rows gs) = flat_map (fun kg => map c (rows (snd kg))) gs.
Proof.
  unfold group_rows. induction gs as [| kg gs IH]; simpl; [ reflexivity |].
  now rewrite map_app, IH.
Qed.

Section Closed.

Variable f32 : Q -> Q.

Lemma flattened_fields (df : DataFrame) :
  let b := flattened f32 df in
  let rs := group_rows (groupby df) in
  offsets b = map Z.of_nat (0 :: boundaries 0 (groupby df))
  /\ coords b = map (coord_cell f32) rs
  /\ timestamps b = map (time_cell f32) rs
  /\ speeds b = map (cell f32 "vehicle_speed" vehicle_speed 0%Q df) rs
  /\ edges b = map (edge_cell df) rs
  /\ positions b = map (cell f32 "vehicle_pos" vehicle_pos 0%Q df) rs
  /\ relative_speeds b
     = map (cell f32 "vehicle_speedRelative" vehicle_speedRelative 1%Q df) rs
  /\ angles b = map (cell f32 "vehicle_angle" vehicle_angle 0%Q df) rs
  /\ vehicle_ids b = group_keys df
  /\ current_offset b = len df.
Proof.
  cbn zeta. unfold flattened.
  destruct (fold_step_fields f32 (groupby df) start)
    as (Ho & Hc & Ht & Hs & He & Hp & Hr & Ha & Hv & Hn).
  rewrite Ho, Hc, Ht, Hs, He, Hp, Hr, Ha, Hv, Hn. unfold start.
  cbn [offsets coords timestamps speeds edges positions relative_speeds
       angles vehicle_ids current_offset app].
  rewrite !group_cells_groupby by reflexivity.
  rewrite groupby_keys, total_len_groupby. repeat split; reflexivity.
Qed.

(** A trip of a column of cells is the column over the rows of its
    vehicle. *)
Lemma trip_cells {B} (c : Row -> B) (column : Buffers -> list B)
      (df : DataFrame) (i : nat) :
  column (flattened f32 df) = map c (group_rows (groupby df)) ->
  i < length (group_keys df) ->
  trip (flattened f32 df) column i
  = map c (trip_rows df (nth i (group_keys df) "")).
Proof.
  intros Hcol Hi. unfold trip. rewrite Hcol.
  destruct (flattened_fields df) as (-> & _).
  rewrite map_group_rows.
  assert (Hi' : i < length (groupby df)) by now rewrite groupby_length.
  etransitivity.
  - exact (list_value_group (fun kg => map c (rows (snd kg))) (groupby df)
             ("", df) (fun kg => length_map c _) i [] Hi').
  - rewrite groupby_nth by trivial. reflexivity.
Qed.

End Closed.

(** ** Last element of a list *)

Lemma last_map {A B} (f : A -> B) (l : list A) (d : A) :
  last (map f l) (f d) = f (last l d).
Proof.
  induction l as [| a [| a' l] IH]; trivial.
Qed.

Lemma flatten_total (f32 : Q -> Q) (df : DataFrame) :
  fits_int32 df -> exists b : Buffers, flatten f32 df = Ok b.
Proof. intros H. exists (flattened f32 df). now apply flatten_flattened. Qed.

(** ** Defaults of absent columns *)

Lemma has_column_absent (name : string) (df : DataFrame) :
  ~ In name (columns df) -> has_column name df = false.
Proof.
  intros Hn. unfold has_column.
  destruct (existsb (String.eqb name) (columns df)) eqn:E; trivial.
  apply existsb_exists in E. destruct E as [c [Hc E]].
  apply String.eqb_eq in E. subst c. contradiction.
Qed.

Lemma In_firstn {A} (x : A) (n : nat) (l : list A) :
  In x (firstn n l) -> In x l.
Proof.
  intros H. rewrite <- (firstn_skipn n l). apply in_or_app. now left.
Qed.

Lemma In_skipn {A} (x : A) (n : nat) (l : list A) :
  In x (skipn n l) -> In x l.
Proof.
  intros H. rewrite <- (firstn_skipn n l). apply in_or_app. now right.
Qed.

Lemma trip_Forall {A} (P : A -> Prop) (b : Buffers) (column : Buffers -> list A)
      (i : nat) :
  Forall P (column b) -> Forall P (trip b column i).
Proof.
  intros H. unfold trip, pa.list_value.
  apply Forall_forall. intros x Hx.
  apply In_firstn, In_skipn in Hx. rewrite Forall_forall in H. now apply H.
Qed.

Lemma cell_absent (f32 : Q -> Q) (name : string) (get : Row -> Q) (default v : Q)
      (df : DataFrame) (rs : list Row) :
  (f32 default == v)%Q -> ~ In name (columns df) ->
  Forall (fun x => (x == v)%Q) (map (cell f32 name get default df) rs).
Proof.
  intros Hv Hn. apply Forall_forall. intros x Hx.
  apply in_map_iff in Hx. destruct Hx as [r [<- _]].
  unfold cell. now rewrite (has_column_absent name df Hn).
Qed.

(** C6: when the cast keeps 0.0 and 1.0, whenever the loop ends normally
    (it does when the row count fits the int32 offsets array) every element
    of the output column of an absent optional column, in the flat buffer
    and so in every trip, is the default: 0.0 for speed, position and angle,
    the empty string for the edge, 1.0 for the relative speed. *)
Theorem absent_columns_default (f32 : Q -> Q) (df : DataFrame) :
  (f32 0 == 0)%Q -> (f32 1 == 1)%Q ->
  (fits_int32 df -> exists b : Buffers, flatten f32 df = Ok b)
  /\ forall b : Buffers,
      flatten f32 df = Ok b ->
      (~ In "vehicle_speed" (columns df) ->
       Forall (fun v => (v == 0)%Q) (speeds b)
       /\ forall i, Forall (fun v => (v == 0)%Q) (trip b speeds i))
      /\ (~ In "vehicle_edge" (columns df) ->
          Forall (fun e => e = "") (edges b)
          /\ forall i, Forall (fun e => e = "") (trip b edges i))
      /\ (~ In "vehicle_pos" (columns df) ->
          Forall (fun v => (v == 0)%Q) (positions b)
          /\ forall i, Forall (fun v => (v == 0)%Q) (trip b positions i))
      /\ (~ In "vehicle_speedRelative" (columns df) ->
          Forall (fun v => (v == 1)%Q) (relative_speeds b)
          /\ forall i, Forall (fun v => (v == 1)%Q) (trip b relative_speeds i))
      /\ (~ In "vehicle_angle" (columns df) ->
          Forall (fun v => (v == 0)%Q) (angles b)
          /\ forall i, Forall (fun v => (v == 0)%Q) (trip b angles i)).
Proof.
  intros H0 H1. split; [ apply flatten_total |].
  intros b Hb. apply flatten_Ok in Hb. destruct Hb as [_ ->].
  destruct (flattened_fields f32 df)
    as (_ & _ & _ & Hs & He & Hp & Hr & Ha & _ & _).
  repeat split; try (intros i; apply trip_Forall).
  all: try (rewrite ?Hs, ?Hp, ?Hr, ?Ha; now apply cell_absent).
  all: rewrite He; apply Forall_forall; intros x Hx;
    apply in_map_iff in Hx; destruct Hx as [r [<- _]];
    unfold edge_cell; now rewrite has_column_absent.
Qed.

Lemma absent_columns_default_witness :
  ((f32_exact 0 == 0)%Q /\ (f32_exact 1 == 1)%Q)
  /\ exists b : Buffers,
      flatten f32_exact (sort_values (filter_rows fcd_small)) = Ok b
      /\ speeds b = [0%Q; 0%Q; 0%Q; 0%Q; 0%Q; 0%Q]
      /\ Forall (fun v => (v == 0)%Q) (speeds b)
      /\ Forall (fun v => (v == 1)%Q) (relative_speeds b).
Proof.
  assert (H0 : (f32_exact 0 == 0)%Q) by reflexivity.
  assert (H1 : (f32_exact 1 == 1)%Q) by reflexivity.
  split; [ now split |].
  destruct (absent_columns_default f32_exact
              (sort_values (filter_rows fcd_small)) H0 H1) as [Htotal Hinv].
  destruct Htotal as [b Hb].
  - unfold fits_int32, np.INT32_MAX. simpl. lia.
  - exists b. split; [ exact Hb |].
    destruct (Hinv b Hb) as (Hs & _ & _ & Hr & _).
    split.
    + vm_compute in Hb. now injection Hb as <-.
    + split.
      * apply Hs. simpl. intuition discriminate.
      * apply Hr. simpl. intuition discriminate.
Defined.

(** ** Differences of group boundaries *)

Lemma boundaries_diff (gs : list (string * DataFrame)) (kg0 : string * DataFrame) :
  forall (i cur : nat),
    i < length gs ->
    nth (S i) (cur :: boundaries cur gs) 0
    = nth i (cur :: boundaries cur gs) 0 + len (snd (nth i gs kg0)).
Proof.
  induction gs as [| kg gs IH]; intros i cur Hi; [ simpl in Hi; lia |].
  destruct i as [| i]; [ reflexivity |].
  simpl in Hi. cbn [boundaries].
  change (nth (S i) (cur + len (snd kg) :: boundaries (cur + len (snd kg)) gs) 0
          = nth i (cur + len (snd kg) :: boundaries (cur + len (snd kg)) gs) 0
            + len (snd (nth i gs kg0))).
  apply IH. lia.
Qed.

(** ** Sorting and the order of samples within a trip *)

Lemma filter_all {A} (l : list A) : filter (fun _ => true) l = l.
Proof.
  induction l as [| a l IH]; simpl; [ reflexivity |]. now rewrite IH.
Qed.

(** The rows that reach the loop are selected from the sorted rows. *)
Lemma retained_rows (permutation : nat -> list nat) (SAMPLE_VEHICLES : option Z)
      (df df' : DataFrame) :
  retained permutation SAMPLE_VEHICLES df = Ok df' ->
  columns df' = columns df
  /\ exists p : Row -> bool,
      rows df' = filter p (stable_sort (rows (filter_rows df))).
Proof.
  unfold retained, sample. destruct SAMPLE_VEHICLES as [n |].
  - destruct (np.random_choice _ _ _) as [sampled | e]; cbn [bind];
      [| discriminate ].
    intros [= <-]. split; [ reflexivity |].
    exists (isin sampled). reflexivity.
  - intros [= <-]. split; [ reflexivity |].
    exists (fun _ => true). cbn [rows sort_values]. now rewrite filter_all.
Qed.

Lemma trip_timestamps_sorted (f32 : Q -> Q) (df : DataFrame) (vid : string) :
  (forall x y : Q, (x <= y)%Q -> (f32 x <= f32 y)%Q) ->
  StronglySorted key_le (rows df) ->
  StronglySorted Qle (map (time_cell f32) (trip_rows df vid)).
Proof.
  intros Hmono Hs. unfold trip_rows. apply (StronglySorted_map key_le).
  - intros x y Hx Hy Hxy. apply filter_In in Hx, Hy.
    destruct Hx as [_ Hx], Hy as [_ Hy]. apply String.eqb_eq in Hx, Hy.
    apply Hmono. apply key_le_same_vehicle; congruence.
  - now apply StronglySorted_filter.
Qed.

(** C4: [sort_values] returns the rows of its frame ascending in
    (vehicle_id, timestep_time), rows of equal key in their original order;
    and, for a monotone cast, whenever the loop ends normally on the
    retained rows (it does when their count fits the int32 offsets array)
    the timestamps of every trip are non-decreasing. *)
Theorem sorted_by_vehicle_then_time
        (f32 : Q -> Q) (permutation : nat -> list nat)
        (SAMPLE_VEHICLES : option Z) :
  (forall x y : Q, (x <= y)%Q -> (f32 x <= f32 y)%Q) ->
  (forall d : DataFrame,
      StronglySorted key_le (rows (sort_values d))
      /\ Permutation (rows d) (rows (sort_values d))
      /\ forall r : Row,
          filter (same_key r) (rows (sort_values d))
          = filter (same_key r) (rows d))
  /\ forall df df' : DataFrame,
      retained permutation SAMPLE_VEHICLES df = Ok df' ->
      (fits_int32 df' -> exists b : Buffers, flatten f32 df' = Ok b)
      /\ forall b : Buffers,
          flatten f32 df' = Ok b ->
          forall i : nat,
            i < length (vehicle_ids b) ->
            StronglySorted Qle (trip b timestamps i).
Proof.
  intros Hmono. split.
  - intros d. cbn [sort_values rows]. repeat split.
    + apply stable_sort_sorted.
    + apply stable_sort_perm.
    + intros r. apply stable_sort_filter. apply same_key_class.
  - intros df df' Hret. split; [ apply flatten_total |].
    intros b Hb. apply flatten_Ok in Hb. destruct Hb as [_ ->].
    destruct (flattened_fields f32 df')
      as (_ & _ & Ht & _ & _ & _ & _ & _ & Hv & _).
    intros i Hi. rewrite Hv in Hi.
    rewrite (trip_cells f32 (time_cell f32) timestamps df' i Ht Hi).
    apply trip_timestamps_sorted; [ exact Hmono |].
    destruct (retained_rows _ _ _ _ Hret) as (_ & p & ->).
    apply StronglySorted_filter, stable_sort_sorted.
Qed.

Lemma sorted_by_vehicle_then_time_witness :
  (forall x y : Q, (x <= y)%Q -> (f32_exact x <= f32_exact y)%Q)
  /\ exists df' b,
      retained reversed_draw (Some 2%Z) fcd_small = Ok df'
      /\ flatten f32_exact df' = Ok b
      /\ timestamps b = [25201%Q; 25202%Q; 25203%Q; 25201%Q]
      /\ forall i : nat,
          i < length (vehicle_ids b) ->
          StronglySorted Qle (trip b timestamps i).
Proof.
  assert (Hmono : forall x y : Q, (x <= y)%Q -> (f32_exact x <= f32_exact y)%Q)
    by (intros x y H; exact H).
  split; [ exact Hmono |].
  destruct (sorted_by_vehicle_then_time f32_exact reversed_draw (Some 2%Z) Hmono)
    as [_ H].
  destruct (retained reversed_draw (Some 2%Z) fcd_small) as [df' | e] eqn:Hret;
    [| vm_compute in Hret; discriminate ].
  destruct (H fcd_small df' Hret) as [Htotal Hinv].
  assert (Hret' := Hret). vm_compute in Hret'. injection Hret' as Hdf.
  destruct Htotal as [b Hb].
  - rewrite <- Hdf. unfold fits_int32, np.INT32_MAX. simpl. lia.
  - exists df', b. repeat split; trivial.
    + rewrite <- Hdf in Hb. vm_compute in Hb. now injection Hb as <-.
    + now apply Hinv.
Defined.

(** ** Sampling of vehicles *)

Lemma unique_In (x : string) (l : list string) : In x (unique l) <-> In x l.
Proof.
  induction l as [| y l IH]; simpl; [ reflexivity |].
  rewrite filter_In, IH. split.
  - intros [-> | [H _]]; auto.
  - intros [-> | H]; [ now left |].
    destruct (String.eqb_spec y x) as [-> | Hne]; [ now left |].
    right. split; trivial.
Qed.

Lemma unique_NoDup (l : list string) : NoDup (unique l).
Proof.
  induction l as [| y l IH]; simpl; constructor.
  - intros H. apply filter_In in H. destruct H as [_ H].
    now rewrite String.eqb_refl in H.
  - now apply NoDup_filter.
Qed.

Lemma map_nth_seq {A} (a : list A) (d : A) :
  map (fun i => nth i a d) (seq 0 (length a)) = a.
Proof.
  induction a as [| x a IH]; [ reflexivity |].
  cbn [length seq map nth]. rewrite <- seq_shift, map_map. cbn [nth].
  now rewrite IH.
Qed.

Section Draw.

Variable permutation : nat -> list nat.
Hypothesis permutation_spec : forall n, Permutation (permutation n) (seq 0 n).

Variable a : list string.
Hypothesis a_NoDup : NoDup a.



End Draw.

Lemma isin_In (values : list string) (r : Row) :
  isin values r = true <-> In (vehicle_id r) values.
Proof.
  unfold isin. rewrite existsb_exists. split.
  - intros [x [Hx E]]. apply String.eqb_eq in E. now subst x.
  - intros H. exists (vehicle_id r). split; trivial. apply String.eqb_refl.
Qed.


(** A vehicle selected by [isin] keeps all of its rows. *)
Lemma trip_rows_isin (values : list string) (df : DataFrame) (vid : string) :
  In vid values -> trip_rows (loc (isin values) df) vid = trip_rows df vid.
Proof.
  intros Hin. unfold trip_rows, loc. cbn [rows].
  induction (rows df) as [| r rs IH]; [ reflexivity |].
  cbn [filter]. destruct (isin values r) eqn:E.
  - cbn [filter]. now rewrite IH.
  - rewrite IH. destruct (String.eqb_spec (vehicle_id r) vid) as [Heq | _];
      trivial.
    exfalso. rewrite <- Heq in Hin. apply isin_In in Hin. congruence.
Qed.




(** ** All samples are equally numerous among the draws *)









(** ** The time window *)

Lemma window_bounds : ((7.25 * 3600 == 26100) /\ (7 * 3600 == 25200))%Q.
Proof. split; reflexivity. Qed.

Lemma time_window_spec (r : Row) :
  time_window r = true
  <-> (25200 < timestep_time r)%Q /\ (timestep_time r < 26100)%Q.
Proof.
  unfold time_window. rewrite andb_true_iff, !Qlt_bool_iff.
  destruct window_bounds as [-> ->]. tauto.
Qed.

(** C7: the filter keeps the columns, and keeps, in their order, exactly the
    rows whose [timestep_time] lies strictly between 25200 and 26100; a row
    on either bound is dropped. *)
Theorem filter_strictly_inside_window (df : DataFrame) :
  columns (filter_rows df) = columns df
  /\ rows (filter_rows df) = filter time_window (rows df)
  /\ (forall r : Row,
        time_window r = true
        <-> (25200 < timestep_time r)%Q /\ (timestep_time r < 26100)%Q)
  /\ (forall r : Row,
        In r (rows (filter_rows df))
        <-> In r (rows df)
            /\ (25200 < timestep_time r)%Q /\ (timestep_time r < 26100)%Q)
  /\ (forall r : Row,
        (timestep_time r == 25200)%Q \/ (timestep_time r == 26100)%Q ->
        ~ In r (rows (filter_rows df))).
Proof.
  assert (Hin : forall r : Row,
             In r (rows (filter_rows df))
             <-> In r (rows df)
                 /\ (25200 < timestep_time r)%Q /\ (timestep_time r < 26100)%Q).
  { intros r. cbn [filter_rows loc rows].
    now rewrite filter_In, time_window_spec. }
  split; [ reflexivity |]. split; [ reflexivity |].
  split; [ exact time_window_spec |]. split; [ exact Hin |].
  intros r Hb Hr. apply Hin in Hr. destruct Hr as (_ & H1 & H2).
  destruct Hb as [Hb | Hb]; rewrite Hb in *.
  - exact (Qlt_irrefl _ H1).
  - exact (Qlt_irrefl _ H2).
Qed.

Lemma filter_strictly_inside_window_witness :
  rows (filter_rows fcd_outside) = []
  /\ map timestep_time (rows (filter_rows fcd_small))
     = [25201%Q; 25201%Q; 25201%Q; (50405 # 2)%Q; 25202%Q; 25203%Q]
  /\ ~ In (fcd_row "veh1" 25200%Q 1%Q 1%Q "e0") (rows (filter_rows fcd_small))
  /\ ~ In (fcd_row "veh2" 26100%Q 8%Q 7%Q "e2") (rows (filter_rows fcd_small)).
Proof.
  destruct (filter_strictly_inside_window fcd_small)
    as (_ & _ & _ & _ & Hbound).
  split; [ reflexivity |]. split; [ reflexivity |]. split.
  - apply Hbound. left. reflexivity.
  - apply Hbound. right. reflexivity.
Defined.

(** ** The assembled table *)

Lemma bind_Ok {A B} (m : result A) (k : A -> result B) (b : B) :
  bind m k = Ok b -> exists a, m = Ok a /\ k a = Ok b.
Proof.
  destruct m as [a | e]; cbn [bind]; [| discriminate ].
  intros H. now exists a.
Qed.

Lemma flatten_C_length (a : list (Q * Q)) :
  length (np.flatten_C a) = length a * 2.
Proof.
  unfold np.flatten_C. induction a as [| p a IH]; simpl; [ reflexivity |].
  rewrite IH. lia.
Qed.

Lemma array_of_strs_len (l : list string) : pa.len (pa.array_of_strs l) = length l.
Proof. destruct l; reflexivity. Qed.

Lemma array_of_strs_nonempty (l : list string) :
  l <> [] -> pa.array_of_strs l = pa.StringArray l.
Proof. destruct l; [ congruence | reflexivity ]. Qed.

Lemma assemble_Ok (b : Buffers) (t : pa.Table) :
  assemble b = Ok t -> t = columns_of b.
Proof.
  unfold assemble, pa.FixedSizeListArray_from_arrays, pa.ListArray_from_arrays,
    pa.table, pa.array_int32, pa.array_float32.
  destruct (_ =? 0)%nat; cbn [bind]; [| discriminate ].
  destruct (offsets b) as [| o os] eqn:Ho; cbn [bind]; [ discriminate |].
  destruct (forallb _ _); [| discriminate ].
  intros [= <-]. unfold columns_of. now rewrite Ho.
Qed.

Lemma assemble_columns (b : Buffers) :
  length (offsets b) = length (vehicle_ids b) + 1 ->
  assemble b = Ok (columns_of b).
Proof.
  intros Hlen. unfold assemble, pa.FixedSizeListArray_from_arrays,
    pa.array_int32, pa.array_float32.
  cbn [pa.len]. rewrite flatten_C_length, Nat.Div0.mod_mul. cbn [Nat.eqb bind].
  unfold pa.ListArray_from_arrays, columns_of.
  destruct (offsets b) as [| o os] eqn:Ho; [ simpl in Hlen; lia |].
  cbn [bind]. unfold pa.table. cbn [forallb snd pa.len].
  rewrite array_of_strs_len, !Nat.eqb_refl.
  replace (length (vehicle_ids b)) with (length (o :: os) - 1) by lia.
  now rewrite Nat.eqb_refl.
Qed.

(** ** An empty time window *)

Lemma sample_empty (permutation : nat -> list nat) (SAMPLE_VEHICLES : option Z)
      (d : DataFrame) :
  rows d = [] ->
  (forall n, SAMPLE_VEHICLES = Some n -> (0 <= n)%Z) ->
  exists df' : DataFrame,
    sample permutation SAMPLE_VEHICLES d = Ok df' /\ rows df' = [].
Proof.
  intros Hd Hn. unfold sample. destruct SAMPLE_VEHICLES as [n |].
  - specialize (Hn n eq_refl). rewrite Hd. cbn [map unique length].
    unfold np.random_choice. cbn [length].
    replace (Z.min n (Z.of_nat 0)) with 0%Z by lia.
    cbn [Nat.eqb Z.eqb negb andb Z.of_nat Z.ltb Z.compare bind].
    eexists. split; [ reflexivity |]. cbn [loc rows]. now rewrite Hd.
  - now exists d.
Qed.

Lemma flatten_empty (f32 : Q -> Q) (d : DataFrame) :
  rows d = [] -> flatten f32 d = Ok (init 0 0).
Proof.
  intros Hd. unfold flatten, groupby, group_keys, len. now rewrite Hd.
Qed.

(** C1 (what the script does): when the time window retains no row and the
    sample count, if any, is not negative, the loop still ends normally
    with no trip, offsets [0] and empty buffers, but the script then
    raises [ValueError] at [timestamps.min()] and builds no table. *)
Theorem empty_window_raises
        (f32 : Q -> Q) (permutation : nat -> list nat)
        (SAMPLE_VEHICLES : option Z) (df : DataFrame) :
  rows (filter_rows df) = [] ->
  (forall n, SAMPLE_VEHICLES = Some n -> (0 <= n)%Z) ->
  exists (df' : DataFrame) (b : Buffers),
    retained permutation SAMPLE_VEHICLES df = Ok df'
    /\ rows df' = []
    /\ flatten f32 df' = Ok b
    /\ offsets b = [0%Z]
    /\ (coords b = [] /\ timestamps b = [] /\ speeds b = [] /\ edges b = []
        /\ positions b = [] /\ relative_speeds b = [] /\ angles b = [])
    /\ vehicle_ids b = []
    /\ main f32 permutation SAMPLE_VEHICLES df
       = Raise (ValueError
           "zero-size array to reduction operation minimum which has no identity").
Proof.
  intros Hempty Hn.
  assert (Hsorted : rows (sort_values (filter_rows df)) = [])
    by (cbn [sort_values rows]; now rewrite Hempty).
  destruct (sample_empty permutation SAMPLE_VEHICLES _ Hsorted Hn)
    as (df' & Hs & Hrows).
  exists df', (init 0 0).
  assert (Hret : retained permutation SAMPLE_VEHICLES df = Ok df') by exact Hs.
  pose proof (flatten_empty f32 df' Hrows) as Hflat.
  repeat split; trivial.
  unfold main. rewrite Hret. cbn [bind]. rewrite Hflat. reflexivity.
Qed.

Lemma empty_window_raises_witness :
  rows (filter_rows fcd_outside) = []
  /\ main f32_exact reversed_draw SAMPLE_VEHICLES_configured fcd_outside
     = Raise (ValueError
         "zero-size array to reduction operation minimum which has no identity").
Proof.
  assert (Hempty : rows (filter_rows fcd_outside) = []) by reflexivity.
  split; [ exact Hempty |].
  destruct (empty_window_raises f32_exact reversed_draw
              SAMPLE_VEHICLES_configured fcd_outside Hempty)
    as (df' & b & _ & _ & _ & _ & _ & _ & Hmain).
  - intros n [= <-]. lia.
  - exact Hmain.
Defined.

(** * Further properties of the script *)

(** ** Trips and distinct vehicles *)

Lemma group_keys_nunique (df : DataFrame) :
  length (group_keys df) = nunique (map vehicle_id (rows df)).
Proof.
  unfold nunique. apply Permutation_length.
  apply NoDup_Permutation; [ apply group_keys_NoDup | apply unique_NoDup |].
  intros x. now rewrite group_keys_In, unique_In.
Qed.

(** X1: when the loop has ended normally, it has emitted one trip for each
    distinct vehicle of the frame and no other: the identifiers of the
    trips are pairwise distinct, they are exactly the identifiers that
    occur in the frame, and their number is [nunique()] of the column. *)
Theorem trips_are_the_distinct_vehicles
        (f32 : Q -> Q) (df : DataFrame) (b : Buffers) :
  flatten f32 df = Ok b ->
  NoDup (vehicle_ids b)
  /\ (forall v : string,
        In v (vehicle_ids b) <-> In v (map vehicle_id (rows df)))
  /\ length (vehicle_ids b) = nunique (map vehicle_id (rows df)).
Proof.
  intros Hb. apply flatten_Ok in Hb. destruct Hb as [_ ->].
  destruct (flattened_fields f32 df) as (_ & _ & _ & _ & _ & _ & _ & _ & Hv & _).
  rewrite Hv. split; [ apply group_keys_NoDup |].
  split; [ intros v; apply group_keys_In | apply group_keys_nunique ].
Qed.

Lemma trips_are_the_distinct_vehicles_witness :
  exists b : Buffers,
    flatten f32_exact (filter_rows fcd_small) = Ok b
    /\ vehicle_ids b = ["veh0"; "veh1"; "veh2"]
    /\ length (vehicle_ids b) = 3.
Proof.
  destruct (flatten f32_exact (filter_rows fcd_small)) as [b | e] eqn:Hb;
    [| vm_compute in Hb; discriminate ].
  exists b. split; [ reflexivity |].
  destruct (trips_are_the_distinct_vehicles f32_exact _ b Hb) as (_ & _ & Hn).
  split; [| exact Hn ].
  vm_compute in Hb. now injection Hb as <-.
Defined.

(** ** No trip is empty *)

Lemma trip_rows_nonempty (df : DataFrame) (k : string) :
  In k (group_keys df) -> trip_rows df k <> [].
Proof.
  intros Hk. apply group_keys_In, in_map_iff in Hk.
  destruct Hk as [r [Hid Hr]]. intros E.
  assert (Hin : In r (trip_rows df k)).
  { unfold trip_rows. apply filter_In. split; trivial. now apply String.eqb_eq. }
  rewrite E in Hin. exact Hin.
Qed.

Lemma boundaries_increasing (gs : list (string * DataFrame)) :
  Forall (fun kg => 0 < len (snd kg)) gs ->
  forall cur : nat, StronglySorted lt (cur :: boundaries cur gs).
Proof.
  induction 1 as [| kg gs Hkg _ IH]; intros cur.
  - repeat constructor.
  - cbn [boundaries]. specialize (IH (cur + len (snd kg))).
    constructor; [ exact IH |].
    apply StronglySorted_inv in IH. destruct IH as [_ IH].
    constructor; [ lia |].
    eapply Forall_impl; [| exact IH ]. intros x Hx. simpl in Hx. lia.
Qed.

Lemma groupby_nonempty (df : DataFrame) :
  Forall (fun kg => 0 < len (snd kg)) (groupby df).
Proof.
  apply Forall_forall. intros kg Hkg. unfold groupby in Hkg.
  apply in_map_iff in Hkg. destruct Hkg as [k [<- Hk]]. cbn [snd].
  pose proof (trip_rows_nonempty df k Hk) as Hne.
  unfold get_group, loc, len. cbn [rows]. unfold trip_rows in Hne.
  destruct (filter _ (rows df)); [ congruence | simpl; lia ].
Qed.

(** X2: when the loop has ended normally the offsets are strictly
    increasing, so every trip holds at least one sample: [groupby] yields
    no empty group. *)
Theorem no_empty_trip (f32 : Q -> Q) (df : DataFrame) (b : Buffers) :
  flatten f32 df = Ok b ->
  StronglySorted Z.lt (offsets b)
  /\ forall i : nat,
      i < length (vehicle_ids b) ->
      (nth i (offsets b) 0 < nth (S i) (offsets b) 0)%Z
      /\ trip b timestamps i <> [].
Proof.
  intros Hb. apply flatten_Ok in Hb. destruct Hb as [_ ->].
  destruct (flattened_fields f32 df)
    as (Ho & _ & Ht & _ & _ & _ & _ & _ & Hv & _).
  rewrite Hv. split.
  - rewrite Ho. apply (StronglySorted_map lt Z.lt Z.of_nat).
    + intros x y _ _. apply Nat2Z.inj_lt.
    + apply boundaries_increasing, groupby_nonempty.
  - intros i Hi. split.
    + rewrite Ho. change 0%Z with (Z.of_nat 0). rewrite !map_nth.
      rewrite (boundaries_diff (groupby df) ("", df))
        by now rewrite groupby_length.
      rewrite groupby_nth by trivial. cbn [snd].
      pose proof (groupby_nonempty df) as Hne. rewrite Forall_forall in Hne.
      assert (Hk : In (nth i (group_keys df) "") (group_keys df))
        by now apply nth_In.
      specialize (Hne (nth i (group_keys df) "",
                       get_group df (nth i (group_keys df) ""))).
      cbn [snd] in Hne.
      assert (0 < len (get_group df (nth i (group_keys df) ""))).
      { apply Hne. unfold groupby. apply in_map_iff. eauto. }
      lia.
    + rewrite (trip_cells f32 (time_cell f32) timestamps df i Ht Hi).
      intros E. apply map_eq_nil in E.
      apply (trip_rows_nonempty df (nth i (group_keys df) "")); trivial.
      now apply nth_In.
Qed.

Lemma no_empty_trip_witness :
  exists b : Buffers,
    flatten f32_exact (filter_rows fcd_small) = Ok b
    /\ offsets b = [0; 2; 5; 6]%Z
    /\ StronglySorted Z.lt (offsets b).
Proof.
  destruct (flatten f32_exact (filter_rows fcd_small)) as [b | e] eqn:Hb;
    [| vm_compute in Hb; discriminate ].
  exists b. split; [ reflexivity |].
  destruct (no_empty_trip f32_exact _ b Hb) as (Hs & _).
  split; [| exact Hs ].
  vm_compute in Hb. now injection Hb as <-.
Defined.

(** ** The retained rows are sorted *)

Lemma filter_none {A} (p : A -> bool) (l : list A) :
  (forall a, In a l -> p a = false) -> filter p l = [].
Proof.
  induction l as [| a l IH]; intros H; [ reflexivity |].
  cbn [filter]. rewrite (H a) by now left.
  apply IH. intros a' Ha'. apply H. now right.
Qed.

Lemma flat_map_head {A B} (f : A -> list B) (a : A) (l : list A) :
  flat_map f (a :: l) = f a ++ flat_map f l.
Proof. reflexivity. Qed.

Lemma retained_sorted (permutation : nat -> list nat)
      (SAMPLE_VEHICLES : option Z) (df df' : DataFrame) :
  retained permutation SAMPLE_VEHICLES df = Ok df' ->
  StronglySorted key_le (rows df').
Proof.
  intros Hret. destruct (retained_rows _ _ _ _ Hret) as (_ & p & ->).
  apply StronglySorted_filter, stable_sort_sorted.
Qed.

(** ** What a trip holds *)

Lemma insert_row_front (r : Row) (l : list Row) :
  Forall (key_le r) l -> insert_row r l = r :: l.
Proof.
  destruct 1 as [| y l Hy _]; [ reflexivity |].
  cbn [insert_row]. unfold key_le in Hy. now rewrite Hy.
Qed.

(** Selecting rows commutes with the insertion into sorted rows. *)
Lemma insert_row_filter_comm (q : Row -> bool) (r : Row) (l : list Row) :
  StronglySorted key_le l ->
  filter q (insert_row r l)
  = if q r then insert_row r (filter q l) else filter q l.
Proof.
  induction 1 as [| y l Hs IH Hy].
  - cbn. destruct (q r); reflexivity.
  - cbn [insert_row]. destruct (key_leb r y) eqn:E.
    + change (filter q (r :: y :: l))
        with (if q r then r :: filter q (y :: l) else filter q (y :: l)).
      destruct (q r); [| reflexivity ].
      rewrite insert_row_front; [ reflexivity |].
      apply Forall_forall. intros z Hz. apply filter_In in Hz.
      destruct Hz as [[<- | Hz] _]; [ exact E |].
      rewrite Forall_forall in Hy. exact (key_le_trans _ _ _ E (Hy z Hz)).
    + cbn [filter]. rewrite IH.
      destruct (q y), (q r); trivial.
      cbn [insert_row]. now rewrite E.
Qed.

Lemma stable_sort_filter_comm (q : Row -> bool) (l : list Row) :
  filter q (stable_sort l) = stable_sort (filter q l).
Proof.
  induction l as [| x l IH]; [ reflexivity |].
  cbn [stable_sort fold_right filter].
  fold (stable_sort l).
  rewrite insert_row_filter_comm by apply stable_sort_sorted.
  rewrite IH. destruct (q x); reflexivity.
Qed.

Lemma retained_trip_rows (permutation : nat -> list nat)
      (SAMPLE_VEHICLES : option Z) (df df' : DataFrame) (vid : string) :
  retained permutation SAMPLE_VEHICLES df = Ok df' ->
  In vid (map vehicle_id (rows df')) ->
  trip_rows df' vid = trip_rows (sort_values (filter_rows df)) vid.
Proof.
  unfold retained, sample. destruct SAMPLE_VEHICLES as [n |].
  - destruct (np.random_choice _ _ _) as [sampled | e]; cbn [bind];
      [| discriminate ].
    intros [= <-] Hvid. apply trip_rows_isin.
    apply in_map_iff in Hvid. destruct Hvid as [r [<- Hr]].
    cbn [loc rows] in Hr. apply filter_In in Hr. now apply isin_In.
  - now intros [= <-].
Qed.

(** X4: the samples of the trip of a retained vehicle are the rows of that
    vehicle inside the time window, all of them and no other, sorted by
    time, rows of equal time in the order of the input.  Sampling removes
    vehicles, never samples of a vehicle it keeps. *)
Theorem trip_samples_are_the_sorted_window
        (permutation : nat -> list nat) (SAMPLE_VEHICLES : option Z)
        (df df' : DataFrame) (vid : string) :
  retained permutation SAMPLE_VEHICLES df = Ok df' ->
  In vid (map vehicle_id (rows df')) ->
  trip_rows df' vid = stable_sort (trip_rows (filter_rows df) vid)
  /\ Permutation (trip_rows df' vid) (trip_rows (filter_rows df) vid)
  /\ StronglySorted
       (fun r1 r2 => (timestep_time r1 <= timestep_time r2)%Q)
       (trip_rows df' vid).
Proof.
  intros Hret Hvid.
  assert (Heq : trip_rows df' vid = stable_sort (trip_rows (filter_rows df) vid)).
  { rewrite (retained_trip_rows _ _ _ _ _ Hret Hvid).
    unfold trip_rows. cbn [sort_values rows]. apply stable_sort_filter_comm. }
  split; [ exact Heq |]. split.
  - rewrite Heq. apply Permutation_sym, stable_sort_perm.
  - assert (Hs : StronglySorted key_le (trip_rows df' vid))
      by (rewrite Heq; apply stable_sort_sorted).
    rewrite <- (map_id (trip_rows df' vid)).
    apply (StronglySorted_map key_le _ (fun r => r)); [| exact Hs ].
    intros x y Hx Hy Hxy. unfold trip_rows in Hx, Hy.
    apply filter_In in Hx, Hy. destruct Hx as [_ Hx], Hy as [_ Hy].
    apply String.eqb_eq in Hx, Hy. apply key_le_same_vehicle; congruence.
Qed.

Lemma trip_samples_are_the_sorted_window_witness :
  exists df' : DataFrame,
    retained reversed_draw (Some 2%Z) fcd_small = Ok df'
    /\ In "veh1" (map vehicle_id (rows df'))
    /\ map timestep_time (trip_rows df' "veh1")
       = [25201%Q; 25202%Q; 25203%Q].
Proof.
  destruct (retained reversed_draw (Some 2%Z) fcd_small) as [df' | e] eqn:Hret;
    [| vm_compute in Hret; discriminate ].
  assert (Hret' := Hret). vm_compute in Hret'. injection Hret' as Hdf.
  assert (Hin : In "veh1" (map vehicle_id (rows df')))
    by (rewrite <- Hdf; simpl; tauto).
  exists df'. split; [ reflexivity |]. split; [ exact Hin |].
  destruct (trip_samples_are_the_sorted_window _ _ _ _ _ Hret Hin)
    as (Heq & _ & _).
  rewrite Heq. reflexivity.
Defined.

(** ** The retained rows *)

Lemma retained_in_window (permutation : nat -> list nat)
      (SAMPLE_VEHICLES : option Z) (df df' : DataFrame) (r : Row) :
  retained permutation SAMPLE_VEHICLES df = Ok df' ->
  In r (rows df') ->
  In r (rows df)
  /\ (25200 < timestep_time r)%Q /\ (timestep_time r < 26100)%Q.
Proof.
  intros Hret Hr. destruct (retained_rows _ _ _ _ Hret) as (_ & p & Hrows).
  rewrite Hrows in Hr. apply filter_In in Hr. destruct Hr as [Hr _].
  apply (Permutation_in _ (Permutation_sym (stable_sort_perm _))) in Hr.
  cbn [filter_rows loc rows] in Hr. apply filter_In in Hr.
  destruct Hr as [Hr Hw]. split; [ exact Hr |]. now apply time_window_spec.
Qed.

(** X6: the rows that reach the loop are rows of the input inside the time
    window, in the columns of the input, sorted by vehicle and time; with
    sampling disabled they are all of these rows, each as often as in the
    input. *)
Theorem retained_rows_come_from_the_window
        (permutation : nat -> list nat) (SAMPLE_VEHICLES : option Z)
        (df df' : DataFrame) :
  retained permutation SAMPLE_VEHICLES df = Ok df' ->
  columns df' = columns df
  /\ StronglySorted key_le (rows df')
  /\ (forall r : Row,
        In r (rows df') ->
        In r (rows df)
        /\ (25200 < timestep_time r)%Q /\ (timestep_time r < 26100)%Q)
  /\ (SAMPLE_VEHICLES = None ->
      Permutation (rows df') (filter time_window (rows df))).
Proof.
  intros Hret. destruct (retained_rows _ _ _ _ Hret) as (Hcols & p & Hrows).
  split; [ exact Hcols |].
  split; [ exact (retained_sorted _ _ _ _ Hret) |]. split.
  - intros r Hr. exact (retained_in_window _ _ _ _ r Hret Hr).
  - intros ->. unfold retained, sample in Hret. injection Hret as <-.
    cbn [sort_values rows filter_rows loc].
    apply Permutation_sym, stable_sort_perm.
Qed.

Lemma retained_rows_come_from_the_window_witness :
  exists df' : DataFrame,
    retained reversed_draw None fcd_small = Ok df'
    /\ map timestep_time (rows df')
       = [25201%Q; (50405 # 2)%Q; 25201%Q; 25202%Q; 25203%Q; 25201%Q]
    /\ StronglySorted key_le (rows df').
Proof.
  destruct (retained reversed_draw None fcd_small) as [df' | e] eqn:Hret;
    [| vm_compute in Hret; discriminate ].
  exists df'. split; [ reflexivity |].
  destruct (retained_rows_come_from_the_window _ _ _ _ Hret) as (_ & Hs & _).
  split; [| exact Hs ].
  vm_compute in Hret. now injection Hret as <-.
Defined.

(** ** Minimum and maximum of an array *)

Lemma Qmin_cases (x y : Q) :
  (Qmin x y = x /\ (x <= y)%Q) \/ (Qmin x y = y /\ (y <= x)%Q).
Proof.
  unfold Qmin, GenericMinMax.gmin. destruct (x ?= y)%Q eqn:E.
  - left. split; trivial. apply Qeq_alt in E. rewrite E. apply Qle_refl.
  - left. split; trivial. apply Qlt_alt in E. now apply Qlt_le_weak.
  - right. split; trivial. apply Qgt_alt in E. now apply Qlt_le_weak.
Qed.

Lemma Qmax_cases (x y : Q) :
  (Qmax x y = x /\ (y <= x)%Q) \/ (Qmax x y = y /\ (x <= y)%Q).
Proof.
  unfold Qmax, GenericMinMax.gmax. destruct (x ?= y)%Q eqn:E.
  - left. split; trivial. apply Qeq_alt in E. rewrite E. apply Qle_refl.
  - right. split; trivial. apply Qlt_alt in E. now apply Qlt_le_weak.
  - left. split; trivial. apply Qgt_alt in E. now apply Qlt_le_weak.
Qed.

Lemma fold_Qmin_spec (l : list Q) :
  forall x : Q,
    In (fold_left Qmin l x) (x :: l)
    /\ Forall (fun y => (fold_left Qmin l x <= y)%Q) (x :: l).
Proof.
  induction l as [| y l IH]; intros x.
  - cbn. split; [ now left |]. constructor; [ apply Qle_refl | constructor ].
  - cbn [fold_left]. destruct (IH (Qmin x y)) as [Hin Hall].
    inversion Hall as [| ? ? Hm Hrest]; subst.
    destruct (Qmin_cases x y) as [[E Hle] | [E Hle]]; rewrite E in *.
    + split.
      * destruct Hin as [<- | Hin]; [ now left | right; now right ].
      * constructor; trivial. constructor; trivial.
        exact (Qle_trans _ _ _ Hm Hle).
    + split.
      * destruct Hin as [<- | Hin]; [ right; now left | right; now right ].
      * constructor; [ exact (Qle_trans _ _ _ Hm Hle) |].
        constructor; trivial.
Qed.

Lemma fold_Qmax_spec (l : list Q) :
  forall x : Q,
    In (fold_left Qmax l x) (x :: l)
    /\ Forall (fun y => (y <= fold_left Qmax l x)%Q) (x :: l).
Proof.
  induction l as [| y l IH]; intros x.
  - cbn. split; [ now left |]. constructor; [ apply Qle_refl | constructor ].
  - cbn [fold_left]. destruct (IH (Qmax x y)) as [Hin Hall].
    inversion Hall as [| ? ? Hm Hrest]; subst.
    destruct (Qmax_cases x y) as [[E Hle] | [E Hle]]; rewrite E in *.
    + split.
      * destruct Hin as [<- | Hin]; [ now left | right; now right ].
      * constructor; trivial. constructor; trivial.
        exact (Qle_trans _ _ _ Hle Hm).
    + split.
      * destruct Hin as [<- | Hin]; [ right; now left | right; now right ].
      * constructor; [ exact (Qle_trans _ _ _ Hle Hm) |].
        constructor; trivial.
Qed.

Lemma amin_spec (a : list Q) (m : Q) :
  np.amin a = Ok m -> In m a /\ Forall (fun y => (m <= y)%Q) a.
Proof.
  destruct a as [| x a]; [ discriminate |].
  cbn [np.amin]. intros [= <-]. apply fold_Qmin_spec.
Qed.

Lemma amax_spec (a : list Q) (m : Q) :
  np.amax a = Ok m -> In m a /\ Forall (fun y => (y <= m)%Q) a.
Proof.
  destruct a as [| x a]; [ discriminate |].
  cbn [np.amax]. intros [= <-]. apply fold_Qmax_spec.
Qed.

(** ** Rows of groups and lengths of columns *)

Lemma total_len_ge_length (gs : list (string * DataFrame)) :
  Forall (fun kg => 0 < len (snd kg)) gs -> length gs <= total_len gs.
Proof.
  induction 1 as [| [k g] gs Hg _ IH]; [ unfold total_len; simpl; lia |].
  rewrite total_len_cons. cbn [snd] in Hg. simpl. lia.
Qed.

Lemma columns_of_len (b : Buffers) :
  length (offsets b) = length (vehicle_ids b) + 1 ->
  Forall (fun c => pa.len (snd c) = length (vehicle_ids b)) (columns_of b).
Proof.
  intros Ho. unfold columns_of.
  repeat constructor; cbn [snd pa.len]; rewrite ?array_of_strs_len; lia.
Qed.

Lemma sample_Some_Ok (permutation : nat -> list nat) (n : Z)
      (d d' : DataFrame) :
  sample permutation (Some n) d = Ok d' ->
  let a := unique (map vehicle_id (rows d)) in
  (0 <= n)%Z
  /\ d' = loc (isin (drawn a (Nat.min (Z.to_nat n) (length a))
                           (permutation (length a)))) d.
Proof.
  cbn zeta. unfold sample, np.random_choice.
  set (a := unique (map vehicle_id (rows d))).
  set (size := Z.min n (Z.of_nat (length a))).
  destruct ((length a =? 0)%nat && negb (size =? 0)%Z); [ discriminate |].
  destruct (Z.ltb_spec (Z.of_nat (length a)) size); [ discriminate |].
  destruct (Z.ltb_spec size 0); [ discriminate |].
  cbn [bind]. intros [= <-].
  assert (Hn : (0 <= n)%Z) by (unfold size in *; lia).
  split; [ exact Hn |].
  unfold drawn. replace (Z.to_nat size) with (Nat.min (Z.to_nat n) (length a))
    by (unfold size; lia).
  reflexivity.
Qed.

(** ** A sample count of zero *)

(** X10: a sample count of 0 does not disable the sampling: it removes
    every row, and the script raises [ValueError] at [timestamps.min()]
    whatever the input. *)
Theorem sample_count_zero_raises
        (f32 : Q -> Q) (permutation : nat -> list nat) (df : DataFrame) :
  (exists df' : DataFrame,
      retained permutation (Some 0%Z) df = Ok df' /\ rows df' = [])
  /\ main f32 permutation (Some 0%Z) df
     = Raise (ValueError
         "zero-size array to reduction operation minimum which has no identity").
Proof.
  destruct (sample permutation (Some 0%Z) (sort_values (filter_rows df)))
    as [df' | e] eqn:Hs.
  - assert (Hs' := Hs). apply sample_Some_Ok in Hs'. cbn zeta in Hs'.
    destruct Hs' as [_ Hdf]. cbn [Z.to_nat Nat.min] in Hdf.
    assert (Hrows : rows df' = []).
    { rewrite Hdf. cbn [loc rows drawn firstn map]. apply filter_none.
      reflexivity. }
    split; [ exists df'; now split |].
    unfold main, retained. rewrite Hs. cbn [bind].
    now rewrite (flatten_empty f32 df' Hrows).
  - exfalso. unfold sample, np.random_choice in Hs.
    rewrite Z.min_l in Hs by lia. rewrite Z.eqb_refl, andb_false_r in Hs.
    destruct (Z.ltb_spec (Z.of_nat (length (unique (map vehicle_id
                 (rows (sort_values (filter_rows df))))))) 0); [ lia |].
    discriminate.
Qed.

(** ** When the loop raises *)



(** ** The flattened array of coordinates *)

Lemma flatten_C_nth (a : list (Q * Q)) :
  forall j : nat,
    j < length a ->
    nth (2 * j) (np.flatten_C a) 0%Q = fst (nth j a (0, 0)%Q)
    /\ nth (2 * j + 1) (np.flatten_C a) 0%Q = snd (nth j a (0, 0)%Q).
Proof.
  induction a as [| p a IH]; intros j Hj; [ simpl in Hj; lia |].
  destruct j as [| j].
  - split; reflexivity.
  - simpl in Hj. destruct (IH j) as [Hx Hy]; [ lia |].
    replace (2 * S j) with (S (S (2 * j))) by lia.
    replace (S (S (2 * j)) + 1) with (S (S (2 * j + 1))) by lia.
    unfold np.flatten_C in *. cbn [flat_map app nth fst snd]. now split.
Qed.

(** * The script on raw identifiers *)

(** ** Order of the raw identifiers *)

Lemma raw_compare_refl (a : raw.Id) : raw.compare a a = Eq.
Proof.
  destruct a as [z | s]; simpl; [ apply Z.compare_refl | apply str_compare_refl ].
Qed.

Lemma raw_compare_eq (a b : raw.Id) : raw.compare a b = Eq -> a = b.
Proof.
  destruct a as [x | x], b as [y | y]; simpl; try discriminate; intros H.
  - apply Z.compare_eq in H. now subst.
  - apply str_compare_eq in H. now subst.
Qed.

Lemma raw_compare_gt (a b : raw.Id) : raw.compare a b = Gt <-> raw.lt b a.
Proof.
  unfold raw.lt. destruct a as [x | x], b as [y | y]; simpl.
  - rewrite (Z.compare_antisym x y). destruct (x ?= y)%Z; simpl; intuition congruence.
  - intuition congruence.
  - intuition congruence.
  - rewrite str_compare_gt. reflexivity.
Qed.

Lemma raw_lt_trans (a b c : raw.Id) : raw.lt a b -> raw.lt b c -> raw.lt a c.
Proof.
  unfold raw.lt.
  destruct a as [x | x], b as [y | y], c as [z | z]; simpl;
    try discriminate; trivial.
  - rewrite !Z.compare_lt_iff. lia.
  - intros H1 H2. exact (transitivity (R := String_as_OT.lt) H1 H2).
Qed.

Lemma raw_lt_irrefl (a : raw.Id) : ~ raw.lt a a.
Proof. unfold raw.lt. rewrite raw_compare_refl. discriminate. Qed.

Lemma raw_eqb_eq (a b : raw.Id) : raw.eqb a b = true <-> a = b.
Proof.
  destruct a as [x | x], b as [y | y]; simpl.
  - rewrite Z.eqb_eq. split; [ now intros -> | now intros [= ->] ].
  - split; discriminate.
  - split; discriminate.
  - rewrite String.eqb_eq. split; [ now intros -> | now intros [= ->] ].
Qed.

Lemma raw_eqb_refl (a : raw.Id) : raw.eqb a a = true.
Proof. now apply raw_eqb_eq. Qed.

Lemma raw_cell_eqb_eq (a b : option raw.Id) : raw.cell_eqb a b = true <-> a = b.
Proof.
  destruct a as [x |], b as [y |]; simpl.
  - rewrite raw_eqb_eq. split; [ now intros -> | now intros [= ->] ].
  - split; discriminate.
  - split; discriminate.
  - tauto.
Qed.

(** ** The sort on raw identifiers *)

Lemma raw_key_le_trans (a b c : raw.Row) :
  raw.key_le a b -> raw.key_le b c -> raw.key_le a c.
Proof.
  unfold raw.key_le, raw.key_leb.
  destruct (raw.vehicle_id a) as [ka |], (raw.vehicle_id b) as [kb |],
    (raw.vehicle_id c) as [kc |]; try discriminate; trivial.
  - destruct (raw.compare ka kb) eqn:Hab; try discriminate;
      destruct (raw.compare kb kc) eqn:Hbc; try discriminate; intros H1 H2.
    + apply raw_compare_eq in Hab, Hbc. subst. rewrite raw_compare_refl.
      apply Qle_bool_iff. apply Qle_bool_iff in H1, H2.
      exact (Qle_trans _ _ _ H1 H2).
    + apply raw_compare_eq in Hab. subst. now rewrite Hbc.
    + apply raw_compare_eq in Hbc. subst. now rewrite Hab.
    + now rewrite (raw_lt_trans _ _ _ Hab Hbc).
  - intros H1 H2. apply Qle_bool_iff. apply Qle_bool_iff in H1, H2.
    exact (Qle_trans _ _ _ H1 H2).
Qed.

Lemma raw_key_leb_total (a b : raw.Row) :
  raw.key_leb a b = false -> raw.key_le b a.
Proof.
  assert (Ht : Qle_bool (raw.timestep_time a) (raw.timestep_time b) = false ->
               Qle_bool (raw.timestep_time b) (raw.timestep_time a) = true).
  { intros H. apply Qle_bool_iff.
    destruct (Qlt_le_dec (raw.timestep_time a) (raw.timestep_time b))
      as [Hlt | Hle]; trivial.
    apply Qlt_le_weak in Hlt. apply Qle_bool_iff in Hlt. congruence. }
  unfold raw.key_le, raw.key_leb.
  destruct (raw.vehicle_id a) as [ka |], (raw.vehicle_id b) as [kb |];
    try discriminate; trivial.
  destruct (raw.compare ka kb) eqn:Hab; try discriminate; intros H.
  - apply raw_compare_eq in Hab. subst. rewrite raw_compare_refl. now apply Ht.
  - apply raw_compare_gt in Hab. unfold raw.lt in Hab. now rewrite Hab.
Qed.

Lemma raw_insert_row_perm (r : raw.Row) (l : list raw.Row) :
  Permutation (r :: l) (raw.insert_row r l).
Proof.
  induction l as [| x l IH]; simpl; [ reflexivity |].
  destruct (raw.key_leb r x); [ reflexivity |].
  rewrite perm_swap. now constructor.
Qed.

Lemma raw_stable_sort_perm (l : list raw.Row) :
  Permutation l (raw.stable_sort l).
Proof.
  induction l as [| x l IH]; simpl; [ constructor |].
  rewrite <- raw_insert_row_perm. now constructor.
Qed.

Lemma raw_insert_row_sorted (r : raw.Row) (l : list raw.Row) :
  StronglySorted raw.key_le l -> StronglySorted raw.key_le (raw.insert_row r l).
Proof.
  induction 1 as [| x l Hs IH Hx]; simpl.
  - repeat constructor.
  - destruct (raw.key_leb r x) eqn:E.
    + constructor; [ now constructor |].
      constructor; [ exact E |].
      eapply Forall_impl; [| exact Hx ].
      intros y Hy. exact (raw_key_le_trans _ _ _ E Hy).
    + constructor; [ exact IH |].
      apply (Permutation_Forall (raw_insert_row_perm r l)).
      constructor; [ now apply raw_key_leb_total | exact Hx ].
Qed.

Lemma raw_stable_sort_sorted (l : list raw.Row) :
  StronglySorted raw.key_le (raw.stable_sort l).
Proof.
  induction l as [| x l IH]; simpl; [ constructor |].
  now apply raw_insert_row_sorted.
Qed.

(** ** Group keys on raw identifiers *)

Lemma raw_insert_key_In (k x : raw.Id) (l : list raw.Id) :
  In x (raw.insert_key k l) <-> x = k \/ In x l.
Proof.
  induction l as [| y l IH]; simpl.
  - intuition.
  - destruct (raw.compare k y) eqn:E; simpl.
    + apply raw_compare_eq in E. subst y. intuition.
    + intuition.
    + rewrite IH. intuition.
Qed.

Lemma raw_insert_key_sorted (k : raw.Id) (l : list raw.Id) :
  StronglySorted raw.lt l -> StronglySorted raw.lt (raw.insert_key k l).
Proof.
  induction 1 as [| y l Hs IH Hy]; simpl.
  - repeat constructor.
  - destruct (raw.compare k y) eqn:E.
    + now constructor.
    + constructor; [ now constructor |].
      constructor; [ exact E |].
      eapply Forall_impl; [| exact Hy ].
      intros z Hz. exact (raw_lt_trans _ _ _ E Hz).
    + constructor; [ exact IH |].
      apply Forall_forall. intros z Hz. apply raw_insert_key_In in Hz.
      destruct Hz as [-> | Hz].
      * now apply raw_compare_gt.
      * rewrite Forall_forall in Hy. now apply Hy.
Qed.

Lemma raw_keys_sorted (l : list raw.Id) :
  StronglySorted raw.lt (fold_right raw.insert_key [] l).
Proof.
  induction l as [| k l IH]; simpl; [ constructor |].
  now apply raw_insert_key_sorted.
Qed.

Lemma raw_keys_In (l : list raw.Id) (k : raw.Id) :
  In k (fold_right raw.insert_key [] l) <-> In k l.
Proof.
  induction l as [| x l IH]; simpl; [ reflexivity |].
  rewrite raw_insert_key_In, IH. intuition.
Qed.

Lemma raw_dropna_In (l : list (option raw.Id)) (k : raw.Id) :
  In k (raw.dropna l) <-> In (Some k) l.
Proof.
  unfold raw.dropna. rewrite in_flat_map. split.
  - intros [[x |] [Hc Hk]]; simpl in Hk; [| tauto ].
    destruct Hk as [-> | []]. exact Hc.
  - intros H. exists (Some k). split; [ exact H | now left ].
Qed.

Lemma raw_group_keys_sorted (df : raw.DataFrame) :
  StronglySorted raw.lt (raw.group_keys df).
Proof. apply raw_keys_sorted. Qed.

Lemma raw_group_keys_In (df : raw.DataFrame) (k : raw.Id) :
  In k (raw.group_keys df) <-> In (Some k) (map raw.vehicle_id (raw.rows df)).
Proof. unfold raw.group_keys. now rewrite raw_keys_In, raw_dropna_In. Qed.

Lemma raw_sorted_NoDup (l : list raw.Id) : StronglySorted raw.lt l -> NoDup l.
Proof.
  induction 1 as [| x l Hs IH Hx]; constructor; trivial.
  intros Hin. rewrite Forall_forall in Hx.
  exact (raw_lt_irrefl x (Hx x Hin)).
Qed.

Lemma raw_group_keys_NoDup (df : raw.DataFrame) : NoDup (raw.group_keys df).
Proof. apply raw_sorted_NoDup, raw_group_keys_sorted. Qed.

Lemma raw_indicator_sum (x : raw.Id) (keys : list raw.Id) :
  NoDup keys -> In x keys ->
  list_sum (map (fun k => if raw.cell_eqb (Some x) (Some k) then 1 else 0) keys)
  = 1.
Proof.
  cbn [raw.cell_eqb].
  induction 1 as [| k keys Hk Hnd IH]; simpl; [ tauto |].
  intros [-> | Hin].
  - rewrite raw_eqb_refl.
    assert (H0 : list_sum (map (fun k => if raw.eqb x k then 1 else 0) keys) = 0).
    { clear IH Hnd. induction keys as [| y keys IH]; simpl; [ reflexivity |].
      destruct (raw.eqb x y) eqn:E.
      - apply raw_eqb_eq in E. subst y. exfalso. apply Hk. now left.
      - apply IH. intros H. apply Hk. now right. }
    now rewrite H0.
  - destruct (raw.eqb x k) eqn:E.
    + apply raw_eqb_eq in E. subst k. contradiction.
    + now apply IH.
Qed.

(** The groups of distinct keys covering every identifier partition the
    rows that carry one. *)
Lemma raw_groups_partition (keys : list raw.Id) (l : list raw.Row) :
  NoDup keys ->
  (forall r k, In r l -> raw.vehicle_id r = Some k -> In k keys) ->
  list_sum
    (map (fun k =>
            length (filter (fun r => raw.cell_eqb (raw.vehicle_id r) (Some k)) l))
         keys)
  = length (filter raw.has_id l).
Proof.
  intros Hnd. induction l as [| x l IH]; intros Hin.
  - simpl. clear Hnd Hin.
    induction keys as [| k keys IHk]; simpl; [ reflexivity | exact IHk ].
  - rewrite (map_ext _
      (fun k => (if raw.cell_eqb (raw.vehicle_id x) (Some k) then 1 else 0)
                + length (filter (fun r => raw.cell_eqb (raw.vehicle_id r) (Some k)) l))).
    + rewrite list_sum_map_add, IH by (intros r k Hr; apply Hin; now right).
      cbn [filter]. unfold raw.has_id at 2.
      destruct (raw.vehicle_id x) as [kx |] eqn:Ex.
      * rewrite raw_indicator_sum; trivial. apply (Hin x); [ now left | exact Ex ].
      * cbn [raw.cell_eqb]. rewrite map_const_repeat.
        clear. induction (length keys); simpl; trivial.
    + intros k. simpl.
      now destruct (raw.cell_eqb (raw.vehicle_id x) (Some k)).
Qed.

(** ** The loop on raw identifiers *)

Lemma raw_loop_groups (f32 : Q -> Q) (gs : list (raw.Id * raw.DataFrame)) :
  forall (i : nat) (b : Buffers),
    raw.loop f32 i gs b
    = loop f32 i (map (fun kg => (raw.str (fst kg), raw.frame (snd kg))) gs) b.
Proof.
  induction gs as [| [k g] gs IH]; intros i b; [ reflexivity |].
  cbn [raw.loop map loop fst snd]. unfold raw.body.
  destruct (body f32 i (raw.str k) (raw.frame g) b) as [b' | e]; cbn [bind];
    [ apply IH | reflexivity ].
Qed.

Lemma raw_groups_length (df : raw.DataFrame) :
  length (raw.groups df) = length (raw.groupby df).
Proof. unfold raw.groups. apply length_map. Qed.

Lemma raw_groupby_length (df : raw.DataFrame) :
  length (raw.groupby df) = length (raw.group_keys df).
Proof. unfold raw.groupby. apply length_map. Qed.

Lemma raw_total_len (df : raw.DataFrame) :
  total_len (raw.groups df) = length (raw.identified df).
Proof.
  unfold total_len, raw.groups, raw.groupby. rewrite !map_map. cbn [snd fst].
  unfold raw.frame, len. cbn [rows].
  rewrite (map_ext _
    (fun k => length (filter (fun r => raw.cell_eqb (raw.vehicle_id r) (Some k))
                             (raw.rows df)))).
  - apply raw_groups_partition.
    + apply raw_group_keys_NoDup.
    + intros r k Hr Hk. apply raw_group_keys_In. rewrite <- Hk. now apply in_map.
  - intros k. now rewrite length_map.
Qed.

Lemma filter_split_length {A} (p : A -> bool) (l : list A) :
  length (filter p l) + length (filter (fun a => negb (p a)) l) = length l.
Proof.
  induction l as [| a l IH]; simpl; [ reflexivity |].
  destruct (p a); simpl; lia.
Qed.

Lemma raw_len_split (df : raw.DataFrame) :
  raw.len df = length (raw.identified df) + raw.missing df.
Proof.
  unfold raw.len, raw.identified, raw.missing.
  now rewrite filter_split_length.
Qed.

(** When the rows in groups fit the offsets array the loop computes
    [raw.flattened]. *)
Lemma raw_flatten_flattened (f32 : Q -> Q) (df : raw.DataFrame) :
  raw.fits_int32 df -> raw.flatten f32 df = Ok (raw.flattened f32 df).
Proof.
  intros Hfit. unfold raw.flatten, raw.flattened.
  rewrite raw_loop_groups. fold (raw.groups df).
  rewrite init_pad, <- raw_groups_length.
  rewrite (loop_pad f32 (raw.groups df) 0 (raw.len df) start start_filled).
  - rewrite raw_total_len, raw_len_split. f_equal. f_equal. lia.
  - rewrite raw_total_len, raw_len_split. lia.
  - reflexivity.
  - now rewrite raw_total_len.
Qed.

Lemma raw_flatten_overflow (f32 : Q -> Q) (df : raw.DataFrame) :
  ~ raw.fits_int32 df ->
  raw.flatten f32 df
  = Raise (OverflowError "Python integer out of bounds for int32").
Proof.
  intros Hbig. unfold raw.flatten.
  rewrite raw_loop_groups. fold (raw.groups df).
  rewrite init_pad, <- raw_groups_length.
  apply (loop_overflow f32 (raw.groups df) 0 (raw.len df) start start_filled).
  - rewrite raw_total_len, raw_len_split. lia.
  - reflexivity.
  - unfold np.INT32_MAX. simpl. lia.
  - rewrite raw_total_len. unfold raw.fits_int32 in Hbig. simpl. lia.
Qed.

Lemma raw_flatten_Ok (f32 : Q -> Q) (df : raw.DataFrame) (b : Buffers) :
  raw.flatten f32 df = Ok b -> raw.fits_int32 df /\ b = raw.flattened f32 df.
Proof.
  intros H.
  destruct (Z_le_gt_dec (Z.of_nat (length (raw.identified df))) np.INT32_MAX)
    as [Hfit | Hbig].
  - split; [ exact Hfit |].
    rewrite (raw_flatten_flattened f32 df Hfit) in H. now injection H.
  - rewrite raw_flatten_overflow in H; [ discriminate |].
    unfold raw.fits_int32. lia.
Qed.

Lemma raw_flatten_total (f32 : Q -> Q) (df : raw.DataFrame) :
  raw.fits_int32 df -> exists b : Buffers, raw.flatten f32 df = Ok b.
Proof.
  intros H. exists (raw.flattened f32 df). now apply raw_flatten_flattened.
Qed.

(** The rows in groups, group after group, as rows of the frame. *)
Lemma raw_group_rows (df : raw.DataFrame) :
  group_rows (raw.groups df)
  = map raw.values (flat_map (raw.trip_rows df) (raw.group_keys df)).
Proof.
  unfold group_rows, raw.groups, raw.groupby.
  induction (raw.group_keys df) as [| k ks IH]; [ reflexivity |].
  cbn [map flat_map snd fst]. rewrite map_app, IH. reflexivity.
Qed.

Lemma raw_group_cells {B} (c : DataFrame -> Row -> B) (df : raw.DataFrame) :
  (forall k r, c (raw.frame (raw.get_group df k)) r = c (raw.frame df) r) ->
  group_cells c (raw.groups df)
  = map (c (raw.frame df)) (group_rows (raw.groups df)).
Proof.
  intros Hc. unfold group_cells, group_rows, raw.groups, raw.groupby.
  induction (raw.group_keys df) as [| k ks IH]; [ reflexivity |].
  cbn [map flat_map snd fst]. rewrite map_app, IH. f_equal.
  apply map_ext. apply Hc.
Qed.

Lemma raw_groups_keys (df : raw.DataFrame) :
  map fst (raw.groups df) = map raw.str (raw.group_keys df).
Proof.
  unfold raw.groups, raw.groupby. rewrite !map_map. reflexivity.
Qed.

Section RawClosed.

Variable f32 : Q -> Q.

Lemma raw_flattened_fields (df : raw.DataFrame) :
  let b := raw.flattened f32 df in
  let rs := group_rows (raw.groups df) in
  let fr := raw.frame df in
  let z := raw.missing df in
  offsets b = map Z.of_nat (0 :: boundaries 0 (raw.groups df))
  /\ coords b = map (coord_cell f32) rs ++ repeat (0, 0)%Q z
  /\ timestamps b = map (time_cell f32) rs ++ repeat 0%Q z
  /\ speeds b
     = map (cell f32 "vehicle_speed" vehicle_speed 0%Q fr) rs ++ repeat 0%Q z
  /\ edges b = map (edge_cell fr) rs
  /\ positions b
     = map (cell f32 "vehicle_pos" vehicle_pos 0%Q fr) rs ++ repeat 0%Q z
  /\ relative_speeds b
     = map (cell f32 "vehicle_speedRelative" vehicle_speedRelative 1%Q fr) rs
       ++ repeat 0%Q z
  /\ angles b
     = map (cell f32 "vehicle_angle" vehicle_angle 0%Q fr) rs ++ repeat 0%Q z
  /\ vehicle_ids b = map raw.str (raw.group_keys df)
  /\ length rs = length (raw.identified df).
Proof.
  cbn zeta. unfold raw.flattened, pad.
  cbn [offsets coords timestamps speeds edges positions relative_speeds
       angles vehicle_ids current_offset repeat].
  destruct (fold_step_fields f32 (raw.groups df) start)
    as (Ho & Hc & Ht & Hs & He & Hp & Hr & Ha & Hv & Hn).
  rewrite Ho, Hc, Ht, Hs, He, Hp, Hr, Ha, Hv. unfold start.
  cbn [offsets coords timestamps speeds edges positions relative_speeds
       angles vehicle_ids current_offset app].
  rewrite !raw_group_cells by reflexivity.
  rewrite raw_groups_keys, app_nil_r.
  rewrite group_rows_length, raw_total_len.
  repeat split; reflexivity.
Qed.

End RawClosed.

(** ** Frames of strings

    On a frame whose identifiers are strings, none missing, the script on
    raw identifiers is the script of [pd]. *)

Lemma raw_values_of_row (r : Row) : raw.values (raw.of_row r) = r.
Proof. now destruct r. Qed.

Lemma raw_frame_of_frame (df : DataFrame) : raw.frame (raw.of_frame df) = df.
Proof.
  destruct df as [cols rs]. unfold raw.frame, raw.of_frame.
  cbn [raw.columns raw.rows columns rows]. f_equal.
  rewrite map_map. rewrite <- (map_id rs) at 2.
  apply map_ext. apply raw_values_of_row.
Qed.

Lemma filter_map_comm {A B} (f : A -> B) (p : B -> bool) (q : A -> bool)
      (l : list A) :
  (forall a, p (f a) = q a) -> filter p (map f l) = map f (filter q l).
Proof.
  intros H. induction l as [| a l IH]; [ reflexivity |].
  cbn [map filter]. rewrite H, IH. now destruct (q a).
Qed.

Lemma raw_loc_of_frame (p : raw.Row -> bool) (q : Row -> bool) (df : DataFrame) :
  (forall r, p (raw.of_row r) = q r) ->
  raw.loc p (raw.of_frame df) = raw.of_frame (loc q df).
Proof.
  intros H. unfold raw.loc, raw.of_frame, loc.
  cbn [raw.columns raw.rows columns rows]. f_equal.
  now apply filter_map_comm.
Qed.

Lemma raw_insert_row_of_row (r : Row) (l : list Row) :
  raw.insert_row (raw.of_row r) (map raw.of_row l)
  = map raw.of_row (insert_row r l).
Proof.
  induction l as [| x l IH]; [ reflexivity |].
  cbn [map raw.insert_row insert_row].
  change (raw.key_leb (raw.of_row r) (raw.of_row x)) with (key_leb r x).
  destruct (key_leb r x); [ reflexivity |].
  cbn [map]. now rewrite IH.
Qed.

Lemma raw_sort_of_frame (df : DataFrame) :
  raw.sort_values (raw.of_frame df) = raw.of_frame (sort_values df).
Proof.
  unfold raw.sort_values, raw.of_frame, sort_values.
  cbn [raw.columns raw.rows columns rows]. f_equal.
  induction (rows df) as [| r l IH]; [ reflexivity |].
  cbn [map raw.stable_sort stable_sort fold_right].
  fold (raw.stable_sort (map raw.of_row l)). fold (stable_sort l).
  rewrite IH. apply raw_insert_row_of_row.
Qed.

Lemma raw_ids_of_frame (df : DataFrame) :
  map raw.vehicle_id (raw.rows (raw.of_frame df))
  = map (fun s => Some (raw.Str s)) (map vehicle_id (rows df)).
Proof.
  unfold raw.of_frame. cbn [raw.rows]. rewrite !map_map. reflexivity.
Qed.

Lemma raw_insert_key_Str (k : string) (l : list string) :
  raw.insert_key (raw.Str k) (map raw.Str l) = map raw.Str (insert_key k l).
Proof.
  induction l as [| x l IH]; [ reflexivity |].
  cbn [map raw.insert_key insert_key raw.compare].
  destruct (String_as_OT.compare k x); trivial.
  cbn [map]. now rewrite IH.
Qed.

Lemma raw_group_keys_of_frame (df : DataFrame) :
  raw.group_keys (raw.of_frame df) = map raw.Str (group_keys df).
Proof.
  unfold raw.group_keys, group_keys. rewrite raw_ids_of_frame.
  induction (map vehicle_id (rows df)) as [| k l IH]; [ reflexivity |].
  cbn [map raw.dropna flat_map app fold_right].
  fold (raw.dropna (map (fun s => Some (raw.Str s)) l)).
  rewrite IH. apply raw_insert_key_Str.
Qed.

Lemma raw_groups_of_frame (df : DataFrame) :
  raw.groups (raw.of_frame df) = groupby df.
Proof.
  unfold raw.groups, raw.groupby, groupby.
  rewrite raw_group_keys_of_frame, !map_map. cbn [fst snd raw.str].
  apply map_ext. intros k. f_equal.
  unfold raw.get_group, get_group.
  rewrite (raw_loc_of_frame _ (fun r => String.eqb (vehicle_id r) k))
    by reflexivity.
  apply raw_frame_of_frame.
Qed.

Lemma raw_flatten_of_frame (f32 : Q -> Q) (df : DataFrame) :
  raw.flatten f32 (raw.of_frame df) = flatten f32 df.
Proof.
  unfold raw.flatten, flatten. rewrite raw_loop_groups.
  fold (raw.groups (raw.of_frame df)).
  rewrite <- raw_groups_length, raw_groups_of_frame.
  unfold raw.len, raw.of_frame, len. cbn [raw.rows]. now rewrite length_map.
Qed.

Lemma raw_unique_of_strs (l : list string) :
  raw.unique (map (fun s => Some (raw.Str s)) l)
  = map (fun s => Some (raw.Str s)) (unique l).
Proof.
  induction l as [| x l IH]; [ reflexivity |].
  cbn [map raw.unique unique]. rewrite IH. f_equal.
  now apply filter_map_comm.
Qed.

Lemma raw_isin_of_row (values : list string) (r : Row) :
  raw.isin (map (fun s => Some (raw.Str s)) values) (raw.of_row r)
  = isin values r.
Proof.
  unfold raw.isin, isin. cbn [raw.of_row raw.vehicle_id].
  induction values as [| v values IH]; [ reflexivity |].
  cbn [map existsb raw.cell_eqb raw.eqb]. now rewrite IH.
Qed.

Lemma raw_retained_of_frame (permutation : nat -> list nat)
      (SAMPLE_VEHICLES : option Z) (df : DataFrame) :
  (forall m, Permutation (permutation m) (seq 0 m)) ->
  raw.retained permutation SAMPLE_VEHICLES (raw.of_frame df)
  = (df' <- retained permutation SAMPLE_VEHICLES df ;; Ok (raw.of_frame df')).
Proof.
  intros Hperm. unfold raw.retained, retained, raw.filter_rows, filter_rows.
  rewrite (raw_loc_of_frame raw.time_window time_window) by reflexivity.
  rewrite raw_sort_of_frame.
  set (d := sort_values (loc time_window df)).
  unfold raw.sample, sample. destruct SAMPLE_VEHICLES as [n |];
    [| reflexivity ].
  rewrite raw_ids_of_frame, raw_unique_of_strs.
  set (a := unique (map vehicle_id (rows d))).
  unfold raw.random_choice, np.random_choice. rewrite length_map.
  set (size := Z.min n (Z.of_nat (length a))).
  destruct ((length a =? 0)%nat && negb (size =? 0)%Z); [ reflexivity |].
  destruct (Z.of_nat (length a) <? size)%Z; [ reflexivity |].
  destruct (size <? 0)%Z; [ reflexivity |].
  cbn [bind].
  assert (Hs : map (fun i => nth i (map (fun s => Some (raw.Str s)) a) None)
                   (firstn (Z.to_nat size) (permutation (length a)))
               = map (fun s => Some (raw.Str s))
                     (map (fun i => nth i a "")
                          (firstn (Z.to_nat size) (permutation (length a))))).
  { rewrite map_map. apply map_ext_in. intros i Hi.
    assert (Hlt : i < length a).
    { apply In_firstn in Hi.
      apply (Permutation_in _ (Hperm (length a))) in Hi.
      apply in_seq in Hi. lia. }
    rewrite (nth_indep _ None (Some (raw.Str ""))) by now rewrite length_map.
    apply (map_nth (fun s => Some (raw.Str s))). }
  rewrite Hs. f_equal. apply raw_loc_of_frame. apply raw_isin_of_row.
Qed.

Lemma raw_main_of_frame (f32 : Q -> Q) (permutation : nat -> list nat)
      (SAMPLE_VEHICLES : option Z) (df : DataFrame) :
  (forall m, Permutation (permutation m) (seq 0 m)) ->
  raw.main f32 permutation SAMPLE_VEHICLES (raw.of_frame df)
  = main f32 permutation SAMPLE_VEHICLES df.
Proof.
  intros Hperm. unfold raw.main, main.
  rewrite raw_retained_of_frame by exact Hperm.
  destruct (retained permutation SAMPLE_VEHICLES df) as [df' | e];
    cbn [bind]; [| reflexivity ].
  rewrite raw_flatten_of_frame.
  rewrite raw_groupby_length, raw_group_keys_of_frame, length_map,
    <- groupby_length.
  unfold raw.len, raw.of_frame. cbn [raw.rows]. rewrite length_map.
  reflexivity.
Qed.

(** ** Trips of the padded buffers *)

(** The [i]-th list of a list array whose offsets are the boundaries of the
    groups is what the [i]-th group contributed, whatever follows the
    contributions of the groups in the values. *)
Lemma list_value_group_post {A} (f : string * DataFrame -> list A)
      (gs : list (string * DataFrame)) (kg0 : string * DataFrame)
      (post : list A) :
  (forall kg, length (f kg) = len (snd kg)) ->
  forall (i : nat) (pre : list A),
    i < length gs ->
    pa.list_value (map Z.of_nat (length pre :: boundaries (length pre) gs))
                  (pre ++ flat_map f gs ++ post) i
    = f (nth i gs kg0).
Proof.
  intros Hf. induction gs as [| kg gs IH]; intros i pre Hi; [ simpl in Hi; lia |].
  destruct i as [| i].
  - unfold pa.list_value. cbn [boundaries map nth flat_map].
    rewrite !Nat2Z.id, Nat.add_comm, Nat.add_sub, <- (Hf kg).
    rewrite skipn_app, Nat.sub_diag, skipn_all. cbn [skipn app].
    rewrite <- app_assoc.
    rewrite firstn_app, Nat.sub_diag, firstn_all. cbn [firstn]. apply app_nil_r.
  - cbn [boundaries flat_map nth]. simpl in Hi.
    specialize (IH i (pre ++ f kg)). rewrite length_app, Hf in IH.
    rewrite <- app_assoc in IH. rewrite <- IH by lia.
    now rewrite <- app_assoc.
Qed.

Lemma raw_groups_nth (df : raw.DataFrame) (i : nat) (kg0 : string * DataFrame) :
  i < length (raw.group_keys df) ->
  let k := nth i (raw.group_keys df) (raw.Int 0) in
  nth i (raw.groups df) kg0 = (raw.str k, raw.frame (raw.get_group df k)).
Proof.
  intros Hi. cbn zeta. unfold raw.groups, raw.groupby. rewrite map_map.
  cbn [fst snd].
  rewrite (nth_indep _ kg0
             ((fun k => (raw.str k, raw.frame (raw.get_group df k))) (raw.Int 0))).
  - apply (map_nth (fun k => (raw.str k, raw.frame (raw.get_group df k)))).
  - now rewrite length_map.
Qed.

Section RawTrips.

Variable f32 : Q -> Q.

(** A trip of a column of cells is the column over the rows of its
    vehicle. *)
Lemma raw_trip_cells {B} (c : Row -> B) (column : Buffers -> list B)
      (post : list B) (df : raw.DataFrame) (i : nat) :
  column (raw.flattened f32 df)
  = map c (group_rows (raw.groups df)) ++ post ->
  i < length (raw.group_keys df) ->
  trip (raw.flattened f32 df) column i
  = map c (map raw.values
             (raw.trip_rows df (nth i (raw.group_keys df) (raw.Int 0)))).
Proof.
  intros Hcol Hi. unfold trip. rewrite Hcol.
  destruct (raw_flattened_fields f32 df) as (-> & _).
  rewrite map_group_rows.
  assert (Hi' : i < length (raw.groups df))
    by now rewrite raw_groups_length, raw_groupby_length.
  etransitivity.
  - exact (list_value_group_post (fun kg => map c (rows (snd kg)))
             (raw.groups df) ("", raw.frame df) post
             (fun kg => length_map c _) i [] Hi').
  - rewrite raw_groups_nth by trivial. reflexivity.
Qed.

End RawTrips.

Lemma raw_missing_pos (df : raw.DataFrame) (r : raw.Row) :
  In r (raw.rows df) -> raw.vehicle_id r = None -> 0 < raw.missing df.
Proof.
  intros Hr Hid. unfold raw.missing.
  assert (Hin : In r (filter (fun r => negb (raw.has_id r)) (raw.rows df))).
  { apply filter_In. split; trivial. unfold raw.has_id. now rewrite Hid. }
  destruct (filter _ (raw.rows df)); [ contradiction | simpl; lia ].
Qed.

(** ** The offsets array *)

(** C2: for every frame given to the flattening step, the loop ends
    normally when the rows that carry an identifier fit the int32 offsets
    array, and whenever it ends normally the offsets array has one entry
    more than there are trips, is non-decreasing and starts at 0; but it
    ends at the number of rows that carry an identifier, which is less than
    the number of rows of the frame as soon as one row has none. *)
Theorem offsets_end_at_identified_rows (f32 : Q -> Q) (df : raw.DataFrame) :
  (raw.fits_int32 df -> exists b : Buffers, raw.flatten f32 df = Ok b)
  /\ forall b : Buffers,
      raw.flatten f32 df = Ok b ->
      length (vehicle_ids b) = length (raw.groupby df)
      /\ length (offsets b) = length (vehicle_ids b) + 1
      /\ StronglySorted Z.le (offsets b)
      /\ nth 0 (offsets b) 0%Z = 0%Z
      /\ last (offsets b) 0%Z = Z.of_nat (length (raw.identified df))
      /\ Z.of_nat (raw.len df)
         = (last (offsets b) 0 + Z.of_nat (raw.missing df))%Z
      /\ ((exists r : raw.Row,
              In r (raw.rows df) /\ raw.vehicle_id r = None) ->
          (last (offsets b) 0 < Z.of_nat (raw.len df))%Z).
Proof.
  split; [ apply raw_flatten_total |].
  intros b Hb. apply raw_flatten_Ok in Hb. destruct Hb as [_ ->].
  destruct (raw_flattened_fields f32 df)
    as (Ho & _ & _ & _ & _ & _ & _ & _ & Hv & _).
  assert (Hlast : last (offsets (raw.flattened f32 df)) 0%Z
                  = Z.of_nat (length (raw.identified df))).
  { rewrite Ho. change 0%Z with (Z.of_nat 0).
    now rewrite last_map, boundaries_last, raw_total_len. }
  rewrite Hlast, Hv, Ho, length_map, raw_groupby_length.
  repeat split.
  - rewrite length_map. cbn [length].
    rewrite boundaries_length, raw_groups_length, raw_groupby_length. lia.
  - apply (StronglySorted_map le Z.le Z.of_nat).
    + intros x y _ _. apply Nat2Z.inj_le.
    + apply boundaries_sorted.
  - rewrite raw_len_split. lia.
  - intros [r [Hr Hid]]. pose proof (raw_missing_pos df r Hr Hid).
    rewrite raw_len_split. lia.
Qed.

Lemma offsets_end_at_identified_rows_witness :
  exists (df' : raw.DataFrame) (b : Buffers),
    raw.retained reversed_draw SAMPLE_VEHICLES_configured fcd_missing_id = Ok df'
    /\ raw.flatten f32_exact df' = Ok b
    /\ raw.len df' = 3
    /\ offsets b = [0; 2]%Z
    /\ (last (offsets b) 0 < Z.of_nat (raw.len df'))%Z.
Proof.
  destruct (raw.retained reversed_draw SAMPLE_VEHICLES_configured fcd_missing_id)
    as [df' | e] eqn:Hret; [| vm_compute in Hret; discriminate ].
  assert (Hret' := Hret). vm_compute in Hret'. injection Hret' as Hdf.
  destruct (offsets_end_at_identified_rows f32_exact df') as [Htotal Hinv].
  destruct Htotal as [b Hb].
  - rewrite <- Hdf. unfold raw.fits_int32, np.INT32_MAX. simpl. lia.
  - exists df', b. split; [ reflexivity |]. split; [ exact Hb |].
    destruct (Hinv b Hb) as (_ & _ & _ & _ & _ & _ & Hless).
    split; [ now rewrite <- Hdf |]. split.
    + rewrite <- Hdf in Hb. vm_compute in Hb. now injection Hb as <-.
    + apply Hless. rewrite <- Hdf. eexists. split; [ right; right; now left |].
      reflexivity.
Defined.

(** ** Alignment of the seven columns *)

(** C3: for every frame given to the flattening step, whenever the loop
    ends normally the seven sequences of every trip [i] are the cells of
    one and the same list of rows, the rows of vehicle [i] in the order of
    the frame, and their common length is [offsets[i+1] - offsets[i]]; but
    the flat columns do not all have one element per row of the frame: the
    six float arrays have, their elements after the last offset being the
    zeros of the allocation, while [edges] has one element per row that
    carries an identifier. *)
Theorem trips_aligned_on_identified_rows (f32 : Q -> Q) (df : raw.DataFrame) :
  (raw.fits_int32 df -> exists b : Buffers, raw.flatten f32 df = Ok b)
  /\ forall b : Buffers,
      raw.flatten f32 df = Ok b ->
      (length (coords b) = raw.len df
       /\ length (timestamps b) = raw.len df
       /\ length (speeds b) = raw.len df
       /\ length (positions b) = raw.len df
       /\ length (relative_speeds b) = raw.len df
       /\ length (angles b) = raw.len df)
      /\ length (edges b) = length (raw.identified df)
      /\ length (edges b) + raw.missing df = raw.len df
      /\ (skipn (length (edges b)) (coords b) = repeat (0, 0)%Q (raw.missing df)
          /\ skipn (length (edges b)) (timestamps b) = repeat 0%Q (raw.missing df))
      /\ forall i : nat,
          i < length (vehicle_ids b) ->
          let samples :=
            map raw.values
                (raw.trip_rows df (nth i (raw.group_keys df) (raw.Int 0))) in
          let fr := raw.frame df in
          nth i (vehicle_ids b) "" = raw.str (nth i (raw.group_keys df) (raw.Int 0))
          /\ Z.of_nat (length samples)
             = (nth (S i) (offsets b) 0 - nth i (offsets b) 0)%Z
          /\ trip b coords i = map (coord_cell f32) samples
          /\ trip b timestamps i = map (time_cell f32) samples
          /\ trip b speeds i
             = map (cell f32 "vehicle_speed" vehicle_speed 0%Q fr) samples
          /\ trip b edges i = map (edge_cell fr) samples
          /\ trip b positions i
             = map (cell f32 "vehicle_pos" vehicle_pos 0%Q fr) samples
          /\ trip b relative_speeds i
             = map (cell f32 "vehicle_speedRelative" vehicle_speedRelative 1%Q fr)
                   samples
          /\ trip b angles i
             = map (cell f32 "vehicle_angle" vehicle_angle 0%Q fr) samples.
Proof.
  split; [ apply raw_flatten_total |].
  intros b Hb. apply raw_flatten_Ok in Hb. destruct Hb as [_ ->].
  destruct (raw_flattened_fields f32 df)
    as (Ho & Hc & Ht & Hs & He & Hp & Hr & Ha & Hv & Hn).
  assert (Hel : length (edges (raw.flattened f32 df))
                = length (raw.identified df))
    by now rewrite He, length_map.
  split; [| split; [ exact Hel | split; [| split ]]].
  - rewrite Hc, Ht, Hs, Hp, Hr, Ha, !length_app, !length_map, !repeat_length,
      Hn, raw_len_split.
    repeat split; reflexivity.
  - rewrite Hel. symmetry. apply raw_len_split.
  - rewrite Hel, <- Hn, Hc, Ht.
    rewrite <- (length_map (coord_cell f32)) at 1.
    rewrite <- (length_map (time_cell f32)).
    rewrite !skipn_app, !Nat.sub_diag, !skipn_all. now split.
  - intros i Hi. cbn zeta. rewrite Hv, length_map in Hi. split; [| split ].
    + rewrite Hv.
      rewrite (nth_indep _ "" (raw.str (raw.Int 0))) by now rewrite length_map.
      apply map_nth.
    + rewrite Ho.
      pose proof (raw_groups_nth df i ("", raw.frame df) Hi) as Hnth.
      cbn zeta in Hnth.
      set (k := nth i (raw.group_keys df) (raw.Int 0)) in *.
      change 0%Z with (Z.of_nat 0). rewrite !map_nth.
      rewrite (boundaries_diff (raw.groups df) ("", raw.frame df))
        by now rewrite raw_groups_length, raw_groupby_length.
      rewrite Hnth. cbn [snd].
      unfold raw.frame, raw.get_group, raw.loc, len. cbn [rows raw.rows].
      unfold raw.trip_rows. rewrite !length_map. lia.
    + repeat split.
      * now apply (raw_trip_cells f32 _ coords (repeat (0, 0)%Q (raw.missing df))).
      * now apply (raw_trip_cells f32 _ timestamps (repeat 0%Q (raw.missing df))).
      * now apply (raw_trip_cells f32 _ speeds (repeat 0%Q (raw.missing df))).
      * apply (raw_trip_cells f32 _ edges []); [ now rewrite app_nil_r | trivial ].
      * now apply (raw_trip_cells f32 _ positions (repeat 0%Q (raw.missing df))).
      * now apply (raw_trip_cells f32 _ relative_speeds
                     (repeat 0%Q (raw.missing df))).
      * now apply (raw_trip_cells f32 _ angles (repeat 0%Q (raw.missing df))).
Qed.

Lemma trips_aligned_on_identified_rows_witness :
  exists (df' : raw.DataFrame) (b : Buffers),
    raw.retained reversed_draw SAMPLE_VEHICLES_configured fcd_missing_id = Ok df'
    /\ raw.flatten f32_exact df' = Ok b
    /\ raw.len df' = 3
    /\ timestamps b = [25201%Q; 25202%Q; 0%Q]
    /\ coords b = [(1%Q, 1%Q); (3%Q, 3%Q); (0%Q, 0%Q)]
    /\ edges b = ["e0"; "e1"]
    /\ length (edges b) + raw.missing df' = raw.len df'.
Proof.
  destruct (raw.retained reversed_draw SAMPLE_VEHICLES_configured fcd_missing_id)
    as [df' | e] eqn:Hret; [| vm_compute in Hret; discriminate ].
  assert (Hret' := Hret). vm_compute in Hret'. injection Hret' as Hdf.
  destruct (trips_aligned_on_identified_rows f32_exact df') as [Htotal Hinv].
  destruct Htotal as [b Hb].
  - rewrite <- Hdf. unfold raw.fits_int32, np.INT32_MAX. simpl. lia.
  - exists df', b. split; [ reflexivity |]. split; [ exact Hb |].
    destruct (Hinv b Hb) as (_ & _ & Hsum & _).
    split; [ now rewrite <- Hdf |].
    assert (Hb' := Hb). rewrite <- Hdf in Hb'. vm_compute in Hb'.
    injection Hb' as Hbuf.
    repeat split; trivial; now rewrite <- Hbuf.
Defined.

(** ** Order of the trips *)

(** C9, as stated, fails on integer identifiers: the groups are iterated in
    the order of the raw keys, 2 before 10, and the column holds their
    [str], which is not ascending. *)
Lemma vehicle_ids_of_integers_not_ascending :
  exists (df' : raw.DataFrame) (b : Buffers),
    raw.retained reversed_draw SAMPLE_VEHICLES_configured fcd_int_ids = Ok df'
    /\ raw.flatten f32_exact df' = Ok b
    /\ vehicle_ids b = ["2"; "10"]
    /\ ~ StronglySorted String_as_OT.lt (vehicle_ids b).
Proof.
  eexists. eexists. split; [ vm_compute; reflexivity |].
  split; [ vm_compute; reflexivity |].
  cbn [vehicle_ids]. split; [ reflexivity |].
  intros H. apply StronglySorted_inv in H. destruct H as [_ H].
  apply Forall_inv in H. vm_compute in H. discriminate.
Qed.

Lemma raw_str_sorted (l : list raw.Id) :
  (forall k, In k l -> exists s, k = raw.Str s) ->
  StronglySorted raw.lt l -> StronglySorted String_as_OT.lt (map raw.str l).
Proof.
  intros Hstr. apply StronglySorted_map.
  intros x y Hx Hy Hxy.
  destruct (Hstr x Hx) as [sx ->], (Hstr y Hy) as [sy ->]. exact Hxy.
Qed.

(** C9 (amended): whenever the loop ends normally (it does when the rows
    in groups fit the int32 offsets array), it has emitted the trips in
    strictly ascending order of the raw identifier, integers in numeric
    order and strings in string order, and the [vehicle_id] column holds
    the [str] of these identifiers in that order; it is strictly ascending
    itself when the identifiers of the frame are strings. *)
Theorem vehicle_ids_in_key_order (f32 : Q -> Q) (df : raw.DataFrame) :
  (raw.fits_int32 df -> exists b : Buffers, raw.flatten f32 df = Ok b)
  /\ forall b : Buffers,
      raw.flatten f32 df = Ok b ->
      map fst (raw.groupby df) = raw.group_keys df
      /\ StronglySorted raw.lt (raw.group_keys df)
      /\ vehicle_ids b = map raw.str (raw.group_keys df)
      /\ ((forall (r : raw.Row) (k : raw.Id),
              In r (raw.rows df) -> raw.vehicle_id r = Some k ->
              exists s : string, k = raw.Str s) ->
          StronglySorted String_as_OT.lt (vehicle_ids b)).
Proof.
  split; [ apply raw_flatten_total |].
  intros b Hb. apply raw_flatten_Ok in Hb. destruct Hb as [_ ->].
  destruct (raw_flattened_fields f32 df)
    as (_ & _ & _ & _ & _ & _ & _ & _ & Hv & _).
  rewrite Hv. split; [| split; [ apply raw_group_keys_sorted | split ]].
  - unfold raw.groupby. rewrite map_map. cbn [fst]. apply map_id.
  - reflexivity.
  - intros Hstr. apply raw_str_sorted; [| apply raw_group_keys_sorted ].
    intros k Hk. apply raw_group_keys_In, in_map_iff in Hk.
    destruct Hk as [r [Hid Hr]]. exact (Hstr r k Hr Hid).
Qed.

Lemma vehicle_ids_in_key_order_witness :
  exists b : Buffers,
    raw.flatten f32_exact (raw.sort_values (raw.filter_rows fcd_int_ids)) = Ok b
    /\ raw.group_keys (raw.sort_values (raw.filter_rows fcd_int_ids))
       = [raw.Int 2; raw.Int 10]
    /\ vehicle_ids b = ["2"; "10"].
Proof.
  destruct (vehicle_ids_in_key_order f32_exact
              (raw.sort_values (raw.filter_rows fcd_int_ids))) as [Htotal Hinv].
  destruct Htotal as [b Hb].
  - unfold raw.fits_int32, np.INT32_MAX. simpl. lia.
  - exists b. destruct (Hinv b Hb) as (_ & _ & Hv & _).
    split; [ exact Hb |]. split; [ reflexivity |].
    rewrite Hv. reflexivity.
Defined.

(** ** The assembled table *)

Lemma raw_trip_rows_nonempty (df : raw.DataFrame) (k : raw.Id) :
  In k (raw.group_keys df) -> raw.trip_rows df k <> [].
Proof.
  intros Hk. apply raw_group_keys_In, in_map_iff in Hk.
  destruct Hk as [r [Hid Hr]]. intros E.
  assert (Hin : In r (raw.trip_rows df k)).
  { unfold raw.trip_rows. apply filter_In. split; trivial.
    now apply raw_cell_eqb_eq. }
  rewrite E in Hin. exact Hin.
Qed.

Lemma raw_groups_nonempty (df : raw.DataFrame) :
  Forall (fun kg => 0 < len (snd kg)) (raw.groups df).
Proof.
  apply Forall_forall. intros kg Hkg. unfold raw.groups, raw.groupby in Hkg.
  rewrite map_map in Hkg. apply in_map_iff in Hkg.
  destruct Hkg as [k [<- Hk]]. cbn [snd fst].
  pose proof (raw_trip_rows_nonempty df k Hk) as Hne.
  unfold raw.frame, raw.get_group, raw.loc, len. cbn [rows raw.rows].
  rewrite length_map. unfold raw.trip_rows in Hne.
  destruct (filter _ (raw.rows df)); [ congruence | simpl; lia ].
Qed.

Lemma raw_trips_le_identified (df : raw.DataFrame) :
  length (raw.group_keys df) <= length (raw.identified df).
Proof.
  rewrite <- raw_total_len, <- raw_groupby_length, <- raw_groups_length.
  apply total_len_ge_length, raw_groups_nonempty.
Qed.

Lemma raw_no_group (df : raw.DataFrame) :
  raw.group_keys df = [] -> raw.identified df = [].
Proof.
  intros Hk. apply length_zero_iff_nil. rewrite <- raw_total_len.
  unfold raw.groups, raw.groupby. now rewrite Hk.
Qed.

Lemma raw_flattened_lengths (f32 : Q -> Q) (df : raw.DataFrame) :
  let b := raw.flattened f32 df in
  length (offsets b) = length (vehicle_ids b) + 1
  /\ length (vehicle_ids b) = length (raw.group_keys df)
  /\ length (timestamps b) = raw.len df
  /\ length (edges b) = length (raw.identified df).
Proof.
  cbn zeta.
  destruct (raw_flattened_fields f32 df)
    as (Ho & _ & Ht & _ & He & _ & _ & _ & Hv & Hn).
  rewrite Ho, Ht, He, Hv, length_app, !length_map, repeat_length, Hn.
  cbn [length].
  rewrite boundaries_length, raw_groups_length, raw_groupby_length,
    raw_len_split.
  repeat split; lia.
Qed.

(** What a normal end of the script tells about its steps. *)
Lemma raw_main_steps (f32 : Q -> Q) (permutation : nat -> list nat)
      (SAMPLE_VEHICLES : option Z) (df : raw.DataFrame) (out : Output) :
  raw.main f32 permutation SAMPLE_VEHICLES df = Ok out ->
  exists df' : raw.DataFrame,
    raw.retained permutation SAMPLE_VEHICLES df = Ok df'
    /\ raw.flatten f32 df' = Ok (raw.flattened f32 df')
    /\ np.amin (timestamps (raw.flattened f32 df')) = Ok (min_timestamp out)
    /\ np.amax (timestamps (raw.flattened f32 df')) = Ok (max_timestamp out)
    /\ table out = columns_of (raw.flattened f32 df')
    /\ geoms_num out = length (raw.groupby df')
    /\ coord_num out = raw.len df'.
Proof.
  unfold raw.main. intros H.
  apply bind_Ok in H. destruct H as (df' & Hret & H).
  apply bind_Ok in H. destruct H as (b & Hb & H).
  assert (Hb' := Hb). apply raw_flatten_Ok in Hb'. destruct Hb' as [_ ->].
  apply bind_Ok in H. destruct H as (tmin & Hmin & H).
  apply bind_Ok in H. destruct H as (tmax & Hmax & H).
  apply bind_Ok in H. destruct H as (t & Ht & H).
  injection H as <-. apply assemble_Ok in Ht.
  exists df'. cbn [table geoms_num coord_num min_timestamp max_timestamp].
  repeat split; trivial.
Qed.

(** The script ends normally when some row is retained, with or without
    identifier, and the rows in groups fit the offsets array. *)
Lemma raw_main_retained (f32 : Q -> Q) (permutation : nat -> list nat)
      (SAMPLE_VEHICLES : option Z) (df df' : raw.DataFrame) :
  raw.retained permutation SAMPLE_VEHICLES df = Ok df' ->
  raw.len df' <> 0 -> raw.fits_int32 df' ->
  exists out : Output, raw.main f32 permutation SAMPLE_VEHICLES df = Ok out.
Proof.
  intros Hret Hn Hfit. unfold raw.main. rewrite Hret. cbn [bind].
  rewrite raw_flatten_flattened by trivial. cbn [bind].
  destruct (raw_flattened_lengths f32 df') as (Ho & _ & Hl & _).
  rewrite (assemble_columns _ Ho).
  destruct (timestamps (raw.flattened f32 df')) as [| x ts];
    [ simpl in Hl; congruence |].
  cbn [np.amin np.amax bind]. eauto.
Qed.

(** C8: the script builds its table whenever some row is retained (the
    rows in groups fitting the int32 offsets array), and the table it
    builds has the eight columns [geometry], [timestamps], [speeds],
    [edges], [positions], [relative_speeds], [angles], [vehicle_id] in this
    order, with one entry per trip, the first seven being list arrays over
    the offsets array of the loop and the buffers of the loop.  With at
    least one trip the types are those of the trips layer; with none, which
    happens when no retained row carries an identifier, [edges] is a list
    of nulls and [vehicle_id] a null array. *)
Theorem table_columns_and_types
        (f32 : Q -> Q) (permutation : nat -> list nat)
        (SAMPLE_VEHICLES : option Z) (df : raw.DataFrame) :
  (forall df' : raw.DataFrame,
      raw.retained permutation SAMPLE_VEHICLES df = Ok df' ->
      raw.len df' <> 0 -> raw.fits_int32 df' ->
      exists out : Output, raw.main f32 permutation SAMPLE_VEHICLES df = Ok out)
  /\ forall out : Output,
      raw.main f32 permutation SAMPLE_VEHICLES df = Ok out ->
      exists (df' : raw.DataFrame) (b : Buffers),
        raw.retained permutation SAMPLE_VEHICLES df = Ok df'
        /\ raw.flatten f32 df' = Ok b
        /\ geoms_num out = length (vehicle_ids b)
        /\ length (offsets b) = geoms_num out + 1
        /\ table out
           = [ ("geometry",
                pa.ListArray (offsets b)
                  (pa.FixedSizeListArray
                     (pa.FloatArray (np.flatten_C (coords b))) 2));
               ("timestamps",
                pa.ListArray (offsets b) (pa.FloatArray (timestamps b)));
               ("speeds", pa.ListArray (offsets b) (pa.FloatArray (speeds b)));
               ("edges", pa.ListArray (offsets b) (pa.array_of_strs (edges b)));
               ("positions",
                pa.ListArray (offsets b) (pa.FloatArray (positions b)));
               ("relative_speeds",
                pa.ListArray (offsets b) (pa.FloatArray (relative_speeds b)));
               ("angles", pa.ListArray (offsets b) (pa.FloatArray (angles b)));
               ("vehicle_id", pa.array_of_strs (vehicle_ids b)) ]
        /\ pa.column_names (table out)
           = ["geometry"; "timestamps"; "speeds"; "edges"; "positions";
              "relative_speeds"; "angles"; "vehicle_id"]
        /\ Forall (fun c => pa.len (snd c) = geoms_num out) (table out)
        /\ (geoms_num out <> 0 ->
            pa.array_of_strs (edges b) = pa.StringArray (edges b)
            /\ pa.array_of_strs (vehicle_ids b) = pa.StringArray (vehicle_ids b)
            /\ pa.schema (table out) = trips_schema)
        /\ (geoms_num out = 0 ->
            raw.identified df' = []
            /\ raw.missing df' = raw.len df'
            /\ pa.schema (table out) = raw.no_trip_schema).
Proof.
  split; [ intros df'; apply raw_main_retained |].
  intros out H. apply raw_main_steps in H.
  destruct H as (df' & Hret & Hb & _ & _ & Ht & Hg & _).
  exists df', (raw.flattened f32 df').
  destruct (raw_flattened_lengths f32 df') as (Ho & Hv & _ & He).
  rewrite raw_groupby_length in Hg.
  assert (Hgv : geoms_num out = length (vehicle_ids (raw.flattened f32 df')))
    by congruence.
  split; [ exact Hret |]. split; [ exact Hb |]. split; [ exact Hgv |].
  split; [ lia |]. split; [ exact Ht |].
  split; [ now rewrite Ht |]. split; [| split ].
  - rewrite Ht, Hgv. now apply columns_of_len.
  - intros Hpos.
    assert (Hids : vehicle_ids (raw.flattened f32 df') <> []).
    { intros E. rewrite E in Hgv. simpl in Hgv. lia. }
    assert (Hedges : edges (raw.flattened f32 df') <> []).
    { intros E. rewrite E in He. simpl in He.
      pose proof (raw_trips_le_identified df'). lia. }
    split; [ now apply array_of_strs_nonempty |].
    split; [ now apply array_of_strs_nonempty |].
    rewrite Ht. unfold columns_of.
    rewrite (array_of_strs_nonempty _ Hedges), (array_of_strs_nonempty _ Hids).
    reflexivity.
  - intros Hzero.
    assert (Hk : raw.group_keys df' = [])
      by (apply length_zero_iff_nil; lia).
    pose proof (raw_no_group df' Hk) as Hid.
    split; [ exact Hid |]. split.
    + rewrite raw_len_split, Hid. reflexivity.
    + rewrite Ht. unfold columns_of.
      rewrite Hid in He.
      apply length_zero_iff_nil in He. rewrite He.
      assert (Hv0 : vehicle_ids (raw.flattened f32 df') = [])
        by (apply length_zero_iff_nil; lia).
      rewrite Hv0. reflexivity.
Qed.

Lemma table_columns_and_types_witness :
  exists out : Output,
    raw.main f32_exact reversed_draw SAMPLE_VEHICLES_configured fcd_no_id = Ok out
    /\ geoms_num out = 0
    /\ coord_num out = 2
    /\ pa.schema (table out) = raw.no_trip_schema
    /\ pa.schema (table out) <> trips_schema.
Proof.
  destruct (table_columns_and_types f32_exact reversed_draw
              SAMPLE_VEHICLES_configured fcd_no_id) as [Htotal Hcols].
  destruct (Htotal (raw.sort_values (raw.filter_rows fcd_no_id))) as [out Hout].
  - reflexivity.
  - discriminate.
  - unfold raw.fits_int32, np.INT32_MAX. simpl. lia.
  - exists out. split; [ exact Hout |].
    destruct (Hcols out Hout)
      as (df' & b & _ & _ & _ & _ & _ & _ & _ & _ & Hzero).
    assert (Hout' := Hout). vm_compute in Hout'. injection Hout' as Hval.
    assert (Hg : geoms_num out = 0) by now rewrite <- Hval.
    destruct (Hzero Hg) as (_ & _ & Hs).
    split; [ exact Hg |]. split; [ now rewrite <- Hval |].
    split; [ exact Hs |]. rewrite Hs. discriminate.
Defined.

(** * Further properties of the script on raw identifiers *)

(** ** The retained rows *)

Lemma raw_retained_rows (permutation : nat -> list nat)
      (SAMPLE_VEHICLES : option Z) (df df' : raw.DataFrame) :
  raw.retained permutation SAMPLE_VEHICLES df = Ok df' ->
  raw.columns df' = raw.columns df
  /\ exists p : raw.Row -> bool,
      raw.rows df'
      = filter p (raw.stable_sort (filter raw.time_window (raw.rows df))).
Proof.
  unfold raw.retained, raw.sample. destruct SAMPLE_VEHICLES as [n |].
  - destruct (raw.random_choice _ _ _) as [sampled | e]; cbn [bind];
      [| discriminate ].
    intros [= <-]. split; [ reflexivity |].
    exists (raw.isin sampled). reflexivity.
  - intros [= <-]. split; [ reflexivity |].
    exists (fun _ => true). cbn [raw.sort_values raw.rows raw.filter_rows raw.loc].
    symmetry. apply filter_all.
Qed.

Lemma raw_retained_sorted (permutation : nat -> list nat)
      (SAMPLE_VEHICLES : option Z) (df df' : raw.DataFrame) :
  raw.retained permutation SAMPLE_VEHICLES df = Ok df' ->
  StronglySorted raw.key_le (raw.rows df').
Proof.
  intros Hret. destruct (raw_retained_rows _ _ _ _ Hret) as (_ & p & ->).
  apply StronglySorted_filter, raw_stable_sort_sorted.
Qed.

Lemma raw_time_window_spec (r : raw.Row) :
  raw.time_window r = true
  <-> (25200 < raw.timestep_time r)%Q /\ (raw.timestep_time r < 26100)%Q.
Proof.
  unfold raw.time_window. rewrite andb_true_iff, !Qlt_bool_iff.
  destruct window_bounds as [-> ->]. tauto.
Qed.

Lemma raw_retained_in_window (permutation : nat -> list nat)
      (SAMPLE_VEHICLES : option Z) (df df' : raw.DataFrame) (r : raw.Row) :
  raw.retained permutation SAMPLE_VEHICLES df = Ok df' ->
  In r (raw.rows df') ->
  In r (raw.rows df)
  /\ (25200 < raw.timestep_time r)%Q /\ (raw.timestep_time r < 26100)%Q.
Proof.
  intros Hret Hr. destruct (raw_retained_rows _ _ _ _ Hret) as (_ & p & Hrows).
  rewrite Hrows in Hr. apply filter_In in Hr. destruct Hr as [Hr _].
  apply (Permutation_in _ (Permutation_sym (raw_stable_sort_perm _))) in Hr.
  apply filter_In in Hr.
  destruct Hr as [Hr Hw]. split; [ exact Hr |]. now apply raw_time_window_spec.
Qed.

(** ** The groups of a sorted frame *)

Lemma raw_flat_map_filter_skip (x : raw.Row) (l : list raw.Row)
      (ks : list raw.Id) :
  (forall k, In k ks -> Some k <> raw.vehicle_id x) ->
  flat_map (fun k => filter (fun r => raw.cell_eqb (raw.vehicle_id r) (Some k))
                            (x :: l)) ks
  = flat_map (fun k => filter (fun r => raw.cell_eqb (raw.vehicle_id r) (Some k))
                              l) ks.
Proof.
  intros Hks. induction ks as [| k ks IH]; [ reflexivity |].
  cbn [flat_map]. rewrite IH by (intros k' Hk'; apply Hks; now right).
  f_equal. cbn [filter].
  destruct (raw.cell_eqb (raw.vehicle_id x) (Some k)) eqn:E; [| reflexivity ].
  apply raw_cell_eqb_eq in E.
  exfalso. apply (Hks k); [ now left | now symmetry ].
Qed.

Lemma raw_key_le_ids (a b : raw.Row) (ka kb : raw.Id) :
  raw.key_le a b -> raw.vehicle_id a = Some ka -> raw.vehicle_id b = Some kb ->
  raw.compare ka kb <> Gt.
Proof.
  unfold raw.key_le, raw.key_leb. intros H Ha Hb. rewrite Ha, Hb in H.
  destruct (raw.compare ka kb); congruence.
Qed.

(** The groups of rows sorted by vehicle, taken in key order, are the rows
    that carry an identifier, cut into consecutive blocks. *)
Lemma raw_groups_of_sorted (l : list raw.Row) :
  StronglySorted raw.key_le l ->
  forall keys : list raw.Id,
    keys = fold_right raw.insert_key [] (raw.dropna (map raw.vehicle_id l)) ->
    flat_map (fun k => filter (fun r => raw.cell_eqb (raw.vehicle_id r) (Some k)) l)
             keys
    = filter raw.has_id l.
Proof.
  induction 1 as [| x l Hs IH Hx]; intros keys Hkeys.
  - subst keys. reflexivity.
  - remember (fold_right raw.insert_key [] (raw.dropna (map raw.vehicle_id l)))
      as keys' eqn:Hkeys'.
    specialize (IH keys' eq_refl).
    assert (Hsorted : StronglySorted raw.lt keys')
      by (subst keys'; apply raw_keys_sorted).
    assert (Hin : forall k, In k keys' <-> In (Some k) (map raw.vehicle_id l))
      by (intros k; subst keys'; now rewrite raw_keys_In, raw_dropna_In).
    cbn [map raw.dropna flat_map] in Hkeys.
    fold (raw.dropna (map raw.vehicle_id l)) in Hkeys.
    destruct (raw.vehicle_id x) as [kx |] eqn:Ex.
    + assert (Hrhs : filter raw.has_id (x :: l) = x :: filter raw.has_id l)
        by (cbn [filter]; unfold raw.has_id at 1; now rewrite Ex).
      assert (Hhead : filter (fun r => raw.cell_eqb (raw.vehicle_id r) (Some kx))
                             (x :: l)
                      = x :: filter (fun r => raw.cell_eqb (raw.vehicle_id r)
                                                           (Some kx)) l).
      { cbn [filter]. rewrite Ex. cbn [raw.cell_eqb].
        now rewrite raw_eqb_refl. }
      rewrite Hrhs.
      cbn [app fold_right] in Hkeys. rewrite <- Hkeys' in Hkeys.
      assert (Hge : forall k, In k keys' -> raw.compare kx k <> Gt).
      { intros k Hk. apply Hin, in_map_iff in Hk. destruct Hk as [r [Hid Hr]].
        rewrite Forall_forall in Hx.
        exact (raw_key_le_ids x r kx k (Hx r Hr) Ex Hid). }
      clear Hkeys'. destruct keys' as [| k1 ks].
      * cbn [flat_map] in IH. subst keys. cbn [raw.insert_key].
        rewrite flat_map_head, Hhead. cbn [flat_map]. rewrite app_nil_r.
        f_equal. rewrite <- IH. apply filter_none.
        intros r Hr. destruct (raw.cell_eqb (raw.vehicle_id r) (Some kx)) eqn:E;
          trivial.
        apply raw_cell_eqb_eq in E. exfalso.
        apply (proj2 (Hin kx)). rewrite <- E. now apply in_map.
      * apply StronglySorted_inv in Hsorted. destruct Hsorted as [_ Hks].
        rewrite Forall_forall in Hks.
        cbn [raw.insert_key] in Hkeys.
        destruct (raw.compare kx k1) eqn:E.
        -- apply raw_compare_eq in E. subst k1 keys.
           rewrite flat_map_head, raw_flat_map_filter_skip.
           ++ rewrite Hhead. rewrite flat_map_head in IH.
              cbn [app]. now rewrite IH.
           ++ intros k Hk E'. rewrite Ex in E'. injection E' as ->.
              exact (raw_lt_irrefl _ (Hks kx Hk)).
        -- assert (Hne : forall k, In k (k1 :: ks) -> Some k <> raw.vehicle_id x).
           { intros k Hk E'. rewrite Ex in E'. injection E' as ->.
             destruct Hk as [-> | Hk].
             - exact (raw_lt_irrefl _ E).
             - exact (raw_lt_irrefl _ (raw_lt_trans _ _ _ E (Hks _ Hk))). }
           subst keys. rewrite flat_map_head.
           rewrite (raw_flat_map_filter_skip x l (k1 :: ks) Hne), IH, Hhead.
           rewrite filter_none; [ reflexivity |].
           intros r Hr.
           destruct (raw.cell_eqb (raw.vehicle_id r) (Some kx)) eqn:E'; trivial.
           apply raw_cell_eqb_eq in E'. exfalso.
           apply (Hne kx); [| now rewrite Ex ].
           apply Hin. rewrite <- E'. now apply in_map.
        -- exfalso. apply (Hge k1); [ now left | exact E ].
    + assert (Hrhs : filter raw.has_id (x :: l) = filter raw.has_id l)
        by (cbn [filter]; unfold raw.has_id at 1; now rewrite Ex).
      rewrite Hrhs.
      cbn [app] in Hkeys. rewrite <- Hkeys' in Hkeys. subst keys.
      rewrite raw_flat_map_filter_skip; [ exact IH |].
      intros k _. rewrite Ex. discriminate.
Qed.

Lemma raw_group_rows_sorted (df : raw.DataFrame) :
  StronglySorted raw.key_le (raw.rows df) ->
  group_rows (raw.groups df) = map raw.values (raw.identified df).
Proof.
  intros Hs. rewrite raw_group_rows. f_equal. unfold raw.identified.
  now apply raw_groups_of_sorted.
Qed.

Lemma filter_every {A} (p : A -> bool) (l : list A) :
  (forall a, In a l -> p a = true) -> filter p l = l.
Proof.
  induction l as [| a l IH]; intros H; [ reflexivity |].
  cbn [filter]. rewrite (H a) by now left.
  f_equal. apply IH. intros a' Ha'. apply H. now right.
Qed.

(** In a sorted frame the rows without identifier come last. *)
Lemma raw_sorted_identified_first (l : list raw.Row) :
  StronglySorted raw.key_le l ->
  l = filter raw.has_id l ++ filter (fun r => negb (raw.has_id r)) l.
Proof.
  induction 1 as [| x l Hs IH Hx]; [ reflexivity |].
  cbn [filter]. destruct (raw.has_id x) eqn:Ex; cbn [negb app].
  - now rewrite <- IH.
  - assert (Hnone : forall r, In r l -> raw.has_id r = false).
    { intros r Hr. rewrite Forall_forall in Hx. specialize (Hx r Hr).
      unfold raw.key_le, raw.key_leb in Hx. unfold raw.has_id in *.
      destruct (raw.vehicle_id x); [ discriminate |].
      destruct (raw.vehicle_id r); [ discriminate | reflexivity ]. }
    rewrite (filter_none raw.has_id l Hnone). cbn [app]. f_equal.
    symmetry. apply filter_every. intros r Hr. now rewrite Hnone.
Qed.

(** ** The flat buffers follow the order of the sorted frame *)

(** X3: the rows that reach the loop are sorted by vehicle and time, rows
    without identifier last; the loop copies the cells of the rows that
    carry an identifier to the flat buffers in the order of that frame,
    without moving or dropping any, and leaves in the six float arrays one
    zero of the allocation for every row that carries none. *)
Theorem buffers_follow_the_identified_rows
        (f32 : Q -> Q) (permutation : nat -> list nat)
        (SAMPLE_VEHICLES : option Z) (df df' : raw.DataFrame) (b : Buffers) :
  raw.retained permutation SAMPLE_VEHICLES df = Ok df' ->
  raw.flatten f32 df' = Ok b ->
  let rs := map raw.values (raw.identified df') in
  let fr := raw.frame df' in
  let z := raw.missing df' in
  raw.rows df'
  = raw.identified df' ++ filter (fun r => negb (raw.has_id r)) (raw.rows df')
  /\ coords b = map (coord_cell f32) rs ++ repeat (0, 0)%Q z
  /\ timestamps b = map (time_cell f32) rs ++ repeat 0%Q z
  /\ speeds b
     = map (cell f32 "vehicle_speed" vehicle_speed 0%Q fr) rs ++ repeat 0%Q z
  /\ edges b = map (edge_cell fr) rs
  /\ positions b
     = map (cell f32 "vehicle_pos" vehicle_pos 0%Q fr) rs ++ repeat 0%Q z
  /\ relative_speeds b
     = map (cell f32 "vehicle_speedRelative" vehicle_speedRelative 1%Q fr) rs
       ++ repeat 0%Q z
  /\ angles b
     = map (cell f32 "vehicle_angle" vehicle_angle 0%Q fr) rs ++ repeat 0%Q z.
Proof.
  intros Hret Hb. apply raw_flatten_Ok in Hb. destruct Hb as [_ ->]. cbn zeta.
  pose proof (raw_retained_sorted _ _ _ _ Hret) as Hsorted.
  destruct (raw_flattened_fields f32 df')
    as (_ & Hc & Ht & Hs & He & Hp & Hr & Ha & _ & _).
  rewrite (raw_group_rows_sorted df' Hsorted) in Hc, Ht, Hs, He, Hp, Hr, Ha.
  split; [ now apply raw_sorted_identified_first |].
  repeat split; assumption.
Qed.

Lemma buffers_follow_the_identified_rows_witness :
  exists (df' : raw.DataFrame) (b : Buffers),
    raw.retained reversed_draw SAMPLE_VEHICLES_configured fcd_missing_id = Ok df'
    /\ raw.flatten f32_exact df' = Ok b
    /\ map raw.timestep_time (raw.rows df')
       = [25201%Q; 25202%Q; (50403 # 2)%Q]
    /\ timestamps b = [25201%Q; 25202%Q; 0%Q]
    /\ timestamps b
       = map (time_cell f32_exact) (map raw.values (raw.identified df'))
         ++ repeat 0%Q (raw.missing df').
Proof.
  destruct (raw.retained reversed_draw SAMPLE_VEHICLES_configured fcd_missing_id)
    as [df' | e] eqn:Hret; [| vm_compute in Hret; discriminate ].
  destruct (raw.flatten f32_exact df') as [b | e] eqn:Hb.
  - exists df', b. split; [ reflexivity |]. split; [ exact Hb |].
    destruct (buffers_follow_the_identified_rows f32_exact _ _ _ _ _ Hret Hb)
      as (_ & _ & Ht & _).
    vm_compute in Hret. injection Hret as <-.
    split; [ reflexivity |]. split; [| exact Ht ].
    vm_compute in Hb. now injection Hb as <-.
  - vm_compute in Hret. injection Hret as <-. vm_compute in Hb. discriminate.
Defined.

(** ** Trips and flat buffers *)

Lemma raw_concat_trips {B} (f32 : Q -> Q) (c : Row -> B)
      (column : Buffers -> list B) (post : list B) (df : raw.DataFrame) :
  column (raw.flattened f32 df)
  = map c (group_rows (raw.groups df)) ++ post ->
  concat (map (trip (raw.flattened f32 df) column)
              (seq 0 (length (raw.group_keys df))))
  = map c (group_rows (raw.groups df)).
Proof.
  intros Hcol.
  rewrite (map_ext_in _
    (fun i => map c (map raw.values
                       (raw.trip_rows df (nth i (raw.group_keys df) (raw.Int 0)))))).
  - rewrite <- (map_map (fun i => nth i (raw.group_keys df) (raw.Int 0))
                        (fun k => map c (map raw.values (raw.trip_rows df k)))).
    rewrite map_nth_seq, raw_group_rows.
    induction (raw.group_keys df) as [| k ks IH]; [ reflexivity |].
    cbn [map concat flat_map]. now rewrite IH, !map_app.
  - intros i Hi. apply in_seq in Hi.
    apply (raw_trip_cells f32 c column post); [ exact Hcol | lia ].
Qed.

Lemma firstn_length_app {A} (l post : list A) :
  firstn (length l) (l ++ post) = l.
Proof.
  rewrite firstn_app, Nat.sub_diag, firstn_all. cbn [firstn]. apply app_nil_r.
Qed.

(** X5: when the loop has ended normally, the trips of each column, one
    after the other, are the part of the flat buffer of the column before
    the last offset: every element there belongs to exactly one trip.
    That part is the whole of [edges]; the float buffers go on with one
    element for every row without identifier, which belongs to no trip. *)
Theorem trips_tile_the_buffers_up_to_the_last_offset
        (f32 : Q -> Q) (df : raw.DataFrame) (b : Buffers) :
  raw.flatten f32 df = Ok b ->
  let trips := seq 0 (length (vehicle_ids b)) in
  let n := Z.to_nat (last (offsets b) 0%Z) in
  concat (map (trip b coords) trips) = firstn n (coords b)
  /\ concat (map (trip b timestamps) trips) = firstn n (timestamps b)
  /\ concat (map (trip b speeds) trips) = firstn n (speeds b)
  /\ concat (map (trip b edges) trips) = edges b
  /\ concat (map (trip b positions) trips) = firstn n (positions b)
  /\ concat (map (trip b relative_speeds) trips) = firstn n (relative_speeds b)
  /\ concat (map (trip b angles) trips) = firstn n (angles b)
  /\ n = length (edges b)
  /\ length (timestamps b) = n + raw.missing df.
Proof.
  intros Hb. apply raw_flatten_Ok in Hb. destruct Hb as [_ ->]. cbn zeta.
  destruct (raw_flattened_fields f32 df)
    as (Ho & Hc & Ht & Hs & He & Hp & Hr & Ha & Hv & Hn).
  assert (Hlast : Z.to_nat (last (offsets (raw.flattened f32 df)) 0%Z)
                  = length (group_rows (raw.groups df))).
  { rewrite Ho. change 0%Z with (Z.of_nat 0).
    rewrite last_map, boundaries_last, Nat2Z.id, group_rows_length. reflexivity. }
  rewrite Hlast, Hv, length_map.
  assert (Hfirst : forall {B} (c : Row -> B) (post : list B),
             firstn (length (group_rows (raw.groups df)))
                    (map c (group_rows (raw.groups df)) ++ post)
             = map c (group_rows (raw.groups df))).
  { intros B c post.
    rewrite <- (length_map c (group_rows (raw.groups df))) at 1.
    apply firstn_length_app. }
  repeat split.
  - rewrite Hc. rewrite Hfirst. now apply (raw_concat_trips f32 _ coords _ df Hc).
  - rewrite Ht. rewrite Hfirst.
    now apply (raw_concat_trips f32 _ timestamps _ df Ht).
  - rewrite Hs. rewrite Hfirst. now apply (raw_concat_trips f32 _ speeds _ df Hs).
  - rewrite He. apply (raw_concat_trips f32 _ edges [] df).
    now rewrite app_nil_r.
  - rewrite Hp. rewrite Hfirst.
    now apply (raw_concat_trips f32 _ positions _ df Hp).
  - rewrite Hr. rewrite Hfirst.
    now apply (raw_concat_trips f32 _ relative_speeds _ df Hr).
  - rewrite Ha. rewrite Hfirst. now apply (raw_concat_trips f32 _ angles _ df Ha).
  - now rewrite He, length_map.
  - now rewrite Ht, length_app, length_map, repeat_length.
Qed.

Lemma trips_tile_the_buffers_up_to_the_last_offset_witness :
  exists b : Buffers,
    raw.flatten f32_exact (raw.sort_values (raw.filter_rows fcd_missing_id)) = Ok b
    /\ map (trip b timestamps) [0] = [[25201%Q; 25202%Q]]
    /\ timestamps b = [25201%Q; 25202%Q; 0%Q]
    /\ concat (map (trip b timestamps) [0])
       = firstn (Z.to_nat (last (offsets b) 0%Z)) (timestamps b).
Proof.
  destruct (raw.flatten f32_exact
              (raw.sort_values (raw.filter_rows fcd_missing_id)))
    as [b | e] eqn:Hb; [| vm_compute in Hb; discriminate ].
  exists b. split; [ reflexivity |].
  destruct (trips_tile_the_buffers_up_to_the_last_offset f32_exact _ b Hb)
    as (_ & Ht & _).
  vm_compute in Hb. injection Hb as <-.
  split; [ reflexivity |]. split; [ reflexivity | exact Ht ].
Defined.

(** ** The reported timestamp range *)

Lemma raw_identified_all (df : raw.DataFrame) :
  (forall r, In r (raw.rows df) -> raw.vehicle_id r <> None) ->
  raw.identified df = raw.rows df /\ raw.missing df = 0.
Proof.
  intros H.
  assert (Hid : forall r, In r (raw.rows df) -> raw.has_id r = true).
  { intros r Hr. specialize (H r Hr). unfold raw.has_id.
    destruct (raw.vehicle_id r); [ reflexivity | congruence ]. }
  unfold raw.identified, raw.missing. split.
  - now apply filter_every.
  - rewrite filter_none; [ reflexivity |].
    intros r Hr. now rewrite Hid.
Qed.

(** X7: when the script ends normally, the reported [min_timestamp] and
    [max_timestamp] are elements of the timestamps buffer, the smallest and
    the largest.  When every retained row carries an identifier they lie,
    for a monotone cast, between the casts of the bounds of the time
    window; when some retained row carries none, the buffer holds a zero
    of the allocation and [min_timestamp] is at most 0. *)
Theorem timestamp_range_of_the_buffer
        (f32 : Q -> Q) (permutation : nat -> list nat)
        (SAMPLE_VEHICLES : option Z) (df : raw.DataFrame) (out : Output) :
  (forall x y : Q, (x <= y)%Q -> (f32 x <= f32 y)%Q) ->
  raw.main f32 permutation SAMPLE_VEHICLES df = Ok out ->
  exists (df' : raw.DataFrame) (b : Buffers),
    raw.retained permutation SAMPLE_VEHICLES df = Ok df'
    /\ raw.flatten f32 df' = Ok b
    /\ In (min_timestamp out) (timestamps b)
    /\ In (max_timestamp out) (timestamps b)
    /\ Forall (fun t => (min_timestamp out <= t)%Q /\ (t <= max_timestamp out)%Q)
              (timestamps b)
    /\ ((forall r, In r (raw.rows df') -> raw.vehicle_id r <> None) ->
        (f32 25200 <= min_timestamp out)%Q
        /\ (max_timestamp out <= f32 26100)%Q)
    /\ ((exists r, In r (raw.rows df') /\ raw.vehicle_id r = None) ->
        In 0%Q (timestamps b) /\ (min_timestamp out <= 0)%Q).
Proof.
  intros Hmono Hmain. apply raw_main_steps in Hmain.
  destruct Hmain as (df' & Hret & Hb & Hmin & Hmax & _).
  exists df', (raw.flattened f32 df').
  apply amin_spec in Hmin. destruct Hmin as [Hmin_in Hmin_le].
  apply amax_spec in Hmax. destruct Hmax as [Hmax_in Hmax_le].
  pose proof (raw_retained_sorted _ _ _ _ Hret) as Hsorted.
  destruct (raw_flattened_fields f32 df') as (_ & _ & Ht & _).
  rewrite (raw_group_rows_sorted df' Hsorted) in Ht.
  split; [ exact Hret |]. split; [ exact Hb |].
  split; [ exact Hmin_in |]. split; [ exact Hmax_in |].
  split; [| split ].
  - rewrite Forall_forall in *. intros t Hin. split; auto.
  - intros Hall. destruct (raw_identified_all df' Hall) as [Hid Hz].
    rewrite Hid, Hz in Ht. cbn [repeat] in Ht. rewrite app_nil_r in Ht.
    assert (Hwin : forall t, In t (timestamps (raw.flattened f32 df')) ->
                             (f32 25200 <= t)%Q /\ (t <= f32 26100)%Q).
    { rewrite Ht. intros t Hin. rewrite map_map in Hin.
      apply in_map_iff in Hin. destruct Hin as [r [<- Hr]].
      destruct (raw_retained_in_window _ _ _ _ _ Hret Hr) as (_ & H1 & H2).
      unfold time_cell. cbn [raw.values timestep_time].
      split; apply Hmono; now apply Qlt_le_weak. }
    split; now apply Hwin.
  - intros [r [Hr Hid]].
    assert (Hin : In 0%Q (timestamps (raw.flattened f32 df'))).
    { rewrite Ht. apply in_or_app. right.
      pose proof (raw_missing_pos df' r Hr Hid) as Hpos.
      destruct (raw.missing df'); [ lia | now left ]. }
    split; [ exact Hin |].
    rewrite Forall_forall in Hmin_le. now apply Hmin_le.
Qed.

Lemma timestamp_range_of_the_buffer_witness :
  exists out : Output,
    raw.main f32_exact reversed_draw SAMPLE_VEHICLES_configured fcd_missing_id
    = Ok out
    /\ min_timestamp out = 0%Q
    /\ max_timestamp out = 25202%Q
    /\ exists b : Buffers, In (max_timestamp out) (timestamps b).
Proof.
  destruct (raw.main f32_exact reversed_draw SAMPLE_VEHICLES_configured
              fcd_missing_id) as [out | e] eqn:Hout;
    [| vm_compute in Hout; discriminate ].
  exists out. split; [ reflexivity |].
  destruct (timestamp_range_of_the_buffer f32_exact _ _ _ out
              (fun x y H => H) Hout)
    as (df' & b & _ & _ & _ & Hmax & _).
  vm_compute in Hout. injection Hout as <-.
  split; [ reflexivity |]. split; [ reflexivity |]. exists b. exact Hmax.
Defined.

(** ** The reported counts *)

Lemma raw_unique_NoDup (l : list (option raw.Id)) : NoDup (raw.unique l).
Proof.
  induction l as [| x l IH]; [ constructor |].
  cbn [raw.unique]. constructor.
  - intros Hin. apply filter_In in Hin. destruct Hin as [_ Hne].
    assert (E : raw.cell_eqb x x = true) by now apply raw_cell_eqb_eq.
    rewrite E in Hne. discriminate.
  - now apply NoDup_filter.
Qed.

Lemma raw_dropna_NoDup (l : list (option raw.Id)) :
  NoDup l -> NoDup (raw.dropna l).
Proof.
  induction 1 as [| x u Hx Hu IH]; [ constructor |].
  destruct x as [k |]; cbn [raw.dropna flat_map app]; [| exact IH ].
  constructor; [| exact IH ].
  intros Hin. apply raw_dropna_In in Hin. contradiction.
Qed.

Lemma raw_dropna_unique_NoDup (l : list (option raw.Id)) :
  NoDup (raw.dropna (raw.unique l)).
Proof. apply raw_dropna_NoDup, raw_unique_NoDup. Qed.

Lemma raw_unique_In (l : list (option raw.Id)) (x : option raw.Id) :
  In x (raw.unique l) <-> In x l.
Proof.
  induction l as [| y l IH]; [ reflexivity |].
  cbn [raw.unique]. split.
  - intros [-> | Hin]; [ now left |].
    apply filter_In in Hin. right. now apply IH.
  - intros [-> | Hin]; [ now left |].
    destruct (raw.cell_eqb y x) eqn:E.
    + apply raw_cell_eqb_eq in E. now left.
    + right. apply filter_In. split; [ now apply IH | now rewrite E ].
Qed.

Lemma raw_group_keys_nunique (df : raw.DataFrame) :
  length (raw.group_keys df) = raw.nunique (map raw.vehicle_id (raw.rows df)).
Proof.
  unfold raw.nunique. apply Permutation_length.
  apply NoDup_Permutation;
    [ apply raw_group_keys_NoDup | apply raw_dropna_unique_NoDup |].
  intros k. now rewrite raw_group_keys_In, raw_dropna_In, raw_unique_In.
Qed.

Lemma raw_main_counts
      (f32 : Q -> Q) (permutation : nat -> list nat)
      (SAMPLE_VEHICLES : option Z) (df : raw.DataFrame) (out : Output) :
  raw.main f32 permutation SAMPLE_VEHICLES df = Ok out ->
  exists (df' : raw.DataFrame) (b : Buffers),
    raw.retained permutation SAMPLE_VEHICLES df = Ok df'
    /\ raw.flatten f32 df' = Ok b
    /\ geoms_num out = raw.nunique (map raw.vehicle_id (raw.rows df'))
    /\ coord_num out = raw.len df'
    /\ 1 <= coord_num out.
Proof.
  intros Hmain. apply raw_main_steps in Hmain.
  destruct Hmain as (df' & Hret & Hb & Hmin & _ & _ & Hg & Hc).
  exists df', (raw.flattened f32 df').
  destruct (raw_flattened_lengths f32 df') as (_ & _ & Hl & _).
  rewrite raw_groupby_length in Hg.
  repeat split; trivial.
  - now rewrite Hg, raw_group_keys_nunique.
  - rewrite Hc, <- Hl. apply amin_spec in Hmin. destruct Hmin as [Hin _].
    destruct (timestamps (raw.flattened f32 df')); [ contradiction | simpl; lia ].
Qed.

(** X8: when the script ends normally, [geoms_num], the number of trips it
    reports, is the number of distinct identifiers of the retained rows
    (a missing identifier is none) and the length of every column of the
    table; [coord_num], the number of positions it reports, is the number
    of retained rows and the length of the float buffers, and it exceeds
    the last offset and the number of edge entries by the number of
    retained rows without identifier. *)
Theorem reported_counts_and_buffers
        (f32 : Q -> Q) (permutation : nat -> list nat)
        (SAMPLE_VEHICLES : option Z) (df : raw.DataFrame) (out : Output) :
  raw.main f32 permutation SAMPLE_VEHICLES df = Ok out ->
  exists (df' : raw.DataFrame) (b : Buffers),
    raw.retained permutation SAMPLE_VEHICLES df = Ok df'
    /\ raw.flatten f32 df' = Ok b
    /\ geoms_num out = raw.nunique (map raw.vehicle_id (raw.rows df'))
    /\ geoms_num out = length (vehicle_ids b)
    /\ Forall (fun c => pa.len (snd c) = geoms_num out) (table out)
    /\ coord_num out = raw.len df'
    /\ coord_num out = length (timestamps b)
    /\ Z.of_nat (coord_num out)
       = (last (offsets b) 0 + Z.of_nat (raw.missing df'))%Z
    /\ coord_num out = length (edges b) + raw.missing df'
    /\ 1 <= coord_num out
    /\ geoms_num out + raw.missing df' <= coord_num out.
Proof.
  intros Hmain. apply raw_main_steps in Hmain.
  destruct Hmain as (df' & Hret & Hb & Hmin & _ & Ht & Hg & Hc).
  exists df', (raw.flattened f32 df').
  destruct (raw_flattened_fields f32 df')
    as (Ho & _ & Hts & _ & _ & _ & _ & _ & _ & _).
  destruct (raw_flattened_lengths f32 df') as (Hol & Hv & Hl & He).
  rewrite raw_groupby_length in Hg.
  assert (Hgv : geoms_num out = length (vehicle_ids (raw.flattened f32 df')))
    by congruence.
  pose proof (raw_len_split df') as Hsplit.
  pose proof (raw_trips_le_identified df') as Hle.
  repeat split; trivial.
  - now rewrite Hg, raw_group_keys_nunique.
  - rewrite Ht, Hgv. now apply columns_of_len.
  - now rewrite Hc, Hl.
  - rewrite Ho, Hc. change 0%Z with (Z.of_nat 0).
    rewrite last_map, boundaries_last, raw_total_len. lia.
  - rewrite Hc, He. exact Hsplit.
  - rewrite Hc, <- Hl. apply amin_spec in Hmin. destruct Hmin as [Hin _].
    destruct (timestamps (raw.flattened f32 df')); [ contradiction | simpl; lia ].
  - lia.
Qed.

Lemma reported_counts_and_buffers_witness :
  exists out : Output,
    raw.main f32_exact reversed_draw SAMPLE_VEHICLES_configured fcd_missing_id
    = Ok out
    /\ geoms_num out = 1
    /\ coord_num out = 3
    /\ Forall (fun c => pa.len (snd c) = 1) (table out).
Proof.
  destruct (raw.main f32_exact reversed_draw SAMPLE_VEHICLES_configured
              fcd_missing_id) as [out | e] eqn:Hout;
    [| vm_compute in Hout; discriminate ].
  exists out. split; [ reflexivity |].
  destruct (reported_counts_and_buffers f32_exact _ _ _ out Hout)
    as (df' & b & _ & _ & _ & _ & Hall & _).
  vm_compute in Hout. injection Hout as <-.
  repeat split; trivial.
Defined.

(** ** The values of the geometry column *)

(** X12: when the script ends normally, the first column of the table is
    [geometry], a list array of pairs over a flat float32 array with two
    entries per retained row: for the [j]-th retained row that carries an
    identifier, the cast of [vehicle_x] at index [2 j] and the cast of
    [vehicle_y] at index [2 j + 1]; after these, zeros. *)
Theorem geometry_values_of_identified_rows
        (f32 : Q -> Q) (permutation : nat -> list nat)
        (SAMPLE_VEHICLES : option Z) (df : raw.DataFrame) (out : Output) :
  raw.main f32 permutation SAMPLE_VEHICLES df = Ok out ->
  exists (df' : raw.DataFrame) (offsets : list Z) (values : list Q),
    raw.retained permutation SAMPLE_VEHICLES df = Ok df'
    /\ nth_error (table out) 0
       = Some ("geometry",
               pa.ListArray offsets
                 (pa.FixedSizeListArray (pa.FloatArray values) 2))
    /\ length values = 2 * raw.len df'
    /\ (forall (j : nat) (r0 : raw.Row),
          j < length (raw.identified df') ->
          nth j (raw.rows df') r0 = nth j (raw.identified df') r0
          /\ nth (2 * j) values 0%Q
             = f32 (raw.vehicle_x (nth j (raw.identified df') r0))
          /\ nth (2 * j + 1) values 0%Q
             = f32 (raw.vehicle_y (nth j (raw.identified df') r0)))
    /\ (forall j : nat,
          length (raw.identified df') <= j < raw.len df' ->
          nth (2 * j) values 0%Q = 0%Q /\ nth (2 * j + 1) values 0%Q = 0%Q).
Proof.
  intros Hmain. apply raw_main_steps in Hmain.
  destruct Hmain as (df' & Hret & _ & _ & _ & Ht & _).
  exists df', (offsets (raw.flattened f32 df')),
         (np.flatten_C (coords (raw.flattened f32 df'))).
  pose proof (raw_retained_sorted _ _ _ _ Hret) as Hsorted.
  assert (Hc : coords (raw.flattened f32 df')
               = map (coord_cell f32) (map raw.values (raw.identified df'))
                 ++ repeat (0, 0)%Q (raw.missing df')).
  { destruct (raw_flattened_fields f32 df') as (_ & -> & _).
    now rewrite (raw_group_rows_sorted df' Hsorted). }
  assert (Hlen : length (coords (raw.flattened f32 df')) = raw.len df').
  { rewrite Hc, length_app, !length_map, repeat_length. symmetry.
    apply raw_len_split. }
  split; [ exact Hret |]. split; [ now rewrite Ht |]. split; [| split ].
  - rewrite flatten_C_length, Hlen. lia.
  - intros j r0 Hj.
    assert (Hj' : j < length (coords (raw.flattened f32 df')))
      by (rewrite Hlen, raw_len_split; lia).
    destruct (flatten_C_nth _ j Hj') as [Hx Hy]. rewrite Hx, Hy.
    rewrite Hc, app_nth1 by (rewrite !length_map; exact Hj).
    rewrite map_map.
    rewrite (nth_indep _ (0, 0)%Q (coord_cell f32 (raw.values r0)))
      by (rewrite length_map; exact Hj).
    rewrite (map_nth (fun r => coord_cell f32 (raw.values r))).
    split; [| split; reflexivity ].
    rewrite (raw_sorted_identified_first _ Hsorted) at 1.
    now apply app_nth1.
  - intros j [Hlo Hhi].
    assert (Hj' : j < length (coords (raw.flattened f32 df')))
      by (rewrite Hlen; exact Hhi).
    destruct (flatten_C_nth _ j Hj') as [Hx Hy]. rewrite Hx, Hy.
    rewrite Hc, app_nth2 by (rewrite !length_map; exact Hlo).
    rewrite nth_repeat. split; reflexivity.
Qed.

Lemma geometry_values_of_identified_rows_witness :
  exists (out : Output) (offsets : list Z),
    raw.main f32_exact reversed_draw SAMPLE_VEHICLES_configured fcd_missing_id
    = Ok out
    /\ nth_error (table out) 0
       = Some ("geometry",
               pa.ListArray offsets
                 (pa.FixedSizeListArray
                    (pa.FloatArray [1%Q; 1%Q; 3%Q; 3%Q; 0%Q; 0%Q]) 2)).
Proof.
  destruct (raw.main f32_exact reversed_draw SAMPLE_VEHICLES_configured
              fcd_missing_id) as [out | e] eqn:Hout;
    [| vm_compute in Hout; discriminate ].
  destruct (geometry_values_of_identified_rows f32_exact _ _ _ out Hout)
    as (df' & offsets & values & _ & Hgeo & _).
  vm_compute in Hout. injection Hout as <-.
  cbn [table nth_error] in Hgeo. injection Hgeo as <- <-.
  eexists. exists [0; 2]%Z. split; reflexivity.
Defined.

(** ** The number of trips *)

Section RawDraw.

Variable permutation : nat -> list nat.
Hypothesis permutation_spec : forall n, Permutation (permutation n) (seq 0 n).

Variable a : list (option raw.Id).
Hypothesis a_NoDup : NoDup a.

Lemma raw_draw_firstn (k : nat) :
  k <= length a ->
  let s := map (fun i => nth i a None) (firstn k (permutation (length a))) in
  NoDup s /\ incl s a /\ length s = k.
Proof.
  intros Hk. cbn zeta.
  assert (Hall : Permutation
                   (map (fun i => nth i a None) (permutation (length a))) a).
  { rewrite (Permutation_map _ (permutation_spec (length a))).
    now rewrite map_nth_seq. }
  rewrite <- (firstn_skipn k (permutation (length a))) in Hall.
  rewrite map_app in Hall.
  repeat split.
  - apply (NoDup_app_remove_r _ (map (fun i => nth i a None)
                                     (skipn k (permutation (length a))))).
    apply (Permutation_NoDup (Permutation_sym Hall) a_NoDup).
  - intros x Hx. apply (Permutation_in _ Hall). apply in_or_app. now left.
  - rewrite length_map, length_firstn.
    rewrite (Permutation_length (permutation_spec (length a))), length_seq.
    lia.
Qed.

End RawDraw.

Lemma raw_isin_In (values : list (option raw.Id)) (r : raw.Row) :
  raw.isin values r = true <-> In (raw.vehicle_id r) values.
Proof.
  unfold raw.isin. rewrite existsb_exists. split.
  - intros [x [Hx E]]. apply raw_cell_eqb_eq in E. now rewrite E.
  - intros H. exists (raw.vehicle_id r). split; trivial.
    now apply raw_cell_eqb_eq.
Qed.

(** The distinct identifiers left by [isin] are the selected ones. *)
Lemma raw_unique_isin (values : list (option raw.Id)) (df : raw.DataFrame) :
  NoDup values ->
  incl values (raw.unique (map raw.vehicle_id (raw.rows df))) ->
  Permutation
    (raw.unique (map raw.vehicle_id (raw.rows (raw.loc (raw.isin values) df))))
    values.
Proof.
  intros Hnd Hincl. apply NoDup_Permutation; trivial; [ apply raw_unique_NoDup |].
  intros x. rewrite raw_unique_In, in_map_iff. cbn [raw.loc raw.rows]. split.
  - intros [r [<- Hr]]. apply filter_In in Hr. now apply raw_isin_In.
  - intros Hx. specialize (Hincl x Hx). apply raw_unique_In, in_map_iff in Hincl.
    destruct Hincl as [r [<- Hr]]. exists r. split; trivial.
    apply filter_In. split; trivial. now apply raw_isin_In.
Qed.

Lemma raw_unique_Permutation (l l' : list (option raw.Id)) :
  Permutation l l' -> Permutation (raw.unique l) (raw.unique l').
Proof.
  intros H. apply NoDup_Permutation; try apply raw_unique_NoDup.
  intros x. rewrite !raw_unique_In. split; apply Permutation_in; trivial.
  now apply Permutation_sym.
Qed.

Lemma raw_dropna_Permutation (l l' : list (option raw.Id)) :
  Permutation l l' -> Permutation (raw.dropna l) (raw.dropna l').
Proof. unfold raw.dropna. apply Permutation_flat_map. Qed.

Lemma raw_dropna_full (l : list (option raw.Id)) :
  ~ In None l -> length (raw.dropna l) = length l.
Proof.
  induction l as [| [k |] l IH]; intros H; [ reflexivity | |].
  - cbn [raw.dropna flat_map app length]. f_equal.
    apply IH. intros Hin. apply H. now right.
  - exfalso. apply H. now left.
Qed.

Lemma raw_dropna_one (l : list (option raw.Id)) :
  NoDup l -> In None l -> length (raw.dropna l) + 1 = length l.
Proof.
  induction 1 as [| x l Hx Hnd IH]; intros Hin; [ contradiction |].
  destruct x as [k |].
  - cbn [raw.dropna flat_map app length].
    destruct Hin as [E | Hin]; [ discriminate |].
    fold (raw.dropna l). rewrite <- (IH Hin). lia.
  - cbn [raw.dropna flat_map app length]. fold (raw.dropna l).
    rewrite (raw_dropna_full l Hx). lia.
Qed.

Lemma raw_sample_Some_Ok (permutation : nat -> list nat) (n : Z)
      (d d' : raw.DataFrame) :
  raw.sample permutation (Some n) d = Ok d' ->
  let a := raw.unique (map raw.vehicle_id (raw.rows d)) in
  (0 <= n)%Z
  /\ d' = raw.loc
            (raw.isin (map (fun i => nth i a None)
                           (firstn (Nat.min (Z.to_nat n) (length a))
                                   (permutation (length a))))) d.
Proof.
  cbn zeta. unfold raw.sample, raw.random_choice.
  set (a := raw.unique (map raw.vehicle_id (raw.rows d))).
  set (size := Z.min n (Z.of_nat (length a))).
  destruct ((length a =? 0)%nat && negb (size =? 0)%Z); [ discriminate |].
  destruct (Z.ltb_spec (Z.of_nat (length a)) size); [ discriminate |].
  destruct (Z.ltb_spec size 0); [ discriminate |].
  cbn [bind]. intros [= <-].
  assert (Hn : (0 <= n)%Z) by (unfold size in *; lia).
  split; [ exact Hn |].
  replace (Z.to_nat size) with (Nat.min (Z.to_nat n) (length a))
    by (unfold size; lia).
  reflexivity.
Qed.

(** X9: when the script ends normally, the number of trips is the number
    of distinct identifiers with a row inside the time window when no
    sample count is configured.  With a sample count, which is then
    positive, it is the number of identifiers among the values drawn: the
    sample count cut down to the number of distinct identifiers when no row
    of the window lacks one, and one less than the number of values drawn
    when the missing identifier is one of them. *)
Theorem trip_count_of_the_draw
        (f32 : Q -> Q) (permutation : nat -> list nat)
        (SAMPLE_VEHICLES : option Z) (df : raw.DataFrame) (out : Output) :
  (forall m, Permutation (permutation m) (seq 0 m)) ->
  raw.main f32 permutation SAMPLE_VEHICLES df = Ok out ->
  let ids := map raw.vehicle_id (raw.rows (raw.filter_rows df)) in
  match SAMPLE_VEHICLES with
  | None => geoms_num out = raw.nunique ids
  | Some n =>
      (0 < n)%Z
      /\ exists sampled_vehicles : list (option raw.Id),
          NoDup sampled_vehicles
          /\ incl sampled_vehicles ids
          /\ length sampled_vehicles
             = Nat.min (Z.to_nat n) (length (raw.unique ids))
          /\ geoms_num out = length (raw.dropna sampled_vehicles)
          /\ (~ In None ids ->
              geoms_num out = Nat.min (Z.to_nat n) (raw.nunique ids))
          /\ (In None sampled_vehicles ->
              geoms_num out + 1 = length sampled_vehicles)
  end.
Proof.
  intros Hperm Hmain. cbn zeta.
  assert (Hpos : exists df' b,
             raw.retained permutation SAMPLE_VEHICLES df = Ok df'
             /\ raw.flatten f32 df' = Ok b
             /\ geoms_num out = raw.nunique (map raw.vehicle_id (raw.rows df'))
             /\ 1 <= raw.len df').
  { destruct (raw_main_counts f32 _ _ _ _ Hmain)
      as (df' & b & Hret & Hb & Hg & Hc & H1).
    exists df', b. repeat split; trivial. now rewrite <- Hc. }
  destruct Hpos as (df' & b & Hret & _ & Hg & Hrows).
  set (window := raw.filter_rows df) in *.
  assert (Hsort : Permutation
                    (map raw.vehicle_id (raw.rows (raw.sort_values window)))
                    (map raw.vehicle_id (raw.rows window))).
  { apply Permutation_map, Permutation_sym.
    cbn [raw.sort_values raw.rows]. apply raw_stable_sort_perm. }
  unfold raw.retained in Hret. fold window in Hret.
  destruct SAMPLE_VEHICLES as [n |].
  - apply raw_sample_Some_Ok in Hret. cbn zeta in Hret. destruct Hret as [Hn Hdf].
    set (a := raw.unique (map raw.vehicle_id (raw.rows (raw.sort_values window))))
      in *.
    set (s := map (fun i => nth i a None)
                  (firstn (Nat.min (Z.to_nat n) (length a))
                          (permutation (length a)))) in *.
    destruct (raw_draw_firstn permutation Hperm a (raw_unique_NoDup _)
                (Nat.min (Z.to_nat n) (length a)) (Nat.le_min_r _ _))
      as (Hnd & Hincl & Hlen).
    fold s in Hnd, Hincl, Hlen.
    pose proof (raw_unique_isin s (raw.sort_values window) Hnd Hincl) as Hu.
    rewrite <- Hdf in Hu.
    assert (Hcount : geoms_num out = length (raw.dropna s)).
    { rewrite Hg. unfold raw.nunique.
      apply Permutation_length, raw_dropna_Permutation, Hu. }
    assert (Ha : length a
                 = length (raw.unique (map raw.vehicle_id (raw.rows window))))
      by (apply Permutation_length, raw_unique_Permutation, Hsort).
    assert (Hs_ids : incl s (map raw.vehicle_id (raw.rows window))).
    { intros x Hx. apply (Permutation_in _ Hsort).
      apply raw_unique_In. now apply Hincl. }
    split.
    + destruct (Z.eq_dec n 0) as [-> | Hne]; [| lia ].
      exfalso. cbn [Z.to_nat Nat.min] in Hlen.
      apply length_zero_iff_nil in Hlen.
      assert (Hempty : raw.rows df' = []).
      { rewrite Hdf, Hlen. cbn [raw.loc raw.rows]. apply filter_none.
        reflexivity. }
      unfold raw.len in Hrows. rewrite Hempty in Hrows. simpl in Hrows. lia.
    + exists s. split; [ exact Hnd |]. split; [ exact Hs_ids |].
      split; [ now rewrite Hlen, Ha |]. split; [ exact Hcount |]. split.
      * intros Hnone. rewrite Hcount, raw_dropna_full.
        -- rewrite Hlen, Ha. unfold raw.nunique. rewrite raw_dropna_full;
             [ reflexivity |].
           intros Hin. rewrite raw_unique_In in Hin. exact (Hnone Hin).
        -- intros Hin. apply Hnone, Hs_ids, Hin.
      * intros Hin. rewrite Hcount. now apply raw_dropna_one.
  - cbn [raw.sample] in Hret. injection Hret as <-. rewrite Hg.
    unfold raw.nunique.
    apply Permutation_length, raw_dropna_Permutation, raw_unique_Permutation,
      Hsort.
Qed.

Lemma trip_count_of_the_draw_witness :
  exists out : Output,
    raw.main f32_exact reversed_draw (Some 1%Z) fcd_missing_id = Ok out
    /\ geoms_num out = 0
    /\ coord_num out = 1
    /\ exists sampled_vehicles : list (option raw.Id),
        In None sampled_vehicles
        /\ geoms_num out + 1 = length sampled_vehicles.
Proof.
  destruct (raw.main f32_exact reversed_draw (Some 1%Z) fcd_missing_id)
    as [out | e] eqn:Hout; [| vm_compute in Hout; discriminate ].
  exists out. split; [ reflexivity |].
  destruct (trip_count_of_the_draw f32_exact reversed_draw (Some 1%Z)
              fcd_missing_id out)
    as (_ & s & Hnd & Hincl & Hlen & Hcount & _ & Hnone); trivial.
  - intros m. apply Permutation_sym, Permutation_rev.
  - vm_compute in Hout. injection Hout as <-.
    cbn [geoms_num coord_num] in *.
    split; [ reflexivity |]. split; [ reflexivity |].
    exists s. vm_compute in Hlen.
    destruct s as [| [k |] [| y s]]; try discriminate.
    split; [ now left |]. apply Hnone. now left.
Defined.

